(** * build_publications.py: a shallow embedding and its verified properties

    The program reads [publications.csv], renders one HTML fragment per row,
    sorts the fragments into four buckets and writes [publications.html].

    Text is modelled as [list ascii], the bytes of the UTF-8 text that the
    program reads and writes.  The patterns, separators and markers of the
    program are ASCII characters, and UTF-8 uses no ASCII byte inside the
    encoding of another character, so that searching, cutting and replacing
    on the bytes is searching, cutting and replacing on the code points.
    [strip] and [lower] depend on the code points themselves; they follow the
    character tables of Unicode 14.0, as CPython 3.11 has them. *)

From Stdlib Require Import Ascii String DecimalString NArith.
From stdpp Require Import base option list gmap.
Import ListNotations.
Open Scope string_scope.
Open Scope list_scope.

(** ** Text and literals *)

Abbreviation text := (list ascii).

Definition dquote : ascii := ascii_of_nat 34.
Definition backtick : ascii := ascii_of_nat 96.
Definition nl : ascii := ascii_of_nat 10.
Definition cr : ascii := ascii_of_nat 13.

(** A literal of the source.  The source never uses the backtick, so a
    literal is written here with a backtick wherever the source has a
    double quote; [lit] puts the double quote back. *)
Definition lit (s : string) : text :=
  map (fun c => if Ascii.eqb c backtick then dquote else c) (list_ascii_of_string s).

Coercion lit : string >-> list.

(** ** UTF-8 *)

Module Utf8.

Definition byte (n : N) : ascii := ascii_of_N n.

(** The bytes of one code point. *)
Definition encode_point (c : N) : text :=
  if (c <? 0x80)%N then [byte c]
  else if (c <? 0x800)%N then
    [byte (0xC0 + c / 0x40); byte (0x80 + c mod 0x40)]
  else if (c <? 0x10000)%N then
    [byte (0xE0 + c / 0x1000); byte (0x80 + (c / 0x40) mod 0x40);
     byte (0x80 + c mod 0x40)]
  else
    [byte (0xF0 + c / 0x40000); byte (0x80 + (c / 0x1000) mod 0x40);
     byte (0x80 + (c / 0x40) mod 0x40); byte (0x80 + c mod 0x40)].

Definition encode (l : list N) : text := flat_map encode_point l.

(** The six bits that a continuation byte carries. *)
Definition cont (b : ascii) : N := (N_of_ascii b mod 0x40)%N.

(** The code points of a text.  The program reads its file as UTF-8, so
    it meets well-formed text only; a byte that begins no complete
    sequence is passed on as a code point of its own. *)
Fixpoint decode (s : text) : list N :=
  match s with
  | [] => []
  | a :: s1 =>
      let n := N_of_ascii a in
      if (n <? 0xC0)%N then n :: decode s1
      else if (n <? 0xE0)%N then
        match s1 with
        | b :: s2 => ((n - 0xC0) * 0x40 + cont b)%N :: decode s2
        | [] => [n]
        end
      else if (n <? 0xF0)%N then
        match s1 with
        | b :: c :: s3 =>
            ((n - 0xE0) * 0x1000 + cont b * 0x40 + cont c)%N :: decode s3
        | _ => n :: decode s1
        end
      else
        match s1 with
        | b :: c :: d :: s4 =>
            ((n - 0xF0) * 0x40000 + cont b * 0x1000 + cont c * 0x40 + cont d)%N
              :: decode s4
        | _ => n :: decode s1
        end
  end.

End Utf8.

(** ** The character tables *)

Module Unicode.

Definition in_ranges (rs : list (N * N)) (c : N) : bool :=
  existsb (fun r : N * N => (r.1 <=? c)%N && (c <=? r.2)%N) rs.

(** The code points for which [str.isspace] holds, which are the ones
    that [str.strip] removes: TAB to CR, FS to US, the space, NEL, the
    no-break space, the Ogham space mark, EN QUAD to HAIR SPACE, the line
    and the paragraph separator, the narrow no-break space, the medium
    mathematical space and the ideographic space. *)
Definition space_points : list N :=
  [0x9; 0xA; 0xB; 0xC; 0xD; 0x1C; 0x1D; 0x1E; 0x1F; 0x20; 0x85; 0xA0; 0x1680;
   0x2000; 0x2001; 0x2002; 0x2003; 0x2004; 0x2005; 0x2006; 0x2007; 0x2008;
   0x2009; 0x200A; 0x2028; 0x2029; 0x202F; 0x205F; 0x3000]%N.

(** The lower-case mappings of one code point to one code point.  An
    entry [(lo, hi, step, base)] maps the code points [lo], [lo + step],
    ... up to [hi] to [base], [base + step], ... *)
Definition lower_rules : list (N * N * N * N) :=
  [(0x41, 0x5A, 1, 0x61); (0xC0, 0xD6, 1, 0xE0); (0xD8, 0xDE, 1, 0xF8);
   (0x100, 0x12E, 2, 0x101); (0x132, 0x136, 2, 0x133); (0x139, 0x147, 2, 0x13A);
   (0x14A, 0x176, 2, 0x14B); (0x178, 0x178, 1, 0xFF); (0x179, 0x17D, 2, 0x17A);
   (0x181, 0x181, 1, 0x253); (0x182, 0x184, 2, 0x183); (0x186, 0x186, 1, 0x254);
   (0x187, 0x187, 1, 0x188); (0x189, 0x18A, 1, 0x256); (0x18B, 0x18B, 1, 0x18C);
   (0x18E, 0x18E, 1, 0x1DD); (0x18F, 0x18F, 1, 0x259); (0x190, 0x190, 1, 0x25B);
   (0x191, 0x191, 1, 0x192); (0x193, 0x193, 1, 0x260); (0x194, 0x194, 1, 0x263);
   (0x196, 0x196, 1, 0x269); (0x197, 0x197, 1, 0x268); (0x198, 0x198, 1, 0x199);
   (0x19C, 0x19C, 1, 0x26F); (0x19D, 0x19D, 1, 0x272); (0x19F, 0x19F, 1, 0x275);
   (0x1A0, 0x1A4, 2, 0x1A1); (0x1A6, 0x1A6, 1, 0x280); (0x1A7, 0x1A7, 1, 0x1A8);
   (0x1A9, 0x1A9, 1, 0x283); (0x1AC, 0x1AC, 1, 0x1AD); (0x1AE, 0x1AE, 1, 0x288);
   (0x1AF, 0x1AF, 1, 0x1B0); (0x1B1, 0x1B2, 1, 0x28A); (0x1B3, 0x1B5, 2, 0x1B4);
   (0x1B7, 0x1B7, 1, 0x292); (0x1B8, 0x1B8, 1, 0x1B9); (0x1BC, 0x1BC, 1, 0x1BD);
   (0x1C4, 0x1C4, 1, 0x1C6); (0x1C5, 0x1C5, 1, 0x1C6); (0x1C7, 0x1C7, 1, 0x1C9);
   (0x1C8, 0x1C8, 1, 0x1C9); (0x1CA, 0x1CA, 1, 0x1CC); (0x1CB, 0x1DB, 2, 0x1CC);
   (0x1DE, 0x1EE, 2, 0x1DF); (0x1F1, 0x1F1, 1, 0x1F3); (0x1F2, 0x1F4, 2, 0x1F3);
   (0x1F6, 0x1F6, 1, 0x195); (0x1F7, 0x1F7, 1, 0x1BF); (0x1F8, 0x21E, 2, 0x1F9);
   (0x220, 0x220, 1, 0x19E); (0x222, 0x232, 2, 0x223); (0x23A, 0x23A, 1, 0x2C65);
   (0x23B, 0x23B, 1, 0x23C); (0x23D, 0x23D, 1, 0x19A); (0x23E, 0x23E, 1, 0x2C66);
   (0x241, 0x241, 1, 0x242); (0x243, 0x243, 1, 0x180); (0x244, 0x244, 1, 0x289);
   (0x245, 0x245, 1, 0x28C); (0x246, 0x24E, 2, 0x247); (0x370, 0x372, 2, 0x371);
   (0x376, 0x376, 1, 0x377); (0x37F, 0x37F, 1, 0x3F3); (0x386, 0x386, 1, 0x3AC);
   (0x388, 0x38A, 1, 0x3AD); (0x38C, 0x38C, 1, 0x3CC); (0x38E, 0x38F, 1, 0x3CD);
   (0x391, 0x3A1, 1, 0x3B1); (0x3A3, 0x3AB, 1, 0x3C3); (0x3CF, 0x3CF, 1, 0x3D7);
   (0x3D8, 0x3EE, 2, 0x3D9); (0x3F4, 0x3F4, 1, 0x3B8); (0x3F7, 0x3F7, 1, 0x3F8);
   (0x3F9, 0x3F9, 1, 0x3F2); (0x3FA, 0x3FA, 1, 0x3FB); (0x3FD, 0x3FF, 1, 0x37B);
   (0x400, 0x40F, 1, 0x450); (0x410, 0x42F, 1, 0x430); (0x460, 0x480, 2, 0x461);
   (0x48A, 0x4BE, 2, 0x48B); (0x4C0, 0x4C0, 1, 0x4CF); (0x4C1, 0x4CD, 2, 0x4C2);
   (0x4D0, 0x52E, 2, 0x4D1); (0x531, 0x556, 1, 0x561); (0x10A0, 0x10C5, 1, 0x2D00);
   (0x10C7, 0x10C7, 1, 0x2D27); (0x10CD, 0x10CD, 1, 0x2D2D); (0x13A0, 0x13EF, 1, 0xAB70);
   (0x13F0, 0x13F5, 1, 0x13F8); (0x1C90, 0x1CBA, 1, 0x10D0); (0x1CBD, 0x1CBF, 1, 0x10FD);
   (0x1E00, 0x1E94, 2, 0x1E01); (0x1E9E, 0x1E9E, 1, 0xDF); (0x1EA0, 0x1EFE, 2, 0x1EA1);
   (0x1F08, 0x1F0F, 1, 0x1F00); (0x1F18, 0x1F1D, 1, 0x1F10); (0x1F28, 0x1F2F, 1, 0x1F20);
   (0x1F38, 0x1F3F, 1, 0x1F30); (0x1F48, 0x1F4D, 1, 0x1F40); (0x1F59, 0x1F5F, 2, 0x1F51);
   (0x1F68, 0x1F6F, 1, 0x1F60); (0x1F88, 0x1F8F, 1, 0x1F80); (0x1F98, 0x1F9F, 1, 0x1F90);
   (0x1FA8, 0x1FAF, 1, 0x1FA0); (0x1FB8, 0x1FB9, 1, 0x1FB0); (0x1FBA, 0x1FBB, 1, 0x1F70);
   (0x1FBC, 0x1FBC, 1, 0x1FB3); (0x1FC8, 0x1FCB, 1, 0x1F72); (0x1FCC, 0x1FCC, 1, 0x1FC3);
   (0x1FD8, 0x1FD9, 1, 0x1FD0); (0x1FDA, 0x1FDB, 1, 0x1F76); (0x1FE8, 0x1FE9, 1, 0x1FE0);
   (0x1FEA, 0x1FEB, 1, 0x1F7A); (0x1FEC, 0x1FEC, 1, 0x1FE5); (0x1FF8, 0x1FF9, 1, 0x1F78);
   (0x1FFA, 0x1FFB, 1, 0x1F7C); (0x1FFC, 0x1FFC, 1, 0x1FF3); (0x2126, 0x2126, 1, 0x3C9);
   (0x212A, 0x212A, 1, 0x6B); (0x212B, 0x212B, 1, 0xE5); (0x2132, 0x2132, 1, 0x214E);
   (0x2160, 0x216F, 1, 0x2170); (0x2183, 0x2183, 1, 0x2184); (0x24B6, 0x24CF, 1, 0x24D0);
   (0x2C00, 0x2C2F, 1, 0x2C30); (0x2C60, 0x2C60, 1, 0x2C61); (0x2C62, 0x2C62, 1, 0x26B);
   (0x2C63, 0x2C63, 1, 0x1D7D); (0x2C64, 0x2C64, 1, 0x27D); (0x2C67, 0x2C6B, 2, 0x2C68);
   (0x2C6D, 0x2C6D, 1, 0x251); (0x2C6E, 0x2C6E, 1, 0x271); (0x2C6F, 0x2C6F, 1, 0x250);
   (0x2C70, 0x2C70, 1, 0x252); (0x2C72, 0x2C72, 1, 0x2C73); (0x2C75, 0x2C75, 1, 0x2C76);
   (0x2C7E, 0x2C7F, 1, 0x23F); (0x2C80, 0x2CE2, 2, 0x2C81); (0x2CEB, 0x2CED, 2, 0x2CEC);
   (0x2CF2, 0x2CF2, 1, 0x2CF3); (0xA640, 0xA66C, 2, 0xA641); (0xA680, 0xA69A, 2, 0xA681);
   (0xA722, 0xA72E, 2, 0xA723); (0xA732, 0xA76E, 2, 0xA733); (0xA779, 0xA77B, 2, 0xA77A);
   (0xA77D, 0xA77D, 1, 0x1D79); (0xA77E, 0xA786, 2, 0xA77F); (0xA78B, 0xA78B, 1, 0xA78C);
   (0xA78D, 0xA78D, 1, 0x265); (0xA790, 0xA792, 2, 0xA791); (0xA796, 0xA7A8, 2, 0xA797);
   (0xA7AA, 0xA7AA, 1, 0x266); (0xA7AB, 0xA7AB, 1, 0x25C); (0xA7AC, 0xA7AC, 1, 0x261);
   (0xA7AD, 0xA7AD, 1, 0x26C); (0xA7AE, 0xA7AE, 1, 0x26A); (0xA7B0, 0xA7B0, 1, 0x29E);
   (0xA7B1, 0xA7B1, 1, 0x287); (0xA7B2, 0xA7B2, 1, 0x29D); (0xA7B3, 0xA7B3, 1, 0xAB53);
   (0xA7B4, 0xA7C2, 2, 0xA7B5); (0xA7C4, 0xA7C4, 1, 0xA794); (0xA7C5, 0xA7C5, 1, 0x282);
   (0xA7C6, 0xA7C6, 1, 0x1D8E); (0xA7C7, 0xA7C9, 2, 0xA7C8); (0xA7D0, 0xA7D0, 1, 0xA7D1);
   (0xA7D6, 0xA7D8, 2, 0xA7D7); (0xA7F5, 0xA7F5, 1, 0xA7F6); (0xFF21, 0xFF3A, 1, 0xFF41);
   (0x10400, 0x10427, 1, 0x10428); (0x104B0, 0x104D3, 1, 0x104D8);
   (0x10570, 0x1057A, 1, 0x10597); (0x1057C, 0x1058A, 1, 0x105A3);
   (0x1058C, 0x10592, 1, 0x105B3); (0x10594, 0x10595, 1, 0x105BB);
   (0x10C80, 0x10CB2, 1, 0x10CC0); (0x118A0, 0x118BF, 1, 0x118C0);
   (0x16E40, 0x16E5F, 1, 0x16E60); (0x1E900, 0x1E921, 1, 0x1E922)]%N.

(** The lower case of one code point; LATIN CAPITAL LETTER I WITH DOT
    ABOVE is the one code point with a lower case of two. *)
Definition lower_point (c : N) : list N :=
  if (c =? 0x130)%N then [0x69; 0x307]%N
  else
    match find (fun r : N * N * N * N =>
                  let '(lo, hi, step, _) := r in
                  (lo <=? c)%N && (c <=? hi)%N && ((c - lo) mod step =? 0)%N)
               lower_rules with
    | Some (lo, _, _, base) => [(base + (c - lo))%N]
    | None => [c]
    end.

(** The property Cased: lower-case, upper-case and title-case
    letters. *)
Definition cased_ranges : list (N * N) :=
  [(0x41, 0x5A); (0x61, 0x7A); (0xAA, 0xAA); (0xB5, 0xB5); (0xBA, 0xBA); (0xC0, 0xD6);
   (0xD8, 0xF6); (0xF8, 0x1BA); (0x1BC, 0x1BF); (0x1C4, 0x293); (0x295, 0x2B8);
   (0x2C0, 0x2C1); (0x2E0, 0x2E4); (0x345, 0x345); (0x370, 0x373); (0x376, 0x377);
   (0x37A, 0x37D); (0x37F, 0x37F); (0x386, 0x386); (0x388, 0x38A); (0x38C, 0x38C);
   (0x38E, 0x3A1); (0x3A3, 0x3F5); (0x3F7, 0x481); (0x48A, 0x52F); (0x531, 0x556);
   (0x560, 0x588); (0x10A0, 0x10C5); (0x10C7, 0x10C7); (0x10CD, 0x10CD); (0x10D0, 0x10FA);
   (0x10FD, 0x10FF); (0x13A0, 0x13F5); (0x13F8, 0x13FD); (0x1C80, 0x1C88); (0x1C90, 0x1CBA);
   (0x1CBD, 0x1CBF); (0x1D00, 0x1DBF); (0x1E00, 0x1F15); (0x1F18, 0x1F1D); (0x1F20, 0x1F45);
   (0x1F48, 0x1F4D); (0x1F50, 0x1F57); (0x1F59, 0x1F59); (0x1F5B, 0x1F5B); (0x1F5D, 0x1F5D);
   (0x1F5F, 0x1F7D); (0x1F80, 0x1FB4); (0x1FB6, 0x1FBC); (0x1FBE, 0x1FBE); (0x1FC2, 0x1FC4);
   (0x1FC6, 0x1FCC); (0x1FD0, 0x1FD3); (0x1FD6, 0x1FDB); (0x1FE0, 0x1FEC); (0x1FF2, 0x1FF4);
   (0x1FF6, 0x1FFC); (0x2071, 0x2071); (0x207F, 0x207F); (0x2090, 0x209C); (0x2102, 0x2102);
   (0x2107, 0x2107); (0x210A, 0x2113); (0x2115, 0x2115); (0x2119, 0x211D); (0x2124, 0x2124);
   (0x2126, 0x2126); (0x2128, 0x2128); (0x212A, 0x212D); (0x212F, 0x2134); (0x2139, 0x2139);
   (0x213C, 0x213F); (0x2145, 0x2149); (0x214E, 0x214E); (0x2160, 0x217F); (0x2183, 0x2184);
   (0x24B6, 0x24E9); (0x2C00, 0x2CE4); (0x2CEB, 0x2CEE); (0x2CF2, 0x2CF3); (0x2D00, 0x2D25);
   (0x2D27, 0x2D27); (0x2D2D, 0x2D2D); (0xA640, 0xA66D); (0xA680, 0xA69D); (0xA722, 0xA787);
   (0xA78B, 0xA78E); (0xA790, 0xA7CA); (0xA7D0, 0xA7D1); (0xA7D3, 0xA7D3); (0xA7D5, 0xA7D9);
   (0xA7F5, 0xA7F6); (0xA7F8, 0xA7FA); (0xAB30, 0xAB5A); (0xAB5C, 0xAB68); (0xAB70, 0xABBF);
   (0xFB00, 0xFB06); (0xFB13, 0xFB17); (0xFF21, 0xFF3A); (0xFF41, 0xFF5A);
   (0x10400, 0x1044F); (0x104B0, 0x104D3); (0x104D8, 0x104FB); (0x10570, 0x1057A);
   (0x1057C, 0x1058A); (0x1058C, 0x10592); (0x10594, 0x10595); (0x10597, 0x105A1);
   (0x105A3, 0x105B1); (0x105B3, 0x105B9); (0x105BB, 0x105BC); (0x10780, 0x10780);
   (0x10783, 0x10785); (0x10787, 0x107B0); (0x107B2, 0x107BA); (0x10C80, 0x10CB2);
   (0x10CC0, 0x10CF2); (0x118A0, 0x118DF); (0x16E40, 0x16E7F); (0x1D400, 0x1D454);
   (0x1D456, 0x1D49C); (0x1D49E, 0x1D49F); (0x1D4A2, 0x1D4A2); (0x1D4A5, 0x1D4A6);
   (0x1D4A9, 0x1D4AC); (0x1D4AE, 0x1D4B9); (0x1D4BB, 0x1D4BB); (0x1D4BD, 0x1D4C3);
   (0x1D4C5, 0x1D505); (0x1D507, 0x1D50A); (0x1D50D, 0x1D514); (0x1D516, 0x1D51C);
   (0x1D51E, 0x1D539); (0x1D53B, 0x1D53E); (0x1D540, 0x1D544); (0x1D546, 0x1D546);
   (0x1D54A, 0x1D550); (0x1D552, 0x1D6A5); (0x1D6A8, 0x1D6C0); (0x1D6C2, 0x1D6DA);
   (0x1D6DC, 0x1D6FA); (0x1D6FC, 0x1D714); (0x1D716, 0x1D734); (0x1D736, 0x1D74E);
   (0x1D750, 0x1D76E); (0x1D770, 0x1D788); (0x1D78A, 0x1D7A8); (0x1D7AA, 0x1D7C2);
   (0x1D7C4, 0x1D7CB); (0x1DF00, 0x1DF09); (0x1DF0B, 0x1DF1E); (0x1E900, 0x1E943);
   (0x1F130, 0x1F149); (0x1F150, 0x1F169); (0x1F170, 0x1F189)]%N.

(** The property Case_Ignorable. *)
Definition case_ignorable_ranges : list (N * N) :=
  [(0x27, 0x27); (0x2E, 0x2E); (0x3A, 0x3A); (0x5E, 0x5E); (0x60, 0x60); (0xA8, 0xA8);
   (0xAD, 0xAD); (0xAF, 0xAF); (0xB4, 0xB4); (0xB7, 0xB8); (0x2B0, 0x36F); (0x374, 0x375);
   (0x37A, 0x37A); (0x384, 0x385); (0x387, 0x387); (0x483, 0x489); (0x559, 0x559);
   (0x55F, 0x55F); (0x591, 0x5BD); (0x5BF, 0x5BF); (0x5C1, 0x5C2); (0x5C4, 0x5C5);
   (0x5C7, 0x5C7); (0x5F4, 0x5F4); (0x600, 0x605); (0x610, 0x61A); (0x61C, 0x61C);
   (0x640, 0x640); (0x64B, 0x65F); (0x670, 0x670); (0x6D6, 0x6DD); (0x6DF, 0x6E8);
   (0x6EA, 0x6ED); (0x70F, 0x70F); (0x711, 0x711); (0x730, 0x74A); (0x7A6, 0x7B0);
   (0x7EB, 0x7F5); (0x7FA, 0x7FA); (0x7FD, 0x7FD); (0x816, 0x82D); (0x859, 0x85B);
   (0x888, 0x888); (0x890, 0x891); (0x898, 0x89F); (0x8C9, 0x902); (0x93A, 0x93A);
   (0x93C, 0x93C); (0x941, 0x948); (0x94D, 0x94D); (0x951, 0x957); (0x962, 0x963);
   (0x971, 0x971); (0x981, 0x981); (0x9BC, 0x9BC); (0x9C1, 0x9C4); (0x9CD, 0x9CD);
   (0x9E2, 0x9E3); (0x9FE, 0x9FE); (0xA01, 0xA02); (0xA3C, 0xA3C); (0xA41, 0xA42);
   (0xA47, 0xA48); (0xA4B, 0xA4D); (0xA51, 0xA51); (0xA70, 0xA71); (0xA75, 0xA75);
   (0xA81, 0xA82); (0xABC, 0xABC); (0xAC1, 0xAC5); (0xAC7, 0xAC8); (0xACD, 0xACD);
   (0xAE2, 0xAE3); (0xAFA, 0xAFF); (0xB01, 0xB01); (0xB3C, 0xB3C); (0xB3F, 0xB3F);
   (0xB41, 0xB44); (0xB4D, 0xB4D); (0xB55, 0xB56); (0xB62, 0xB63); (0xB82, 0xB82);
   (0xBC0, 0xBC0); (0xBCD, 0xBCD); (0xC00, 0xC00); (0xC04, 0xC04); (0xC3C, 0xC3C);
   (0xC3E, 0xC40); (0xC46, 0xC48); (0xC4A, 0xC4D); (0xC55, 0xC56); (0xC62, 0xC63);
   (0xC81, 0xC81); (0xCBC, 0xCBC); (0xCBF, 0xCBF); (0xCC6, 0xCC6); (0xCCC, 0xCCD);
   (0xCE2, 0xCE3); (0xD00, 0xD01); (0xD3B, 0xD3C); (0xD41, 0xD44); (0xD4D, 0xD4D);
   (0xD62, 0xD63); (0xD81, 0xD81); (0xDCA, 0xDCA); (0xDD2, 0xDD4); (0xDD6, 0xDD6);
   (0xE31, 0xE31); (0xE34, 0xE3A); (0xE46, 0xE4E); (0xEB1, 0xEB1); (0xEB4, 0xEBC);
   (0xEC6, 0xEC6); (0xEC8, 0xECD); (0xF18, 0xF19); (0xF35, 0xF35); (0xF37, 0xF37);
   (0xF39, 0xF39); (0xF71, 0xF7E); (0xF80, 0xF84); (0xF86, 0xF87); (0xF8D, 0xF97);
   (0xF99, 0xFBC); (0xFC6, 0xFC6); (0x102D, 0x1030); (0x1032, 0x1037); (0x1039, 0x103A);
   (0x103D, 0x103E); (0x1058, 0x1059); (0x105E, 0x1060); (0x1071, 0x1074); (0x1082, 0x1082);
   (0x1085, 0x1086); (0x108D, 0x108D); (0x109D, 0x109D); (0x10FC, 0x10FC); (0x135D, 0x135F);
   (0x1712, 0x1714); (0x1732, 0x1733); (0x1752, 0x1753); (0x1772, 0x1773); (0x17B4, 0x17B5);
   (0x17B7, 0x17BD); (0x17C6, 0x17C6); (0x17C9, 0x17D3); (0x17D7, 0x17D7); (0x17DD, 0x17DD);
   (0x180B, 0x180F); (0x1843, 0x1843); (0x1885, 0x1886); (0x18A9, 0x18A9); (0x1920, 0x1922);
   (0x1927, 0x1928); (0x1932, 0x1932); (0x1939, 0x193B); (0x1A17, 0x1A18); (0x1A1B, 0x1A1B);
   (0x1A56, 0x1A56); (0x1A58, 0x1A5E); (0x1A60, 0x1A60); (0x1A62, 0x1A62); (0x1A65, 0x1A6C);
   (0x1A73, 0x1A7C); (0x1A7F, 0x1A7F); (0x1AA7, 0x1AA7); (0x1AB0, 0x1ACE); (0x1B00, 0x1B03);
   (0x1B34, 0x1B34); (0x1B36, 0x1B3A); (0x1B3C, 0x1B3C); (0x1B42, 0x1B42); (0x1B6B, 0x1B73);
   (0x1B80, 0x1B81); (0x1BA2, 0x1BA5); (0x1BA8, 0x1BA9); (0x1BAB, 0x1BAD); (0x1BE6, 0x1BE6);
   (0x1BE8, 0x1BE9); (0x1BED, 0x1BED); (0x1BEF, 0x1BF1); (0x1C2C, 0x1C33); (0x1C36, 0x1C37);
   (0x1C78, 0x1C7D); (0x1CD0, 0x1CD2); (0x1CD4, 0x1CE0); (0x1CE2, 0x1CE8); (0x1CED, 0x1CED);
   (0x1CF4, 0x1CF4); (0x1CF8, 0x1CF9); (0x1D2C, 0x1D6A); (0x1D78, 0x1D78); (0x1D9B, 0x1DFF);
   (0x1FBD, 0x1FBD); (0x1FBF, 0x1FC1); (0x1FCD, 0x1FCF); (0x1FDD, 0x1FDF); (0x1FED, 0x1FEF);
   (0x1FFD, 0x1FFE); (0x200B, 0x200F); (0x2018, 0x2019); (0x2024, 0x2024); (0x2027, 0x2027);
   (0x202A, 0x202E); (0x2060, 0x2064); (0x2066, 0x206F); (0x2071, 0x2071); (0x207F, 0x207F);
   (0x2090, 0x209C); (0x20D0, 0x20F0); (0x2C7C, 0x2C7D); (0x2CEF, 0x2CF1); (0x2D6F, 0x2D6F);
   (0x2D7F, 0x2D7F); (0x2DE0, 0x2DFF); (0x2E2F, 0x2E2F); (0x3005, 0x3005); (0x302A, 0x302D);
   (0x3031, 0x3035); (0x303B, 0x303B); (0x3099, 0x309E); (0x30FC, 0x30FE); (0xA015, 0xA015);
   (0xA4F8, 0xA4FD); (0xA60C, 0xA60C); (0xA66F, 0xA672); (0xA674, 0xA67D); (0xA67F, 0xA67F);
   (0xA69C, 0xA69F); (0xA6F0, 0xA6F1); (0xA700, 0xA721); (0xA770, 0xA770); (0xA788, 0xA78A);
   (0xA7F2, 0xA7F4); (0xA7F8, 0xA7F9); (0xA802, 0xA802); (0xA806, 0xA806); (0xA80B, 0xA80B);
   (0xA825, 0xA826); (0xA82C, 0xA82C); (0xA8C4, 0xA8C5); (0xA8E0, 0xA8F1); (0xA8FF, 0xA8FF);
   (0xA926, 0xA92D); (0xA947, 0xA951); (0xA980, 0xA982); (0xA9B3, 0xA9B3); (0xA9B6, 0xA9B9);
   (0xA9BC, 0xA9BD); (0xA9CF, 0xA9CF); (0xA9E5, 0xA9E6); (0xAA29, 0xAA2E); (0xAA31, 0xAA32);
   (0xAA35, 0xAA36); (0xAA43, 0xAA43); (0xAA4C, 0xAA4C); (0xAA70, 0xAA70); (0xAA7C, 0xAA7C);
   (0xAAB0, 0xAAB0); (0xAAB2, 0xAAB4); (0xAAB7, 0xAAB8); (0xAABE, 0xAABF); (0xAAC1, 0xAAC1);
   (0xAADD, 0xAADD); (0xAAEC, 0xAAED); (0xAAF3, 0xAAF4); (0xAAF6, 0xAAF6); (0xAB5B, 0xAB5F);
   (0xAB69, 0xAB6B); (0xABE5, 0xABE5); (0xABE8, 0xABE8); (0xABED, 0xABED); (0xFB1E, 0xFB1E);
   (0xFBB2, 0xFBC2); (0xFE00, 0xFE0F); (0xFE13, 0xFE13); (0xFE20, 0xFE2F); (0xFE52, 0xFE52);
   (0xFE55, 0xFE55); (0xFEFF, 0xFEFF); (0xFF07, 0xFF07); (0xFF0E, 0xFF0E); (0xFF1A, 0xFF1A);
   (0xFF3E, 0xFF3E); (0xFF40, 0xFF40); (0xFF70, 0xFF70); (0xFF9E, 0xFF9F); (0xFFE3, 0xFFE3);
   (0xFFF9, 0xFFFB); (0x101FD, 0x101FD); (0x102E0, 0x102E0); (0x10376, 0x1037A);
   (0x10780, 0x10785); (0x10787, 0x107B0); (0x107B2, 0x107BA); (0x10A01, 0x10A03);
   (0x10A05, 0x10A06); (0x10A0C, 0x10A0F); (0x10A38, 0x10A3A); (0x10A3F, 0x10A3F);
   (0x10AE5, 0x10AE6); (0x10D24, 0x10D27); (0x10EAB, 0x10EAC); (0x10F46, 0x10F50);
   (0x10F82, 0x10F85); (0x11001, 0x11001); (0x11038, 0x11046); (0x11070, 0x11070);
   (0x11073, 0x11074); (0x1107F, 0x11081); (0x110B3, 0x110B6); (0x110B9, 0x110BA);
   (0x110BD, 0x110BD); (0x110C2, 0x110C2); (0x110CD, 0x110CD); (0x11100, 0x11102);
   (0x11127, 0x1112B); (0x1112D, 0x11134); (0x11173, 0x11173); (0x11180, 0x11181);
   (0x111B6, 0x111BE); (0x111C9, 0x111CC); (0x111CF, 0x111CF); (0x1122F, 0x11231);
   (0x11234, 0x11234); (0x11236, 0x11237); (0x1123E, 0x1123E); (0x112DF, 0x112DF);
   (0x112E3, 0x112EA); (0x11300, 0x11301); (0x1133B, 0x1133C); (0x11340, 0x11340);
   (0x11366, 0x1136C); (0x11370, 0x11374); (0x11438, 0x1143F); (0x11442, 0x11444);
   (0x11446, 0x11446); (0x1145E, 0x1145E); (0x114B3, 0x114B8); (0x114BA, 0x114BA);
   (0x114BF, 0x114C0); (0x114C2, 0x114C3); (0x115B2, 0x115B5); (0x115BC, 0x115BD);
   (0x115BF, 0x115C0); (0x115DC, 0x115DD); (0x11633, 0x1163A); (0x1163D, 0x1163D);
   (0x1163F, 0x11640); (0x116AB, 0x116AB); (0x116AD, 0x116AD); (0x116B0, 0x116B5);
   (0x116B7, 0x116B7); (0x1171D, 0x1171F); (0x11722, 0x11725); (0x11727, 0x1172B);
   (0x1182F, 0x11837); (0x11839, 0x1183A); (0x1193B, 0x1193C); (0x1193E, 0x1193E);
   (0x11943, 0x11943); (0x119D4, 0x119D7); (0x119DA, 0x119DB); (0x119E0, 0x119E0);
   (0x11A01, 0x11A0A); (0x11A33, 0x11A38); (0x11A3B, 0x11A3E); (0x11A47, 0x11A47);
   (0x11A51, 0x11A56); (0x11A59, 0x11A5B); (0x11A8A, 0x11A96); (0x11A98, 0x11A99);
   (0x11C30, 0x11C36); (0x11C38, 0x11C3D); (0x11C3F, 0x11C3F); (0x11C92, 0x11CA7);
   (0x11CAA, 0x11CB0); (0x11CB2, 0x11CB3); (0x11CB5, 0x11CB6); (0x11D31, 0x11D36);
   (0x11D3A, 0x11D3A); (0x11D3C, 0x11D3D); (0x11D3F, 0x11D45); (0x11D47, 0x11D47);
   (0x11D90, 0x11D91); (0x11D95, 0x11D95); (0x11D97, 0x11D97); (0x11EF3, 0x11EF4);
   (0x13430, 0x13438); (0x16AF0, 0x16AF4); (0x16B30, 0x16B36); (0x16B40, 0x16B43);
   (0x16F4F, 0x16F4F); (0x16F8F, 0x16F9F); (0x16FE0, 0x16FE1); (0x16FE3, 0x16FE4);
   (0x1AFF0, 0x1AFF3); (0x1AFF5, 0x1AFFB); (0x1AFFD, 0x1AFFE); (0x1BC9D, 0x1BC9E);
   (0x1BCA0, 0x1BCA3); (0x1CF00, 0x1CF2D); (0x1CF30, 0x1CF46); (0x1D167, 0x1D169);
   (0x1D173, 0x1D182); (0x1D185, 0x1D18B); (0x1D1AA, 0x1D1AD); (0x1D242, 0x1D244);
   (0x1DA00, 0x1DA36); (0x1DA3B, 0x1DA6C); (0x1DA75, 0x1DA75); (0x1DA84, 0x1DA84);
   (0x1DA9B, 0x1DA9F); (0x1DAA1, 0x1DAAF); (0x1E000, 0x1E006); (0x1E008, 0x1E018);
   (0x1E01B, 0x1E021); (0x1E023, 0x1E024); (0x1E026, 0x1E02A); (0x1E130, 0x1E13D);
   (0x1E2AE, 0x1E2AE); (0x1E2EC, 0x1E2EF); (0x1E8D0, 0x1E8D6); (0x1E944, 0x1E94B);
   (0x1F3FB, 0x1F3FF); (0xE0001, 0xE0001); (0xE0020, 0xE007F); (0xE0100, 0xE01EF)]%N.

Definition cased (c : N) : bool := in_ranges cased_ranges c.
Definition case_ignorable (c : N) : bool := in_ranges case_ignorable_ranges c.

(** The first code point of [l] that is not case-ignorable is there and
    is cased. *)
Fixpoint cased_next (l : list N) : bool :=
  match l with
  | [] => false
  | c :: l' => if case_ignorable c then cased_next l' else cased c
  end.

(** [str.lower] on code points, from the left.  [before] holds the code
    points already passed, the last one first.  GREEK CAPITAL LETTER
    SIGMA becomes the final sigma when a cased letter stands before it and
    none after it, case-ignorable code points passed over on both
    sides. *)
Fixpoint lower_from (before l : list N) : list N :=
  match l with
  | [] => []
  | c :: l' =>
      (if (c =? 0x3A3)%N
       then [if cased_next before && negb (cased_next l') then 0x3C2 else 0x3C3]%N
       else lower_point c)
      ++ lower_from (c :: before) l'
  end.

Definition lower (l : list N) : list N := lower_from [] l.

End Unicode.

(** ** Python string primitives *)

Module Py.

(** Truthiness of a string: [if s:]. *)
Definition truthy (s : text) : bool :=
  match s with [] => false | _ :: _ => true end.

(** [a or b] on strings. *)
Definition or_ (a b : text) : text := if truthy a then a else b.

(** [s.startswith(p)]. *)
Fixpoint startswith (p s : text) : bool :=
  match p, s with
  | [], _ => true
  | _ :: _, [] => false
  | a :: p', b :: s' => Ascii.eqb a b && startswith p' s'
  end.

(** The whitespace characters, as they stand in a text. *)
Definition whitespace : list text := Utf8.encode_point <$> Unicode.space_points.

(** The text without the characters of [ws] that it begins with.  Every
    turn removes one character, so a count of [length s] turns is never
    used up. *)
Fixpoint strip_left (ws : list text) (turns : nat) (s : text) : text :=
  match turns with
  | O => s
  | S n =>
      match find (fun w => startswith w s) ws with
      | Some w => strip_left ws n (drop (length w) s)
      | None => s
      end
  end.

(** [s.lstrip()]. *)
Definition lstrip (s : text) : text := strip_left whitespace (length s) s.

(** [s.rstrip()]: the same from the other end. *)
Definition rstrip (s : text) : text :=
  reverse (strip_left (reverse <$> whitespace) (length s) (reverse s)).

(** [s.strip()]. *)
Definition strip (s : text) : text := rstrip (lstrip s).

(** [s.lower()]. *)
Definition lower (s : text) : text :=
  Utf8.encode (Unicode.lower (Utf8.decode s)).

(** [s.replace(old, new)] for a non-empty [old] (every call site of the
    program passes a non-empty literal): the occurrences of [old] are
    taken from the left and do not overlap.  [skip] counts the characters
    of the occurrence just replaced that are still to be passed. *)
Fixpoint replace_from (old new : text) (skip : nat) (s : text) : text :=
  match s with
  | [] => []
  | c :: s' =>
      match skip with
      | S k => replace_from old new k s'
      | O =>
          if startswith old s
          then new ++ replace_from old new (length old - 1) s'
          else c :: replace_from old new 0 s'
      end
  end.

Definition replace (old new s : text) : text := replace_from old new 0 s.

(** [s.split(sep)] for a one-character separator: always at least one
    piece. *)
Fixpoint split (sep : ascii) (s : text) : list text :=
  match s with
  | [] => [[]]
  | c :: s' =>
      if Ascii.eqb c sep then [] :: split sep s'
      else match split sep s' with
           | [] => [[c]]
           | p :: ps => (c :: p) :: ps
           end
  end.

(** [s.split(sep, 1)]: at most one cut, at the first separator. *)
Fixpoint split1 (sep : ascii) (s : text) : list text :=
  match s with
  | [] => [[]]
  | c :: s' =>
      if Ascii.eqb c sep then [[]; s']
      else match split1 sep s' with
           | p :: ps => (c :: p) :: ps
           | [] => [[c]]
           end
  end.

(** [sep.join(parts)]. *)
Fixpoint join (sep : text) (parts : list text) : text :=
  match parts with
  | [] => []
  | [p] => p
  | p :: ps => p ++ sep ++ join sep ps
  end.

(** [str(n)] for a non-negative integer. *)
Definition str_of_nat (n : nat) : text :=
  list_ascii_of_string (NilEmpty.string_of_uint (Nat.to_uint n)).

End Py.

(** ** html.escape *)

(** [html.escape(s, quote=True)] of the standard library: five replacements
    in a row, the ampersand first. *)
Definition html_escape (s : text) : text :=
  let s := Py.replace "&" "&amp;" s in
  let s := Py.replace "<" "&lt;" s in
  let s := Py.replace ">" "&gt;" s in
  let s := Py.replace "`" "&quot;" s in
  let s := Py.replace "'" "&#x27;" s in
  s.

(** [esc(s)]: [html.escape(s or "", quote=True)]. *)
Definition esc (s : text) : text := html_escape (Py.or_ s []).

(** ** The two regular expressions of [fmt]

    [re.sub] scans the text from the left; at each position it tries the
    pattern, on success writes the replacement and goes on after the match,
    otherwise copies one character.  A look-behind sees the character before
    the position in the text that is searched, also when that character
    belongs to the previous match. *)

Module Re.

(** The lazy group [(.+?)] followed by a closing test.  [.] is any
    character but the line feed.  [closes prev rest] is the rest of the
    pattern tried at [rest], [prev] being the last character of the group.
    The group grows one character at a time and stops at the first
    position where the closing test succeeds. *)
Fixpoint lazy_group (closes : ascii -> text -> bool) (s : text) : option text :=
  match s with
  | [] => None
  | c :: s' =>
      if Ascii.eqb c nl then None
      else if closes c s' then Some [c]
      else match lazy_group closes s' with
           | Some g => Some (c :: g)
           | None => None
           end
  end.

(** The closing [mm] of [mm(.+?)mm]. *)
Definition closes_double (m : ascii) (_ : ascii) (rest : text) : bool :=
  match rest with
  | a :: b :: _ => Ascii.eqb a m && Ascii.eqb b m
  | _ => false
  end.

(** The closing [(?<!m)m(?!m)]. *)
Definition closes_single (m : ascii) (prev : ascii) (rest : text) : bool :=
  negb (Ascii.eqb prev m) &&
  match rest with
  | a :: rest' =>
      Ascii.eqb a m &&
      match rest' with
      | b :: _ => negb (Ascii.eqb b m)
      | [] => true
      end
  | [] => false
  end.

(** A pattern tried at one position: [prev] is the character before the
    position; the result is the group and the length of the whole match. *)
Definition matcher := option ascii -> text -> option (text * nat).

(** [mm(.+?)mm], that is [\*\*(.+?)\*\*] for [m = *] and [__(.+?)__]
    for [m = _]. *)
Definition double_marker (m : ascii) : matcher := fun _ s =>
  match s with
  | a :: b :: rest =>
      if Ascii.eqb a m && Ascii.eqb b m then
        match lazy_group (closes_double m) rest with
        | Some g => Some (g, length g + 4)
        | None => None
        end
      else None
  | _ => None
  end.

(** [(?<!m)m(?!m)(.+?)(?<!m)m(?!m)]. *)
Definition single_marker (m : ascii) : matcher := fun prev s =>
  match s with
  | a :: rest =>
      if Ascii.eqb a m
         && match prev with Some p => negb (Ascii.eqb p m) | None => true end
         && match rest with b :: _ => negb (Ascii.eqb b m) | [] => true end
      then
        match lazy_group (closes_single m) rest with
        | Some g => Some (g, length g + 2)
        | None => None
        end
      else None
  | [] => None
  end.

(** [re.sub(pattern, repl, s)], [repl] given as a function of group 1. *)
Fixpoint sub_from (p : matcher) (repl : text -> text)
    (skip : nat) (prev : option ascii) (s : text) : text :=
  match s with
  | [] => []
  | c :: s' =>
      match skip with
      | S k => sub_from p repl k (Some c) s'
      | O =>
          match p prev s with
          | Some (g, len) => repl g ++ sub_from p repl (len - 1) (Some c) s'
          | None => c :: sub_from p repl 0 (Some c) s'
          end
      end
  end.

Definition sub (p : matcher) (repl : text -> text) (s : text) : text :=
  sub_from p repl 0 None s.

End Re.

Definition star : ascii := ascii_of_nat 42.
Definition underscore : ascii := ascii_of_nat 95.

Definition strong_repl (g : text) : text := "<strong>" ++ g ++ "</strong>".
Definition em_repl (g : text) : text := "<em>" ++ g ++ "</em>".

(** [fmt(s)]: escape first, then the four emphasis rules, then the eight
    replacements that give the four whitelisted tags back. *)
Definition fmt (s : text) : text :=
  let t := esc (Py.or_ s []) in
  let t := Re.sub (Re.double_marker star) strong_repl t in
  let t := Re.sub (Re.double_marker underscore) strong_repl t in
  let t := Re.sub (Re.single_marker star) em_repl t in
  let t := Re.sub (Re.single_marker underscore) em_repl t in
  let t := Py.replace "&lt;em&gt;" "<em>" t in
  let t := Py.replace "&lt;/em&gt;" "</em>" t in
  let t := Py.replace "&lt;i&gt;" "<em>" t in
  let t := Py.replace "&lt;/i&gt;" "</em>" t in
  let t := Py.replace "&lt;strong&gt;" "<strong>" t in
  let t := Py.replace "&lt;/strong&gt;" "</strong>" t in
  let t := Py.replace "&lt;b&gt;" "<strong>" t in
  let t := Py.replace "&lt;/b&gt;" "</strong>" t in
  t.

(** ** Rendering one record *)

(** A record after [read_rows]: a dictionary from column name to value. *)
Abbreviation row := (gmap text text).

(** [row.get(k, d)]. *)
Definition getd (r : row) (k d : text) : text := default d (r !! k).

(** [row.get(k) or d]. *)
Definition get_or (r : row) (k d : text) : text :=
  match r !! k with
  | Some v => Py.or_ v d
  | None => d
  end.

Definition ICON_COMMENT : text :=
  "<svg class=`i` viewBox=`0 0 24 24` fill=`none` stroke=`currentColor` "
  ++ "stroke-width=`2` stroke-linecap=`round` stroke-linejoin=`round` aria-hidden=`true`>"
  ++ "<path d=`M21 15a2 2 0 0 1-2 2H8l-4 4v-4H5a2 2 0 0 1-2-2V5a2 2 0 0 1 2-2h14a2 2 0 0 1 2 2z`/></svg>".

Definition ICON_STATUS : text :=
  "<svg class=`i` viewBox=`0 0 24 24` fill=`none` stroke=`currentColor` stroke-width=`2` stroke-linecap=`round` stroke-linejoin=`round` aria-hidden=`true`><path d=`M12 20l9-5-9-5-9 5 9 5z`/><path d=`M12 12l9-5-9-5-9 5 9 5z`/></svg>".

Definition ICON_YEAR : text :=
  "<svg class=`i` viewBox=`0 0 24 24` fill=`none` stroke=`currentColor` stroke-width=`2` stroke-linecap=`round` stroke-linejoin=`round` aria-hidden=`true`><circle cx=`12` cy=`12` r=`10`/><path d=`M12 6v6l4 2`/></svg>".

(** [pills(status, year, venue)]. *)
Definition pills (status year venue : text) : text :=
  let out := [] in
  let out := if Py.truthy status
    then out ++ ["<span class=`pill` title=`Status`>" ++ ICON_STATUS ++ " " ++ esc status ++ "</span>"]
    else out in
  let out := if Py.truthy year
    then out ++ ["<span class=`pill` title=`Year`>" ++ ICON_YEAR ++ " " ++ esc year ++ "</span>"]
    else out in
  let out := if Py.truthy venue
    then out ++ ["<span class=`pill` title=`Venue`>" ++ esc venue ++ "</span>"]
    else out in
  Py.join (nl :: "          ") out.

(** The "Paper" button of [links]; the label is [paper_label], "Paper"
    when that is missing or blank. *)
Definition paper_part (r : row) : list text :=
  match r !! ("paper_url" : text) with
  | Some url =>
      if Py.truthy url then
        let paper_label := Py.or_ (Py.strip (get_or r "paper_label" "Paper")) "Paper" in
        ["<a class=`btn` href=`" ++ esc url ++ "` itemprop=`url`>" ++ esc paper_label ++ "</a>"]
      else []
  | None => []
  end.

Definition slides_part (r : row) : list text :=
  match r !! ("slides_url" : text) with
  | Some url =>
      if Py.truthy url then ["<a class=`btn` href=`" ++ esc url ++ "`>Slides</a>"] else []
  | None => []
  end.

Definition doi_part (r : row) : list text :=
  match r !! ("doi_url" : text) with
  | Some url =>
      if Py.truthy url then ["<a class=`btn` href=`" ++ esc url ++ "`>DOI</a>"] else []
  | None => []
  end.

(** [esc(row["bibtex"]).replace("&amp;#10;", "&#10;")]. *)
Definition cite_body (bibtex : text) : text :=
  Py.replace "&amp;#10;" "&#10;" (esc bibtex).

Definition cite_part (r : row) : list text :=
  match r !! ("bibtex" : text) with
  | Some bibtex =>
      if Py.truthy bibtex then
        let cite := cite_body bibtex in
        ["<details class=`tool cite`>"
         ++ "<summary class=`btn` aria-label=`Cite this paper`>"
         ++ "<svg class=`i` viewBox=`0 0 24 24` fill=`none` stroke=`currentColor` stroke-width=`2` stroke-linecap=`round` stroke-linejoin=`round`><path d=`M14 2H6a2 2 0 0 0-2 2v16l4-4h6a2 2 0 0 0 2-2V4a2 2 0 0 0-2-2z`/></svg>"
         ++ "<span>Cite</span></summary>"
         ++ "<div class=`dropdown cite-body`><pre><code>" ++ cite ++ "</code></pre></div>"
         ++ "</details>"]
      else []
  | None => []
  end.

(** [label, url = (item.split("|", 1) + [""])[:2]], both stripped.  The
    slice always has two elements ([label_url_unpacks] below), so the last
    branch is never taken. *)
Definition label_url (item : text) : text * text :=
  match take 2 (Py.split1 "|" item ++ [[]]) with
  | [label; url] => (Py.strip label, Py.strip url)
  | _ => ([], [])
  end.

(** One turn of the loop over [media_raw.split(";")]. *)
Definition media_pill (item : text) : list text :=
  let '(label, url) := label_url item in
  if negb (Py.truthy label) then []
  else if Py.truthy url
    then ["<a class=`media-pill` href=`" ++ esc url ++ "` rel=`noopener`>" ++ esc label ++ "</a>"]
    else ["<span class=`media-pill`>" ++ esc label ++ "</span>"].

Definition pills_html (media_raw : text) : list text :=
  flat_map media_pill (Py.split ";" media_raw).

Definition media_part (r : row) : list text :=
  let media_raw := Py.strip (get_or r "media" []) in
  if Py.truthy media_raw then
    ["<details class=`tool media`>"
     ++ "<summary class=`btn` aria-label=`Media coverage`>"
     ++ "<svg class=`i` viewBox=`0 0 24 24` fill=`none` stroke=`currentColor` stroke-width=`2` stroke-linecap=`round` stroke-linejoin=`round`><path d=`M19 21H5a2 2 0 0 1-2-2V7a2 2 0 0 1 2-2h10l6 6v8a2 2 0 0 1-2 2z`/></svg>"
     ++ "<span>Media</span></summary>"
     ++ "<div class=`dropdown`><div class=`media-list`>"
     ++ Py.join [] (pills_html media_raw)
     ++ "</div></div></details>"]
  else [].

(** [links(row)]: [parts] grows by [append] in the order of the source. *)
Definition links (r : row) : text :=
  let parts := [("<div class=`links`>" : text)] in
  let parts := parts ++ paper_part r in
  let parts := parts ++ slides_part r in
  let parts := parts ++ doi_part r in
  let parts := parts ++ cite_part r in
  let parts := parts ++ media_part r in
  let parts := parts ++ [("</div>" : text)] in
  Py.join (nl :: "            ") parts.

(** The authorship line of [article]. *)
Definition authors_html (r : row) : text :=
  let authors := Py.strip (get_or r "authors" []) in
  if negb (Py.truthy authors) || bool_decide (Py.lower authors = "solo")
  then "solo"
  else "with " ++ esc authors.

Definition comment_html (r : row) : text :=
  let comment := Py.strip (get_or r "comment" []) in
  if Py.truthy comment then
    "
        <div class=`comment`>" ++ ICON_COMMENT ++ " " ++ esc comment ++ "</div>
    "
  else [].

Definition abstract_html (r : row) : text :=
  let abstract := Py.strip (Py.replace [cr; nl] [nl] (get_or r "abstract" [])) in
  if Py.truthy abstract then
    "
        <details class=`abstract`>
          <summary><svg class=`chev` viewBox=`0 0 24 24` fill=`none` stroke=`currentColor` stroke-width=`2` stroke-linecap=`round` stroke-linejoin=`round`><path d=`M9 18l6-6-6-6`/></svg> Show abstract</summary>
          <div class=`abs-body` itemprop=`description`>" ++ fmt abstract ++ "</div>
        </details>"
  else [].

(** [article(row)]. *)
Definition article (r : row) : text :=
  let title := esc (getd r "title" []) in
  "
      <article class=`paper` itemscope itemtype=`https://schema.org/ScholarlyArticle`>
        <div class=`title-row`>
          <h3 class=`title` itemprop=`headline`>" ++ title ++ "</h3>
          " ++ links r ++ "
        </div>
        <div class=`meta`>
          " ++ pills (getd r "status" []) (getd r "year" []) (getd r "venue" []) ++ "
        </div>
        <div class=`authors`>" ++ authors_html r ++ "</div>
        " ++ comment_html r ++ "
        " ++ abstract_html r ++ "
      </article>".

(** [normalize_section(s)]. *)
Definition normalize_section (s : text) : text :=
  let s := Py.lower (Py.strip (Py.or_ s [])) in
  if Py.startswith "jour" s then "journal"
  else if Py.startswith "work" s then "working"
  else if Py.startswith "conf" s then "conference"
  else "other".

(** ** Exceptions *)

(** The exceptions that the code of the program can raise once the file
    has been read into records: a method missing on [None] or on a list,
    and a key missing in a dictionary.  Decoding the file and parsing it
    into records is the work of the library and lies before this model;
    when it fails, it fails inside [read_rows], before the page is
    opened. *)
Inductive exn := AttributeError | KeyError.

Inductive result (A : Type) :=
  | Ok (a : A)
  | Raise (e : exn).
Arguments Ok {A} a.
Arguments Raise {A} e.

#[export] Instance result_bind : MBind result := fun A B f x =>
  match x with
  | Ok a => f a
  | Raise e => Raise e
  end.

(** A loop that stops at the first exception. *)
Fixpoint for_each {A B} (f : A -> result B) (l : list A) : result (list B) :=
  match l with
  | [] => Ok []
  | a :: l' => b ← f a; bs ← for_each f l'; Ok (b :: bs)
  end.

(** A loop that threads a state and stops at the first exception. *)
Fixpoint fold_each {A S} (f : S -> A -> result S) (s : S) (l : list A) : result S :=
  match l with
  | [] => Ok s
  | a :: l' => s' ← f s a; fold_each f s' l'
  end.

(** ** Reading the table *)

(** The file is modelled by what [csv.reader] yields for it: the list of
    its records, each a list of cells; the first record is the header.
    A value of the dictionaries of [csv.DictReader] is a cell, [None] (the
    filler of a short record) or a list of cells (the surplus of a long
    record). *)
Inductive pyval :=
  | VNone
  | VStr (s : text)
  | VList (l : list text).

(** [d[k] = v] on a dictionary that keeps insertion order. *)
Fixpoint dict_set {K V} `{EqDecision K} (k : K) (v : V) (d : list (K * V)) : list (K * V) :=
  match d with
  | [] => [(k, v)]
  | (k', v') :: d' =>
      if decide (k' = k) then (k, v) :: d' else (k', v') :: dict_set k v d'
  end.

(** One dictionary of [csv.DictReader] (standard library, [restkey] and
    [restval] left at [None]): [dict(zip(fieldnames, row))]; the surplus
    cells of a long record go under the key [None]; the missing cells of a
    short record are [None]. *)
Definition DictReader_row (fieldnames record : list text) : list (option text * pyval) :=
  let d := foldl (fun d kv => dict_set (Some kv.1) (VStr kv.2) d) [] (zip fieldnames record) in
  let lf := length fieldnames in
  let lr := length record in
  if Nat.ltb lf lr then dict_set None (VList (drop lf record)) d
  else if Nat.ltb lr lf then
    foldl (fun d key => dict_set (Some key) VNone d) d (drop lr fieldnames)
  else d.

(** [csv.DictReader(f)]: the first record gives the field names, empty
    records are passed over. *)
Definition DictReader (table : list (list text)) : list (list (option text * pyval)) :=
  match table with
  | [] => []
  | fieldnames :: records =>
      map (DictReader_row fieldnames)
          (filter (fun record => record <> []) records)
  end.

(** [k.strip(): (v or "").strip()] for one item; [None] and a list have
    no [strip]. *)
Definition strip_item (kv : option text * pyval) : result (text * text) :=
  match kv.1 with
  | None => Raise AttributeError
  | Some k =>
      match kv.2 with
      | VNone => Ok (Py.strip k, Py.strip [])
      | VStr s => Ok (Py.strip k, Py.strip (Py.or_ s []))
      | VList [] => Ok (Py.strip k, Py.strip [])
      | VList (_ :: _) => Raise AttributeError
      end
  end.

(** The dictionary comprehension of [read_rows]. *)
Definition strip_dict (r : list (option text * pyval)) : result row :=
  items ← for_each strip_item r;
  Ok (foldl (fun (m : row) kv => <[kv.1 := kv.2]> m) ∅ items).

(** [read_rows(csv_path)], given the records of the file. *)
Definition read_rows (table : list (list text)) : result (list row) :=
  for_each strip_dict (DictReader table).

(** ** The page *)

Definition SHELL_style_1 : text :=
  "<!DOCTYPE html>
<html lang=`en`>
<head>
  <meta charset=`utf-8` />
  <meta name=`viewport` content=`width=device-width, initial-scale=1` />
  <title>Publications — Francisco Castro</title>
  <style>
    :root{
      --accent:#0ea5e9; --text:#111827; --muted:#6b7280; --bg:#ffffff; --card:#f9fafb; --radius:12px;
      --profile-img:url('./assets/me.jpg');
    }
    @media (prefers-color-scheme: dark){ :root{ --text:#e5e7eb; --muted:#9ca3af; --bg:#0b1020; --card:#0f172a; --accent:#38bdf8 } }
    *{box-sizing:border-box}
    html,body{margin:0; padding:0; background:var(--bg); color:var(--text); font:15px/1.5 -apple-system,BlinkMacSystemFont,Segoe UI,Roboto,Inter,Helvetica,Arial}
    a{color:var(--accent); text-decoration:none}
    a:hover{text-decoration:underline}

    .wrap{max-width:860px; margin:40px auto; padding:0 18px}
    header{display:flex; align-items:center; justify-content:space-between; margin-bottom:22px}
    .site-title{font-weight:700; font-size:20px}
    nav{display:flex; gap:16px}

    /* Section header + toggle (collapsible) */
    h2{
      margin:24px 0 10px; font-size:22px; line-height:1.2;
      padding-left:8px; border-left:4px solid var(--accent);
      display:flex; align-items:center; gap:10px;
    }
    h2 .toggle{
      appearance:none; background:none; border:0; padding:0; margin:0;
      font:inherit; color:inherit; cursor:pointer; display:inline-flex; align-items:center; gap:8px;
    }
    .caret{ width:14px; height:14px; transition: transform .2s ease; }
    .pub-sec.collapsed .paper-list{ display:none; }
    .pub-sec.collapsed h2 .caret{ transform: rotate(-90deg); }

    .subtle{color:var(--muted)}

    :root{ /* Section accent colors */
      --accent-journal: var(--accent);
      --accent-conference: #6366f1; /* indigo */
      --accent-working: #f59e0b;    /* amber */
      --accent-other: #64748b;      /* slate */
    }

".

Definition SHELL_style_2 : text :=
  "    /* --- Single-column compact list --- */
    .paper-list{display:block; counter-reset: paper}
    .paper{position:relative; padding:10px 12px 8px 40px; margin:8px 0; border-left:3px solid var(--accent); background:transparent; border-radius:0}
    .paper::before{counter-increment: paper; content: counter(paper); position:absolute; left:8px; top:10px; width:20px; height:20px; border-radius:999px; display:grid; place-items:center; font-weight:700; font-size:12px; color:var(--text); background:var(--card); border:1px solid rgba(0,0,0,.12)}
    @media (prefers-color-scheme: dark){ .paper::before{border-color:rgba(255,255,255,.18)} }
    .paper + .paper{border-top:1px solid rgba(0,0,0,.06)}
    @media (prefers-color-scheme: dark){ .paper + .paper{border-color:rgba(255,255,255,.08)} }

    /* Per-section accent overrides */
    #journal{ border-left-color: var(--accent-journal) }
    #journal-papers .paper{ border-left-color: var(--accent-journal) }

    #working{ border-left-color: var(--accent-working) }
    #working-papers .paper{ border-left-color: var(--accent-working) }

    #conference{ border-left-color: var(--accent-conference) }
    #conf-papers .paper{ border-left-color: var(--accent-conference) }

    #other{ border-left-color: var(--accent-other) }
    #other-articles .paper{ border-left-color: var(--accent-other) }

    .title-row{display:flex; align-items:start; gap:10px}
    .title{font-size:16.5px; font-weight:650; margin:0; line-height:1.25; flex:1}

    .links{display:flex; gap:6px; flex-wrap:wrap; align-items:center; position:relative}
    .btn{display:inline-flex; align-items:center; gap:6px; padding:3px 7px; border-radius:9px; font-size:12px; border:1px solid rgba(0,0,0,.10); background:#fff0}
    @media (prefers-color-scheme: dark){ .btn{border-color:rgba(255,255,255,.15)} }

    .meta{display:flex; flex-wrap:wrap; gap:8px; margin:4px 0 0 0; font-size:12.5px; color:var(--muted)}
    .authors{margin:2px 0 0 0; font-size:12.5px; color:var(--muted)}

    /* Pill + icon alignment */
    .pill{
      display:inline-flex; align-items:center; gap:6px;
      padding:2px 8px; line-height:1; border-radius:999px;
      border:1px solid rgba(0,0,0,.10);
    }
    @media (prefers-color-scheme: dark){ .pill{border-color:rgba(255,255,255,.18)} }
    .i{width:14px; height:14px; display:inline-block; flex:0 0 auto; vertical-align:middle; transform:translateY(.5px)}

    /* Comment line */
    .comment{margin:4px 0 0; font-size:12.5px; color:var(--muted); display:flex; align-items:center; gap:6px}
    .comment .i{width:14px; height:14px}

".

Definition SHELL_style_3 : text :=
  "    /* Abstract */
    details.abstract{margin-top:6px}
    details.abstract summary{
      list-style:none; cursor:pointer; display:inline-flex; align-items:center; gap:8px;
      user-select:none; color:var(--accent); font-weight:500; font-size:12.5px;
    }
    details.abstract summary::-webkit-details-marker{display:none}
    .chev{width:12px; height:12px; transition:transform .2s ease}
    details[open] .chev{transform: rotate(90deg)}
    .abs-body{margin:6px 0 0; font-size:13px}

    /* Masthead */
    .masthead{display:flex; align-items:center; gap:12px; padding:10px 0 8px; border-bottom:1px solid rgba(0,0,0,.06); margin-bottom:8px}
    @media (prefers-color-scheme: dark){ .masthead{border-color:rgba(255,255,255,.08)} }
    .avatar{width:56px; height:56px; border-radius:999px; background:var(--profile-img) center/cover no-repeat; border:1px solid rgba(0,0,0,.12)}
    @media (prefers-color-scheme: dark){ .avatar{border-color:rgba(255,255,255,.18)} }
    .page-title{margin:0; font-size:18px; font-weight:750}
    .page-subtle{margin:2px 0 0 0; color:var(--muted); font-size:13.5px}
    .head-actions{display:none} /* old 'Show all abstracts' hidden */

    /* Subnav */
    .subnav{position:sticky; top:0; background:var(--bg); z-index:5; border-bottom:1px solid rgba(0,0,0,.06); padding:8px 0; margin:6px 0 12px}
    @media (prefers-color-scheme: dark){ .subnav{border-color:rgba(255,255,255,.08)} }
    .subnav-inner{display:flex; align-items:center; gap:12px; flex-wrap:wrap}
    .subnav-name{font-weight:700; color:var(--text)}
    .subnav-links{display:flex; gap:6px; flex-wrap:wrap}
    .subnav a{display:inline-block; padding:4px 8px; border-radius:8px; font-size:13px; color:var(--muted); border:1px solid transparent}
    .subnav a:hover{border-color:rgba(0,0,0,.10); text-decoration:none}
    .subnav a.active{color:var(--text); border-color:rgba(0,0,0,.10); background:rgba(0,0,0,.03)}
    @media (prefers-color-scheme: dark){ .subnav a.active{background:rgba(255,255,255,.06); border-color:rgba(255,255,255,.18)} }
    h2{scroll-margin-top:60px}

".

Definition SHELL_style_4 : text :=
  "    /* Cite/Media dropdowns */
    details.cite, details.media{margin-top:6px}
    details.cite summary, details.media summary{list-style:none; cursor:pointer; display:inline-flex; align-items:center; gap:6px; user-select:none; color:var(--accent); font-weight:500}
    details.cite summary::-webkit-details-marker, details.media summary::-webkit-details-marker{display:none}
    .cite-body{margin:6px 0 0; font-size:12.5px; background:var(--card); border-radius:8px; padding:8px 10px; overflow:auto}
    .media-list{display:flex; flex-wrap:wrap; gap:6px; margin-top:6px}
    .media-pill{display:inline-flex; align-items:center; gap:6px; font-size:12px; border:1px solid rgba(0,0,0,.10); padding:3px 7px; border-radius:999px; background:#fff0}

    /* Inline tools */
    .links details.tool{position:relative; display:inline-block}
    .links details.tool summary{padding:4px; border-radius:8px; border:1px solid rgba(0,0,0,.10)}
    @media (prefers-color-scheme: dark){ .links details.tool summary{border-color:rgba(255,255,255,.15)} }
    .links details.tool .dropdown{display:none; position:absolute; right:0; top:calc(100% + 6px); min-width:320px; max-width:520px; background:var(--card); border:1px solid rgba(0,0,0,.1); border-radius:10px; padding:8px 10px; box-shadow:0 6px 24px rgba(0,0,0,.08); z-index:20}
    @media (prefers-color-scheme: dark){ .links details.tool .dropdown{border-color:rgba(255,255,255,.15)} }
    .links details.tool[open] .dropdown{display:block}
    .links details.cite, .links details.media{margin-top:0}
    .links .tool .i{width:16px; height:16px}

    /* Dropdown positioning helpers */
    .links details.tool.align-left .dropdown{right:auto; left:0}
    .links details.tool.full .dropdown{left:0; right:0; width:auto; max-width:none}

    /* Copy BibTeX button */
    .copy-row{display:flex; justify-content:flex-end; margin-bottom:6px}
    .copy-btn{display:inline-flex; align-items:center; gap:6px; padding:3px 8px; border-radius:8px; font-size:12px; border:1px solid rgba(0,0,0,.10); background:#fff0; cursor:pointer}
    .copy-btn:hover{transform:translateY(-1px)}
  </style>
".

Definition SHELL_top : text :=
  "  <script>
    window.MathJax = {
      tex: { inlineMath: [['$','$'], ['\\(','\\)']], displayMath: [['$$','$$'], ['\\[','\\]']], processEscapes: true },
      options: { skipHtmlTags: ['script','noscript','style','textarea','pre','code'] }
    };
  </script>
  <script async src=`https://cdn.jsdelivr.net/npm/mathjax@3/es5/tex-chtml.js`></script>
</head>
<body>
  <div class=`wrap`>
    <header>
      <div class=`site-title`>Francisco Castro</div>
      <nav>
        <a href=`./index.html`>Home</a>
        <a href=`./publications.html` aria-current=`page`>Publications</a>
        <a href=`./teaching.html`>Teaching</a>
        <a href=`./cv.html`>CV</a>
      </nav>
    </header>

    <section class=`masthead` role=`region` aria-label=`Page header`>
      <div class=`avatar` aria-hidden=`true`></div>
      <div>
        <h1 class=`page-title`>Publications</h1>
        <p class=`page-subtle`>Browse my research: journal papers, conference proceedings, and working papers.</p>
      </div>
    </section>

    <nav class=`subnav` aria-label=`Publications sections`>
      <div class=`subnav-inner`>
        <div class=`subnav-links`>
          <a href=`#journal`>Journal Papers</a>
          <a href=`#conference`>Conference Proceedings</a>
          <a href=`#working`>Working Papers</a>
          <a href=`#other`>Other Articles</a>
        </div>
      </div>
    </nav>

".

Definition SHELL_sections : text :=
  "    <section class=`pub-sec` data-sec=`journal`>
      <h2 id=`journal`>
        <button class=`toggle` aria-expanded=`true` aria-controls=`journal-papers`>
          <svg class=`caret` viewBox=`0 0 24 24` fill=`none` stroke=`currentColor` stroke-width=`2`
               stroke-linecap=`round` stroke-linejoin=`round` aria-hidden=`true`>
            <path d=`M6 9l6 6 6-6`/>
          </svg>
          Journal Papers
        </button>
      </h2>
      <div class=`paper-list` id=`journal-papers`>
{{JOURNAL_ITEMS}}
      </div>
    </section>



    <section class=`pub-sec` data-sec=`conference`>
      <h2 id=`conference`>
        <button class=`toggle` aria-expanded=`true` aria-controls=`conf-papers`>
          <svg class=`caret` viewBox=`0 0 24 24` fill=`none` stroke=`currentColor` stroke-width=`2`
               stroke-linecap=`round` stroke-linejoin=`round` aria-hidden=`true`>
            <path d=`M6 9l6 6 6-6`/>
          </svg>
          Conference Proceedings
        </button>
      </h2>
      <div class=`paper-list` id=`conf-papers`>
{{CONF_ITEMS}}
      </div>
    </section>

    <section class=`pub-sec` data-sec=`working`>
      <h2 id=`working`>
        <button class=`toggle` aria-expanded=`true` aria-controls=`working-papers`>
          <svg class=`caret` viewBox=`0 0 24 24` fill=`none` stroke=`currentColor` stroke-width=`2`
               stroke-linecap=`round` stroke-linejoin=`round` aria-hidden=`true`>
            <path d=`M6 9l6 6 6-6`/>
          </svg>
          Working Papers
        </button>
      </h2>
      <div class=`paper-list` id=`working-papers`>
{{WORKING_ITEMS}}
      </div>
    </section>

    <section class=`pub-sec` data-sec=`other`>
      <h2 id=`other`>
        <button class=`toggle` aria-expanded=`true` aria-controls=`other-articles`>
          <svg class=`caret` viewBox=`0 0 24 24` fill=`none` stroke=`currentColor` stroke-width=`2`
               stroke-linecap=`round` stroke-linejoin=`round` aria-hidden=`true`>
            <path d=`M6 9l6 6 6-6`/>
          </svg>
          Other Articles
        </button>
      </h2>
      <div class=`paper-list` id=`other-articles`>
{{OTHER_ITEMS}}
      </div>
    </section>

".

Definition SHELL_script_1 : text :=
  "  </div>

  <script>
    // Highlight current section in subnav as you scroll
    (function(){
      const ids = ['journal','conference','working','other'];
      const linkFor = id => document.querySelector('.subnav a[href=`#'+id+'`]');
      const links = new Map(ids.map(id => [id, linkFor(id)]));
      const obs = new IntersectionObserver((entries)=>{
        entries.forEach(e => {
          if (e.isIntersecting) {
            links.forEach(a => a && a.classList.remove('active'));
            const a = links.get(e.target.id);
            if (a) a.classList.add('active');
          }
        });
      }, { rootMargin: '-55% 0px -40% 0px', threshold: 0.01 });
      ids.forEach(id => { const el = document.getElementById(id); if (el) obs.observe(el); });
    })();
  </script>
  <script>
    // Close Cite/Media dropdowns when clicking outside or pressing Esc
    (function(){
      function closeAllExcept(target){
        document.querySelectorAll('.links details.tool[open]').forEach(d => {
          if (!target || !d.contains(target)) d.removeAttribute('open');
        });
      }
      document.addEventListener('click', function(e){ closeAllExcept(e.target); });
      document.addEventListener('keydown', function(e){ if (e.key === 'Escape') closeAllExcept(null); });
    })();
  </script>
".

Definition SHELL_script_2 : text :=
  "  <script>
    (function(){
      // Media (n) badge
      document.querySelectorAll('.links details.media').forEach(function(det){
        var count = det.querySelectorAll('.media-list a').length;
        var label = det.querySelector('summary span');
        if (label) { label.textContent = count ? 'Media ('+count+')' : 'Media'; }
      });

      // Copy BibTeX button
      document.querySelectorAll('.links details.cite').forEach(function(det){
        var drop = det.querySelector('.dropdown'); if (!drop) return;
        if (!drop.querySelector('.copy-row')){
          var row = document.createElement('div'); row.className='copy-row';
          var btn = document.createElement('button'); btn.type='button'; btn.className='copy-btn'; btn.textContent='Copy';
          row.appendChild(btn); drop.insertBefore(row, drop.firstChild);
          btn.addEventListener('click', function(){
            var pre = drop.querySelector('pre'); var txt = pre ? pre.innerText : '';
            if (navigator.clipboard && navigator.clipboard.writeText){
              navigator.clipboard.writeText(txt).then(function(){ var prev=btn.textContent; btn.textContent='Copied!'; setTimeout(function(){ btn.textContent=prev;}, 1200); });
            }
          });
        }
      });

      // Smarter overlay positioning on open
      function positionDropdown(det){
        det.classList.remove('align-left','full');
        var drop = det.querySelector('.dropdown'); if (!drop) return;
        var rect = drop.getBoundingClientRect();
        var vw = Math.max(document.documentElement.clientWidth, window.innerWidth || 0);
        if (rect.right > vw - 8) det.classList.add('align-left');
        if (rect.width > vw * 0.92 || vw < 500) det.classList.add('full');
      }
      document.querySelectorAll('.links details.tool').forEach(function(det){
        det.addEventListener('toggle', function(){ if (det.open) positionDropdown(det); });
      });
      window.addEventListener('resize', function(){
        document.querySelectorAll('.links details.tool[open]').forEach(positionDropdown);
      });
    })();
  </script>
".

Definition SHELL_script_3 : text :=
  "  <script>
    // Collapsible sections (expanded by default)
    (function(){
      document.querySelectorAll('.pub-sec').forEach(function(sec){
        var btn  = sec.querySelector('h2 .toggle');
        var list = sec.querySelector('.paper-list');
        if (!btn || !list) return;

        // Ensure expanded on load
        sec.classList.remove('collapsed');
        list.hidden = false;
        btn.setAttribute('aria-expanded', 'true');

        btn.addEventListener('click', function(){
          var collapsed = sec.classList.toggle('collapsed');
          list.hidden = collapsed;
          btn.setAttribute('aria-expanded', String(!collapsed));
        });
      });
    })();
  </script>
</body>
</html>
".

(** [SHELL], the page with its four placeholders: the raw string of the
    source, cut into parts at line breaks. *)
Definition SHELL : text :=
  SHELL_style_1
  ++ SHELL_style_2
  ++ SHELL_style_3
  ++ SHELL_style_4
  ++ SHELL_top
  ++ SHELL_sections
  ++ SHELL_script_1
  ++ SHELL_script_2
  ++ SHELL_script_3.

(** ** The run *)

Abbreviation buckets := (gmap text (list text)).

(** [buckets[normalize_section(r.get("section",""))].append(article(r))]. *)
Definition bucket_append (b : buckets) (r : row) : result buckets :=
  let k := normalize_section (getd r "section" []) in
  match b !! k with
  | Some l => Ok (<[k := l ++ [article r]]> b)
  | None => Raise KeyError
  end.

Definition empty_buckets : buckets :=
  <[("other" : text) := []]> (<[("conference" : text) := []]>
    (<[("working" : text) := []]> (<[("journal" : text) := []]> ∅))).

(** [for k in buckets: buckets[k].reverse()]. *)
Definition reverse_all (b : buckets) : buckets := reverse <$> b.

(** The two loops of [main]: fill the buckets in the order of the rows,
    then reverse each bucket. *)
Definition fill_buckets (rows : list row) : result buckets :=
  b ← fold_each bucket_append empty_buckets rows;
  Ok (reverse_all b).

(** ["\n".join(buckets[k]) or "\n"]. *)
Definition items_of (b : buckets) (k : text) : result text :=
  match b !! k with
  | Some l => Ok (Py.or_ (Py.join [nl] l) [nl])
  | None => Raise KeyError
  end.

Definition fill_shell (b : buckets) : result text :=
  journal ← items_of b "journal";
  working ← items_of b "working";
  conference ← items_of b "conference";
  other ← items_of b "other";
  Ok (Py.replace "{{OTHER_ITEMS}}" other
       (Py.replace "{{CONF_ITEMS}}" conference
         (Py.replace "{{WORKING_ITEMS}}" working
           (Py.replace "{{JOURNAL_ITEMS}}" journal SHELL)))).

(** [sum(len(v) for v in buckets.values())]. *)
Definition count_items (b : buckets) : nat :=
  map_fold (fun _ v n => length v + n) 0 b.

(** How a run ends: [main] returns, [sys.exit] is called, or an exception
    is not caught. *)
Inductive outcome :=
  | Returned
  | Exit (status : nat)
  | Uncaught (e : exn).

(** What a run sees and changes: the two files ([None]: no such file) and
    the two output streams. *)
Record world := World {
  csv_file : option (list (list text));
  out_file : option text;
  stdout : text;
  stderr : text
}.

Section Run.

(** The directory of the script. *)
Variable HERE : text.

(** [os.path.join(HERE, name)] for a relative [name]. *)
Definition path_join (name : text) : text :=
  match last HERE with
  | None => name
  | Some c => if Ascii.eqb c "/" then HERE ++ name else HERE ++ "/" ++ name
  end.

Definition CSV_FILE : text := path_join "publications.csv".
Definition OUT_FILE : text := path_join "publications.html".

Definition summary (n : nat) : text :=
  "Wrote " ++ OUT_FILE ++ " (" ++ Py.str_of_nat n ++ " items)." ++ [nl].

Definition main (w : world) : world * outcome :=
  match csv_file w with
  | None =>
      let err := stderr w
        ++ ("ERROR: publications.csv not found next to build_publications.py" ++ [nl]) in
      let err := err ++ ("Create the CSV (see template) and run again." ++ [nl]) in
      (World (csv_file w) (out_file w) (stdout w) err, Exit 1)
  | Some table =>
      match read_rows table with
      | Raise e => (w, Uncaught e)
      | Ok rows =>
          match fill_buckets rows with
          | Raise e => (w, Uncaught e)
          | Ok b =>
              match fill_shell b with
              | Raise e => (w, Uncaught e)
              | Ok html_out =>
                  (World (csv_file w) (Some html_out)
                         (stdout w ++ summary (count_items b)) (stderr w),
                   Returned)
              end
          end
      end
  end.

End Run.

(** * What the properties are stated with *)

(** ** What the escaping claims are about *)

(** The markup-significant characters. *)
Definition markup_chars : text := "<&`'".

Definition markup_char (c : ascii) : Prop := c ∈ markup_chars.

(** What [html.escape] writes for one character. *)
Definition escape_char (c : ascii) : text :=
  if decide (c = "&"%char) then "&amp;"
  else if decide (c = "<"%char) then "&lt;"
  else if decide (c = ">"%char) then "&gt;"
  else if decide (c = dquote) then "&quot;"
  else if decide (c = "'"%char) then "&#x27;"
  else [c].

(** The escaped forms, and the four tags [fmt] lets through. *)
Definition entities : list text :=
  ["&amp;" : text; "&lt;" : text; "&gt;" : text; "&quot;" : text; "&#x27;" : text].

Definition whitelist : list text :=
  ["<em>" : text; "</em>" : text; "<strong>" : text; "</strong>" : text].

(** The character reference [cite_body] gives back. *)
Definition newline_reference : text := "&#10;".

(** A text in which a markup-significant character only occurs inside one
    of the [allowed] tokens: it is a sequence of other characters and of
    tokens. *)
Inductive Escaped (allowed : list text) : text -> Prop :=
  | Escaped_nil : Escaped allowed []
  | Escaped_char c s :
      ~ markup_char c -> Escaped allowed s -> Escaped allowed (c :: s)
  | Escaped_token t s :
      t ∈ allowed -> Escaped allowed s -> Escaped allowed (t ++ s).

(** Escaped text, with nothing but the escaped forms. *)
Definition Inert : text -> Prop := Escaped entities.

(** Escaped text in which the four whitelisted tags may stand. *)
Definition Marked : text -> Prop := Escaped (entities ++ whitelist).

(** The citation body: escaped text in which the newline reference may
    stand. *)
Definition cite_tokens : list text := entities ++ [newline_reference].

(** ** Which parts of a fragment come from the record

    An f-string is a sequence of literal parts and of interpolated values.
    The functions below retrace [pills], [links] and [article] and keep the
    two apart: [Lit] is text of the program, [Val] is a value computed from
    the record, as it is written into the fragment. *)

Inductive piece :=
  | Lit (s : text)
  | Val (s : text).

Definition piece_text (p : piece) : text :=
  match p with
  | Lit s => s
  | Val s => s
  end.

Definition render (ps : list piece) : text := flat_map piece_text ps.

Fixpoint join_pieces (sep : text) (parts : list (list piece)) : list piece :=
  match parts with
  | [] => []
  | [p] => p
  | p :: ps => p ++ Lit sep :: join_pieces sep ps
  end.

Definition pills_pieces (status year venue : text) : list piece :=
  let out := [] in
  let out := if Py.truthy status
    then out ++ [[Lit "<span class=`pill` title=`Status`>"; Lit ICON_STATUS; Lit " ";
                  Val (esc status); Lit "</span>"]]
    else out in
  let out := if Py.truthy year
    then out ++ [[Lit "<span class=`pill` title=`Year`>"; Lit ICON_YEAR; Lit " ";
                  Val (esc year); Lit "</span>"]]
    else out in
  let out := if Py.truthy venue
    then out ++ [[Lit "<span class=`pill` title=`Venue`>"; Val (esc venue); Lit "</span>"]]
    else out in
  join_pieces (nl :: "          ") out.

Definition paper_pieces (r : row) : list (list piece) :=
  match r !! ("paper_url" : text) with
  | Some url =>
      if Py.truthy url then
        let paper_label := Py.or_ (Py.strip (get_or r "paper_label" "Paper")) "Paper" in
        [[Lit "<a class=`btn` href=`"; Val (esc url); Lit "` itemprop=`url`>";
          Val (esc paper_label); Lit "</a>"]]
      else []
  | None => []
  end.

Definition slides_pieces (r : row) : list (list piece) :=
  match r !! ("slides_url" : text) with
  | Some url =>
      if Py.truthy url
      then [[Lit "<a class=`btn` href=`"; Val (esc url); Lit "`>Slides</a>"]]
      else []
  | None => []
  end.

Definition doi_pieces (r : row) : list (list piece) :=
  match r !! ("doi_url" : text) with
  | Some url =>
      if Py.truthy url
      then [[Lit "<a class=`btn` href=`"; Val (esc url); Lit "`>DOI</a>"]]
      else []
  | None => []
  end.

Definition cite_pieces (r : row) : list (list piece) :=
  match r !! ("bibtex" : text) with
  | Some bibtex =>
      if Py.truthy bibtex then
        [[Lit "<details class=`tool cite`>";
          Lit "<summary class=`btn` aria-label=`Cite this paper`>";
          Lit "<svg class=`i` viewBox=`0 0 24 24` fill=`none` stroke=`currentColor` stroke-width=`2` stroke-linecap=`round` stroke-linejoin=`round`><path d=`M14 2H6a2 2 0 0 0-2 2v16l4-4h6a2 2 0 0 0 2-2V4a2 2 0 0 0-2-2z`/></svg>";
          Lit "<span>Cite</span></summary>";
          Lit "<div class=`dropdown cite-body`><pre><code>";
          Val (cite_body bibtex);
          Lit "</code></pre></div>";
          Lit "</details>"]]
      else []
  | None => []
  end.

Definition media_pill_pieces (item : text) : list (list piece) :=
  let '(label, url) := label_url item in
  if negb (Py.truthy label) then []
  else if Py.truthy url
    then [[Lit "<a class=`media-pill` href=`"; Val (esc url); Lit "` rel=`noopener`>";
           Val (esc label); Lit "</a>"]]
    else [[Lit "<span class=`media-pill`>"; Val (esc label); Lit "</span>"]].

Definition media_pieces (r : row) : list (list piece) :=
  let media_raw := Py.strip (get_or r "media" []) in
  if Py.truthy media_raw then
    [[Lit "<details class=`tool media`>";
      Lit "<summary class=`btn` aria-label=`Media coverage`>";
      Lit "<svg class=`i` viewBox=`0 0 24 24` fill=`none` stroke=`currentColor` stroke-width=`2` stroke-linecap=`round` stroke-linejoin=`round`><path d=`M19 21H5a2 2 0 0 1-2-2V7a2 2 0 0 1 2-2h10l6 6v8a2 2 0 0 1-2 2z`/></svg>";
      Lit "<span>Media</span></summary>";
      Lit "<div class=`dropdown`><div class=`media-list`>"]
     ++ join_pieces [] (flat_map media_pill_pieces (Py.split ";" media_raw))
     ++ [Lit "</div></div></details>"]]
  else [].

Definition links_pieces (r : row) : list piece :=
  join_pieces (nl :: "            ")
    ([[Lit "<div class=`links`>"]] ++ paper_pieces r ++ slides_pieces r ++ doi_pieces r
     ++ cite_pieces r ++ media_pieces r ++ [[Lit "</div>"]]).

Definition authors_pieces (r : row) : list piece :=
  let authors := Py.strip (get_or r "authors" []) in
  if negb (Py.truthy authors) || bool_decide (Py.lower authors = "solo")
  then [Lit "solo"]
  else [Lit "with "; Val (esc authors)].

Definition comment_pieces (r : row) : list piece :=
  let comment := Py.strip (get_or r "comment" []) in
  if Py.truthy comment then
    [Lit "
        <div class=`comment`>"; Lit ICON_COMMENT; Lit " "; Val (esc comment); Lit "</div>
    "]
  else [].

Definition abstract_pieces (r : row) : list piece :=
  let abstract := Py.strip (Py.replace [cr; nl] [nl] (get_or r "abstract" [])) in
  if Py.truthy abstract then
    [Lit "
        <details class=`abstract`>
          <summary><svg class=`chev` viewBox=`0 0 24 24` fill=`none` stroke=`currentColor` stroke-width=`2` stroke-linecap=`round` stroke-linejoin=`round`><path d=`M9 18l6-6-6-6`/></svg> Show abstract</summary>
          <div class=`abs-body` itemprop=`description`>"; Val (fmt abstract); Lit "</div>
        </details>"]
  else [].

Definition article_pieces (r : row) : list piece :=
  [Lit "
      <article class=`paper` itemscope itemtype=`https://schema.org/ScholarlyArticle`>
        <div class=`title-row`>
          <h3 class=`title` itemprop=`headline`>"; Val (esc (getd r "title" [])); Lit "</h3>
          "]
  ++ links_pieces r
  ++ [Lit "
        </div>
        <div class=`meta`>
          "]
  ++ pills_pieces (getd r "status" []) (getd r "year" []) (getd r "venue" [])
  ++ [Lit "
        </div>
        <div class=`authors`>"]
  ++ authors_pieces r
  ++ [Lit "</div>
        "]
  ++ comment_pieces r
  ++ [Lit "
        "]
  ++ abstract_pieces r
  ++ [Lit "
      </article>"].

(** The values of the record written into a fragment. *)
Definition values (ps : list piece) : list text :=
  omap (fun p => match p with Val s => Some s | Lit _ => None end) ps.

(** What holds of every value of a fragment. *)
Definition value_escaped (r : row) (s : text) : Prop :=
  Marked s \/
  exists bibtex, r !! ("bibtex" : text) = Some bibtex /\ s = cite_body bibtex /\
                 Escaped cite_tokens s.

(** ** The matches of the two patterns *)

(** The match of [mm(.+?)mm] at one position. *)
Definition double_match (m : ascii) (s g : text) : Prop :=
  exists rest,
    s = [m; m] ++ g ++ [m; m] ++ rest /\
    g <> [] /\ (nl ∉ g) /\
    forall g1 g2, g = g1 ++ g2 -> g1 <> [] -> g2 <> [] ->
      ~ [m; m] `prefix_of` (g2 ++ [m; m] ++ rest).

(** That a lone [m] stands at the beginning of [s], [c] being the
    character before it. *)
Definition lone_marker (m : ascii) (c : option ascii) (s : text) : Prop :=
  c <> Some m /\ exists rest, s = m :: rest /\ head rest <> Some m.

(** The match of [(?<!m)m(?!m)(.+?)(?<!m)m(?!m)] at one position. *)
Definition single_match (m : ascii) (prev : option ascii) (s g : text) : Prop :=
  exists rest,
    s = [m] ++ g ++ [m] ++ rest /\
    g <> [] /\ (nl ∉ g) /\
    lone_marker m prev s /\
    lone_marker m (last g) ([m] ++ rest) /\
    forall g1 g2, g = g1 ++ g2 -> g1 <> [] -> g2 <> [] ->
      ~ lone_marker m (last g1) (g2 ++ [m] ++ rest).

(** The character before the position reached after [pre]. *)
Definition before (prev : option ascii) (pre : text) : option ascii :=
  match last pre with
  | Some c => Some c
  | None => prev
  end.

(** A span the emphasis rules take as it is: not empty, and without
    marker, line feed or character that [html.escape] rewrites. *)
Definition plain_span (x : text) : Prop :=
  x <> [] /\ Forall (fun c => (c ∉ ("*_&<>`'" : text)) /\ c <> nl) x.

(** ** The media list, as the specification words it *)

(** A badge of the media list. *)
Inductive badge :=
  | Linked (label url : text)
  | Unlinked (label : text).

Definition render_badge (b : badge) : text :=
  match b with
  | Linked label url =>
      "<a class=`media-pill` href=`" ++ esc url ++ "` rel=`noopener`>" ++ esc label ++ "</a>"
  | Unlinked label => "<span class=`media-pill`>" ++ esc label ++ "</span>"
  end.

(** The text before the first [sep], all of it when there is none. *)
Fixpoint before_first (sep : ascii) (s : text) : text :=
  match s with
  | [] => []
  | c :: s' => if decide (c = sep) then [] else c :: before_first sep s'
  end.

(** The text after the first [sep], empty when there is none. *)
Fixpoint after_first (sep : ascii) (s : text) : text :=
  match s with
  | [] => []
  | c :: s' => if decide (c = sep) then s' else after_first sep s'
  end.

(** One item: label and url are cut at the first bar and trimmed; an item
    without a label gives no badge, one with a url a linked badge, one
    without a plain badge. *)
Definition badge_of_item (item : text) : option badge :=
  let label := Py.strip (before_first "|" item) in
  let url := Py.strip (after_first "|" item) in
  if decide (label = []) then None
  else if decide (url = []) then Some (Unlinked label)
  else Some (Linked label url).

Definition badges (media_raw : text) : list badge :=
  omap badge_of_item (Py.split ";" media_raw).

(** ** The buckets, as the specification words them *)

Definition section_keys : list text :=
  ["journal" : text; "working" : text; "conference" : text; "other" : text].

(** The bucket a record belongs to. *)
Definition section_of (r : row) : text := normalize_section (getd r "section" []).

(** The records of one bucket, in the order of the table. *)
Definition rows_of (k : text) (rows : list row) : list row :=
  filter (fun r => section_of r = k) rows.

(** ** The page, section by section *)

(** What stands before the four sections and after them. *)
Definition page_head : text :=
  SHELL_style_1 ++ SHELL_style_2 ++ SHELL_style_3 ++ SHELL_style_4 ++ SHELL_top.

Definition page_tail : text :=
  SHELL_script_1 ++ SHELL_script_2 ++ SHELL_script_3.

(** The opening of each section, up to the line of its placeholder. *)
Definition journal_open : text :=
  "    <section class=`pub-sec` data-sec=`journal`>
      <h2 id=`journal`>
        <button class=`toggle` aria-expanded=`true` aria-controls=`journal-papers`>
          <svg class=`caret` viewBox=`0 0 24 24` fill=`none` stroke=`currentColor` stroke-width=`2`
               stroke-linecap=`round` stroke-linejoin=`round` aria-hidden=`true`>
            <path d=`M6 9l6 6 6-6`/>
          </svg>
          Journal Papers
        </button>
      </h2>
      <div class=`paper-list` id=`journal-papers`>
".

Definition conference_open : text :=
  "    <section class=`pub-sec` data-sec=`conference`>
      <h2 id=`conference`>
        <button class=`toggle` aria-expanded=`true` aria-controls=`conf-papers`>
          <svg class=`caret` viewBox=`0 0 24 24` fill=`none` stroke=`currentColor` stroke-width=`2`
               stroke-linecap=`round` stroke-linejoin=`round` aria-hidden=`true`>
            <path d=`M6 9l6 6 6-6`/>
          </svg>
          Conference Proceedings
        </button>
      </h2>
      <div class=`paper-list` id=`conf-papers`>
".

Definition working_open : text :=
  "    <section class=`pub-sec` data-sec=`working`>
      <h2 id=`working`>
        <button class=`toggle` aria-expanded=`true` aria-controls=`working-papers`>
          <svg class=`caret` viewBox=`0 0 24 24` fill=`none` stroke=`currentColor` stroke-width=`2`
               stroke-linecap=`round` stroke-linejoin=`round` aria-hidden=`true`>
            <path d=`M6 9l6 6 6-6`/>
          </svg>
          Working Papers
        </button>
      </h2>
      <div class=`paper-list` id=`working-papers`>
".

Definition other_open : text :=
  "    <section class=`pub-sec` data-sec=`other`>
      <h2 id=`other`>
        <button class=`toggle` aria-expanded=`true` aria-controls=`other-articles`>
          <svg class=`caret` viewBox=`0 0 24 24` fill=`none` stroke=`currentColor` stroke-width=`2`
               stroke-linecap=`round` stroke-linejoin=`round` aria-hidden=`true`>
            <path d=`M6 9l6 6 6-6`/>
          </svg>
          Other Articles
        </button>
      </h2>
      <div class=`paper-list` id=`other-articles`>
".

(** The closing of a section, from the end of the line of its placeholder. *)
Definition section_close : text :=
  "
      </div>
    </section>
".

(** The page with the content of the four sections given. *)
Definition page (journal conference working other : text) : text :=
  page_head
  ++ journal_open ++ journal ++ section_close ++ [nl; nl; nl]
  ++ conference_open ++ conference ++ section_close ++ [nl]
  ++ working_open ++ working ++ section_close ++ [nl]
  ++ other_open ++ other ++ section_close ++ [nl]
  ++ page_tail.

(** The content of a section as it stands in the page: the fragments of
    the bucket, in which the replacements that [main] makes after the one
    of this section have been made as well. *)
Definition shown_journal (journal working conference other : text) : text :=
  Py.replace "{{OTHER_ITEMS}}" other
    (Py.replace "{{CONF_ITEMS}}" conference
      (Py.replace "{{WORKING_ITEMS}}" working journal)).

Definition shown_working (working conference other : text) : text :=
  Py.replace "{{OTHER_ITEMS}}" other (Py.replace "{{CONF_ITEMS}}" conference working).

Definition shown_conference (conference other : text) : text :=
  Py.replace "{{OTHER_ITEMS}}" other conference.

(** [p in s]. *)
Fixpoint occurs (p s : text) : bool :=
  Py.startswith p s ||
  match s with
  | [] => false
  | _ :: s' => occurs p s'
  end.

(** The content [main] gives to the placeholder of a section: the
    fragments of its records, the last record first, one line feed when
    there is none. *)
Definition section_items (k : text) (rows : list row) : text :=
  Py.or_ (Py.join [nl] (reverse (article <$> rows_of k rows))) [nl].

(** The page [main] writes for the rows of the table. *)
Definition page_of (rows : list row) : text :=
  let journal := section_items "journal" rows in
  let working := section_items "working" rows in
  let conference := section_items "conference" rows in
  let other := section_items "other" rows in
  page (shown_journal journal working conference other)
       (shown_conference conference other)
       (shown_working working conference other)
       other.

(** The records that [csv.DictReader] turns into rows: the records after
    the header that are not empty. *)
Definition data_records (table : list (list text)) : list (list text) :=
  filter (fun record => record <> []) (tail table).

(** The header of the table, empty when the table is. *)
Definition header (table : list (list text)) : list text := default [] (head table).

(** A table of three records, the last one short, and its rows. *)
Definition example_table : list (list text) :=
  [["title" : text; "section" : text];
   ["A" : text; "Journal Article" : text];
   ["B" : text; "misc" : text];
   ["C" : text]].

Definition example_rows : list row :=
  [ <[("section" : text) := ("Journal Article" : text)]> {[ ("title" : text) := ("A" : text) ]};
    <[("section" : text) := ("misc" : text)]> {[ ("title" : text) := ("B" : text) ]};
    <[("section" : text) := ([] : text)]> {[ ("title" : text) := ("C" : text) ]} ].

(** ** Further vocabulary *)

(** The eight replacements at the end of [fmt]. *)
Definition whitelist_pass (t : text) : text :=
  Py.replace "&lt;/b&gt;" "</strong>"
   (Py.replace "&lt;b&gt;" "<strong>"
    (Py.replace "&lt;/strong&gt;" "</strong>"
     (Py.replace "&lt;strong&gt;" "<strong>"
      (Py.replace "&lt;/i&gt;" "</em>"
       (Py.replace "&lt;i&gt;" "<em>"
        (Py.replace "&lt;/em&gt;" "</em>"
         (Py.replace "&lt;em&gt;" "<em>" t))))))).

(** A text in which [fmt] finds nothing to do: no marker and no character
    that [html.escape] rewrites. *)
Definition plain_text (x : text) : Prop :=
  Forall (fun c => c ∉ ("*_&<>`'" : text)) x.

(** [p] and [s] differ at a place that both have. *)
Fixpoint differs (p s : text) : bool :=
  match p, s with
  | a :: p', b :: s' => negb (Ascii.eqb a b) || differs p' s'
  | _, _ => false
  end.

(** At every place of [A] the text [old] either stands within [A] or
    differs from what stands there within [A]: what follows [A] has no
    say in the occurrences of [old] that begin in [A]. *)
Fixpoint safe_cut (old A : text) : bool :=
  match A with
  | [] => true
  | _ :: A' => (Py.startswith old A || differs old A) && safe_cut old A'
  end.

(** A text that [strip] leaves as it is. *)
Definition trimmed (s : text) : Prop := Py.strip s = s.

(** The parts of the button cluster between its two tags. *)
Definition links_parts (r : row) : list text :=
  paper_part r ++ slides_part r ++ doi_part r ++ cite_part r ++ media_part r.

(** The value [csv.DictReader] gives to column [i] of a record: the cell,
    [None] when the record is too short. *)
Definition cell (record : list text) (i : nat) : pyval :=
  match record !! i with
  | Some c => VStr c
  | None => VNone
  end.

(** Text without an opening brace, the first character of the four
    placeholders of the template. *)
Definition brace_free (s : text) : Prop := Forall (fun c => c <> "{"%char) s.

(** A text made of whitespace characters only. *)
Definition blank (s : text) : Prop :=
  exists l, Forall (fun w => w ∈ Py.whitespace) l /\ s = concat l.

(** A text that neither begins nor ends with a whitespace character. *)
Definition no_space_at_ends (s : text) : Prop :=
  Forall (fun w => ~ w `prefix_of` s /\ ~ w `suffix_of` s) Py.whitespace.

(** Three characters outside ASCII, as they stand in a text: the no-break
    space, the ideographic space and the Kelvin sign. *)
Definition nbsp : text := Utf8.encode_point 0xA0.
Definition ideographic_space : text := Utf8.encode_point 0x3000.
Definition kelvin_sign : text := Utf8.encode_point 0x212A.

(** A table with whitespace of several kinds around its cells, the last
    record short, and its rows. *)
Definition spaced_table : list (list text) :=
  [[" title" ++ nbsp; (" section " : text)];
   [ideographic_space ++ "A" ++ [nl]; nbsp ++ "jour" ++ nbsp];
   [("B" : text) ++ [cr]]].

Definition spaced_rows : list row :=
  [ <[("section" : text) := ("jour" : text)]> {[ ("title" : text) := ("A" : text) ]};
    <[("section" : text) := ([] : text)]> {[ ("title" : text) := ("B" : text) ]} ].

(** * Properties *)

(** ** Facts about the string primitives *)

Section PyFacts.

Implicit Types (old new s t r : text) (c : ascii).

Lemma startswith_prefix p s : Py.startswith p s = true <-> p `prefix_of` s.
Proof.
  revert s. induction p as [|a p IH]; intros s; simpl.
  - split; [intros _; apply prefix_nil | done].
  - destruct s as [|b s].
    + split; [done | intros [k Hk]; discriminate].
    + rewrite andb_true_iff, IH. split.
      * intros [Hab Hp]. apply Ascii.eqb_eq in Hab as ->. by apply prefix_cons.
      * intros [k Hk]. simplify_eq/=. split; [apply Ascii.eqb_refl | by exists k].
Qed.

Lemma startswith_app p r : Py.startswith p (p ++ r) = true.
Proof. apply startswith_prefix. by exists r. Qed.

Lemma startswith_head_ne h p c s : h <> c -> Py.startswith (h :: p) (c :: s) = false.
Proof.
  intros Hne. simpl. destruct (Ascii.eqb h c) eqn:E; [|done].
  by apply Ascii.eqb_eq in E.
Qed.

Lemma replace_from_skip old new k s :
  Py.replace_from old new k s = Py.replace_from old new 0 (drop k s).
Proof.
  revert k. induction s as [|c s IH]; intros [|k]; simpl; auto.
Qed.

Lemma replace_nil old new : Py.replace old new [] = [].
Proof. done. Qed.

(** The equation the scan obeys at a non-empty text. *)
Lemma replace_cons old new c s :
  old <> [] ->
  Py.replace old new (c :: s) =
    if Py.startswith old (c :: s)
    then new ++ Py.replace old new (drop (length old) (c :: s))
    else c :: Py.replace old new s.
Proof.
  intros Hold. unfold Py.replace. cbn [Py.replace_from].
  destruct (Py.startswith old (c :: s)); [|done].
  rewrite replace_from_skip. destruct old as [|h old]; [done|].
  simpl. by rewrite Nat.sub_0_r.
Qed.

Lemma replace_match old new r :
  old <> [] -> Py.replace old new (old ++ r) = new ++ Py.replace old new r.
Proof.
  intros Hold. destruct old as [|h old]; [done|].
  change ((h :: old) ++ r) with (h :: (old ++ r)).
  rewrite replace_cons by done.
  change (h :: (old ++ r)) with ((h :: old) ++ r).
  rewrite startswith_app. by rewrite drop_app_length.
Qed.

Lemma replace_nomatch old new c s :
  old <> [] -> Py.startswith old (c :: s) = false ->
  Py.replace old new (c :: s) = c :: Py.replace old new s.
Proof. intros Hold Hno. rewrite replace_cons by done. by rewrite Hno. Qed.

(** The scan copies a stretch in which the first character of [old]
    does not occur. *)
Lemma replace_skip h old new t s :
  h ∉ t -> Py.replace (h :: old) new (t ++ s) = t ++ Py.replace (h :: old) new s.
Proof.
  induction t as [|c t IH]; intros Hh; [done|].
  apply not_elem_of_cons in Hh as [Hc Ht].
  change ((c :: t) ++ s) with (c :: (t ++ s)).
  rewrite replace_nomatch; [|done|by apply startswith_head_ne].
  simpl. f_equal. by apply IH.
Qed.

(** A text without the first character of [old] is left as it is. *)
Lemma replace_absent h old new t :
  h ∉ t -> Py.replace (h :: old) new t = t.
Proof.
  intros Hh. rewrite <- (app_nil_r t) at 1.
  rewrite replace_skip by done. by rewrite replace_nil, app_nil_r.
Qed.

Lemma prefix_app_sep old (A B r : text) c :
  c ∉ old -> A ++ c :: B = old ++ r -> exists A', A = old ++ A' /\ r = A' ++ c :: B.
Proof.
  intros Hc Heq. apply app_eq_app in Heq as [l [[-> ->]|[-> Hl]]].
  - by exists l.
  - destruct l as [|x l].
    + exists []. rewrite !app_nil_r. simpl in Hl. by subst.
    + simplify_eq/=. exfalso. apply Hc. apply elem_of_app. right. left.
Qed.

(** A character that does not occur in [old] separates the text: the
    occurrences of [old] lie on one side of it or the other. *)
Lemma replace_sep old new (A B : text) c :
  old <> [] -> c ∉ old ->
  Py.replace old new (A ++ c :: B) =
    Py.replace old new A ++ c :: Py.replace old new B.
Proof.
  intros Hold Hc. remember (length A) as n eqn:Hn.
  revert A Hn. induction n as [n IH] using lt_wf_ind. intros A ->.
  destruct A as [|a A].
  - simpl. rewrite replace_nomatch; [done..|].
    destruct old as [|h old]; [done|]. apply startswith_head_ne.
    intros ->. apply Hc. left.
  - change ((a :: A) ++ c :: B) with (a :: (A ++ c :: B)).
    rewrite !replace_cons by done.
    destruct (Py.startswith old (a :: A ++ c :: B)) eqn:E.
    + apply startswith_prefix in E as [r Hr].
      change (a :: A ++ c :: B) with ((a :: A) ++ c :: B) in Hr.
      destruct (prefix_app_sep _ _ _ _ _ Hc Hr) as (A' & HA & ->).
      change (a :: A ++ c :: B) with ((a :: A) ++ c :: B). rewrite Hr, HA.
      rewrite startswith_app, !drop_app_length.
      rewrite (IH (length A')); [by rewrite app_assoc| |done].
      rewrite HA, length_app. destruct old; [done|simpl; lia].
    + assert (Py.startswith old (a :: A) = false) as ->.
      { destruct (Py.startswith old (a :: A)) eqn:E'; [|done].
        apply startswith_prefix in E' as [r Hr].
        assert (Py.startswith old (a :: A ++ c :: B) = true) as E''.
        { apply startswith_prefix. exists (r ++ c :: B).
          change (a :: A ++ c :: B) with ((a :: A) ++ c :: B).
          by rewrite Hr, <- app_assoc. }
        congruence. }
      simpl. f_equal. eapply IH; [|done]. simpl; lia.
Qed.

(** An occurrence of [old] that is written out is replaced, whatever
    stands before it, when the first character of [old] does not come
    back inside [old]. *)
Lemma replace_occurrence h old new (A B : text) :
  h ∉ old ->
  Py.replace (h :: old) new (A ++ (h :: old) ++ B) =
    Py.replace (h :: old) new A ++ new ++ Py.replace (h :: old) new B.
Proof.
  intros Hh. remember (length A) as n eqn:Hn.
  revert A Hn. induction n as [n IH] using lt_wf_ind. intros A ->.
  destruct A as [|a A].
  - rewrite app_nil_l, replace_match by done. done.
  - change ((a :: A) ++ (h :: old) ++ B) with (a :: (A ++ (h :: old) ++ B)).
    rewrite !replace_cons by done.
    destruct (Py.startswith (h :: old) (a :: A ++ (h :: old) ++ B)) eqn:E.
    + apply startswith_prefix in E as [r Hr].
      change (a :: A ++ (h :: old) ++ B) with ((a :: A) ++ (h :: old) ++ B) in Hr.
      assert (exists l, a :: A = (h :: old) ++ l) as [l HA].
      { apply app_eq_app in Hr as [l [[HA _]|[Hold' Hr']]]; [by exists l|].
        destruct l as [|x l].
        - exists []. by rewrite app_nil_r in Hold' |- *.
        - exfalso. simplify_eq/=. apply Hh, elem_of_app. right. left. }
      change (a :: A ++ (h :: old) ++ B) with ((a :: A) ++ (h :: old) ++ B).
      rewrite HA, startswith_app, <- app_assoc, !drop_app_length.
      rewrite (IH (length l)); [by rewrite app_assoc| |done].
      rewrite HA, length_app. simpl; lia.
    + assert (Py.startswith (h :: old) (a :: A) = false) as ->.
      { destruct (Py.startswith (h :: old) (a :: A)) eqn:E'; [|done].
        apply startswith_prefix in E' as [r Hr].
        assert (Py.startswith (h :: old) (a :: A ++ (h :: old) ++ B) = true) as E''.
        { apply startswith_prefix. exists (r ++ (h :: old) ++ B).
          change (a :: A ++ (h :: old) ++ B) with ((a :: A) ++ (h :: old) ++ B).
          by rewrite Hr, <- app_assoc. }
        congruence. }
      simpl. f_equal. eapply IH; [|done]. simpl; lia.
Qed.

End PyFacts.

(** ** [html.escape] character by character *)

Lemma replace_char_flat_map c new s :
  Py.replace [c] new s = flat_map (fun x => if decide (x = c) then new else [x]) s.
Proof.
  induction s as [|x s IH]; [done|].
  rewrite replace_cons by done. simpl.
  destruct (decide (x = c)) as [->|Hne].
  - rewrite Ascii.eqb_refl. simpl. rewrite drop_0. by rewrite IH.
  - destruct (Ascii.eqb c x) eqn:E.
    + apply Ascii.eqb_eq in E. by subst.
    + simpl. by rewrite IH.
Qed.

Lemma flat_map_flat_map {A B C} (f : B -> list C) (g : A -> list B) (l : list A) :
  flat_map f (flat_map g l) = flat_map (fun x => flat_map f (g x)) l.
Proof.
  induction l as [|x l IH]; [done|]. simpl. by rewrite flat_map_app, IH.
Qed.

Lemma html_escape_flat_map s : html_escape s = flat_map escape_char s.
Proof.
  unfold html_escape.
  change (lit "&") with ["&"%char]. change (lit "<") with ["<"%char].
  change (lit ">") with [">"%char]. change (lit "`") with [dquote].
  change (lit "'") with ["'"%char].
  rewrite !replace_char_flat_map, !flat_map_flat_map.
  apply flat_map_ext. intros c.
  destruct c as [[] [] [] [] [] [] [] []]; vm_compute; reflexivity.
Qed.

Lemma esc_flat_map s : esc s = flat_map escape_char s.
Proof.
  unfold esc, Py.or_. destruct s; [done|]. apply html_escape_flat_map.
Qed.

Lemma esc_app a b : esc (a ++ b) = esc a ++ esc b.
Proof. by rewrite !esc_flat_map, flat_map_app. Qed.

(** ** Escaped text *)

Section EscapedFacts.

Variable allowed : list text.

Lemma Escaped_app s1 s2 :
  Escaped allowed s1 -> Escaped allowed s2 -> Escaped allowed (s1 ++ s2).
Proof.
  induction 1 as [|c s Hc _ IH|t s Ht _ IH]; intros H2; [done| |].
  - simpl. constructor; auto.
  - rewrite <- app_assoc. constructor; auto.
Qed.

Lemma Escaped_one t : t ∈ allowed -> Escaped allowed t.
Proof.
  intros Ht. rewrite <- (app_nil_r t). constructor; [done|constructor].
Qed.

Lemma Escaped_plain s : Forall (fun c => ~ markup_char c) s -> Escaped allowed s.
Proof. induction 1; constructor; auto. Qed.

(** A character that occurs in no token cuts an escaped text into two
    escaped texts. *)
Lemma Escaped_split m g r :
  Forall (fun t => m ∉ t) allowed ->
  Escaped allowed (g ++ m :: r) -> Escaped allowed g /\ Escaped allowed r.
Proof.
  intros Hm H. remember (g ++ m :: r) as s eqn:Hs. revert g Hs.
  induction H as [|c s Hc H IH|t s Ht H IH]; intros g Hs.
  - by destruct g.
  - destruct g as [|x g]; simplify_eq/=.
    + split; [constructor|done].
    + destruct (IH g eq_refl). split; [by constructor|done].
  - apply app_eq_app in Hs as [l [[Hg Hl]|[-> ->]]].
    + destruct l as [|x l]; simplify_eq/=.
      * rewrite app_nil_r in Ht. destruct (IH [] eq_refl). split; [|done].
        by apply Escaped_one.
      * exfalso. rewrite Forall_forall in Hm. apply (Hm _ Ht).
        apply elem_of_app. right. left.
    + destruct (IH l eq_refl). split; [|done]. by constructor.
Qed.

Lemma Escaped_drop_markers m o s :
  Forall (fun t => m ∉ t) allowed -> Forall (eq m) o ->
  Escaped allowed (o ++ s) -> Escaped allowed s.
Proof.
  intros Hm Ho. induction Ho as [|x o <- _ IH]; [done|]. intros H.
  apply IH. by apply (Escaped_split m [] (o ++ s)).
Qed.

(** The tokens are not empty, each starts with a markup-significant
    character, and none is the beginning of another. *)
Definition token_set : Prop :=
  Forall (fun t => exists h t', t = h :: t' /\ markup_char h) allowed /\
  Forall (fun t1 => Forall (fun t2 => t1 `prefix_of` t2 -> t1 = t2) allowed) allowed.

Hypothesis Hset : token_set.

Lemma token_cons t : t ∈ allowed -> exists h t', t = h :: t' /\ markup_char h.
Proof. destruct Hset as [H _]. rewrite Forall_forall in H. apply H. Qed.

Lemma token_prefix t1 t2 :
  t1 ∈ allowed -> t2 ∈ allowed -> t1 `prefix_of` t2 -> t1 = t2.
Proof.
  destruct Hset as [_ H]. rewrite Forall_forall in H. intros H1 H2.
  specialize (H _ H1). rewrite Forall_forall in H. by apply H.
Qed.

Lemma Escaped_inv_char c s :
  ~ markup_char c -> Escaped allowed (c :: s) -> Escaped allowed s.
Proof.
  intros Hc H. inversion H as [|c' s' _ Hs|t s' Ht Hs Heq]; subst; [done|].
  destruct (token_cons t Ht) as (h & t' & -> & Hh). by simplify_eq/=.
Qed.

Lemma Escaped_inv_token t s :
  t ∈ allowed -> Escaped allowed (t ++ s) -> Escaped allowed s.
Proof.
  intros Ht H. inversion H as [Heq|c s' Hc Hs Heq|t2 s2 Ht2 Hs Heq].
  - destruct (token_cons t Ht) as (h & t' & -> & _). done.
  - destruct (token_cons t Ht) as (h & t' & -> & Hh). by simplify_eq/=.
  - apply app_eq_app in Heq as [l [[Hl ->]|[Hl ->]]].
    + assert (t = t2) as <-.
      { apply token_prefix; [done..|]. by exists l. }
      apply (f_equal length) in Hl. rewrite length_app in Hl.
      destruct l; [done|simpl in Hl; lia].
    + assert (t2 = t) as ->.
      { apply token_prefix; [done..|]. by exists l. }
      apply (f_equal length) in Hl. rewrite length_app in Hl.
      destruct l; [done|simpl in Hl; lia].
Qed.

(** An atom is a token or one other character. *)
Definition atom (a : text) : Prop :=
  a ∈ allowed \/ exists c, a = [c] /\ ~ markup_char c.

Lemma Escaped_inv_atoms atoms s :
  Forall atom atoms -> Escaped allowed (concat atoms ++ s) -> Escaped allowed s.
Proof.
  induction 1 as [|a atoms Ha _ IH]; [done|]. simpl. rewrite <- app_assoc.
  intros H. apply IH. destruct Ha as [Ha|(c & -> & Hc)].
  - by apply (Escaped_inv_token a).
  - by apply (Escaped_inv_char c).
Qed.

(** [replace] keeps a text escaped when [old] is a sequence of atoms
    that starts with a markup-significant character which occurs in the
    tokens at their first place only, and [new] is escaped. *)
Lemma replace_Escaped h old new atoms :
  markup_char h ->
  h :: old = concat atoms -> Forall atom atoms ->
  Forall (fun t => h ∉ tail t) allowed ->
  Escaped allowed new ->
  forall s, Escaped allowed s -> Escaped allowed (Py.replace (h :: old) new s).
Proof.
  intros Hh Hatoms Hat Htail Hnew s.
  remember (length s) as n eqn:Hn. revert s Hn.
  induction n as [n IH] using lt_wf_ind. intros s -> Hs.
  inversion Hs as [|c s' Hc Hs'|t s' Ht Hs']; subst.
  - done.
  - rewrite replace_nomatch; [|done|].
    + constructor; [done|]. eapply IH; [|done..]. simpl; lia.
    + apply startswith_head_ne. by intros ->.
  - destruct (token_cons t Ht) as (x & t' & -> & Hx).
    assert (h ∉ t') as Ht'.
    { rewrite Forall_forall in Htail. apply (Htail _ Ht). }
    change ((x :: t') ++ s') with (x :: (t' ++ s')).
    rewrite replace_cons by done.
    destruct (Py.startswith (h :: old) (x :: t' ++ s')) eqn:E.
    + apply startswith_prefix in E as [r Hr]. rewrite Hr, drop_app_length.
      apply Escaped_app; [done|]. eapply (IH (length r)); [|done|].
      * apply (f_equal length) in Hr. rewrite length_app in Hr.
        simpl in *. lia.
      * apply (Escaped_inv_atoms atoms); [done|].
        rewrite <- Hatoms, <- Hr. exact Hs.
    + rewrite replace_skip by done.
      change (x :: t' ++ Py.replace (h :: old) new s')
        with ((x :: t') ++ Py.replace (h :: old) new s').
      constructor; [done|]. eapply IH; [|done..].
      rewrite length_app. simpl; lia.
Qed.

End EscapedFacts.

Lemma Escaped_mono a1 a2 s : a1 ⊆ a2 -> Escaped a1 s -> Escaped a2 s.
Proof. intros Hsub. induction 1; constructor; auto. Qed.

Lemma markup_char_iff c :
  markup_char c <->
  c = "<"%char \/ c = "&"%char \/ c = dquote \/ c = "'"%char.
Proof.
  unfold markup_char.
  change markup_chars with ["<"%char; "&"%char; dquote; "'"%char].
  rewrite !elem_of_cons, elem_of_nil. tauto.
Qed.

Lemma escape_char_Inert c : Inert (escape_char c).
Proof.
  unfold escape_char, Inert.
  repeat case_decide; try (apply Escaped_one; set_solver).
  constructor; [|constructor]. rewrite markup_char_iff. tauto.
Qed.

Lemma esc_Inert s : Inert (esc s).
Proof.
  rewrite esc_flat_map. induction s as [|c s IH]; [constructor|].
  simpl. apply Escaped_app; [apply escape_char_Inert|done].
Qed.

(** ** The lazy group and the two patterns *)

Section LazyGroup.

Variable closes : ascii -> text -> bool.

(** [g] is the group found at [g ++ rest]: not empty, without a line
    feed, the closing test succeeds after it and after none of its
    proper beginnings. *)
Definition first_close (g rest : text) : Prop :=
  (nl ∉ g) /\
  (exists c, last g = Some c /\ closes c rest = true) /\
  forall g1 g2 c, g = g1 ++ g2 -> g2 <> [] -> last g1 = Some c ->
    closes c (g2 ++ rest) = false.

Lemma lazy_group_sound s g :
  Re.lazy_group closes s = Some g -> exists rest, s = g ++ rest /\ first_close g rest.
Proof.
  revert g. induction s as [|c s IH]; intros g; simpl; [done|].
  destruct (Ascii.eqb c nl) eqn:Enl; [done|].
  assert (c <> nl) as Hnl by (intros ->; by rewrite Ascii.eqb_refl in Enl).
  destruct (closes c s) eqn:Ec.
  - intros [= <-]. exists s. split; [done|]. split; [|split].
    + apply not_elem_of_cons. split; [congruence|apply not_elem_of_nil].
    + by exists c.
    + intros g1 g2 c' Hg Hg2 Hc'. destruct g1 as [|x [|y g1]], g2; by simplify_eq/=.
  - destruct (Re.lazy_group closes s) as [g'|] eqn:Eg; [|done].
    intros [= <-]. destruct (IH g' eq_refl) as (rest & -> & Hn & (c' & Hl & Hc') & Hmin).
    exists rest. split; [done|]. split; [|split].
    + apply not_elem_of_cons. split; [congruence|done].
    + exists c'. split; [|done]. destruct g'; [done|]. by rewrite last_cons, Hl.
    + intros g1 g2 x Hg Hg2 Hx. destruct g1 as [|y g1]; [done|].
      simplify_eq/=. destruct g1 as [|z g1].
      * simplify_eq/=. done.
      * apply (Hmin (z :: g1) g2 x); [done..|]. exact Hx.
Qed.

Lemma lazy_group_complete g rest :
  first_close g rest -> Re.lazy_group closes (g ++ rest) = Some g.
Proof.
  induction g as [|c g IH]; intros (Hn & (x & Hl & Hx) & Hmin); [done|].
  apply not_elem_of_cons in Hn as [Hc Hn]. simpl.
  destruct (Ascii.eqb c nl) eqn:Enl; [by apply Ascii.eqb_eq in Enl|].
  destruct g as [|d g].
  - simplify_eq/=. by rewrite Hx.
  - rewrite (Hmin [c] (d :: g) c); [|done..].
    rewrite IH; [done|]. split; [done|]. split.
    + exists x. split; [exact Hl|done].
    + intros g1 g2 y Hg Hg2 Hy. apply (Hmin (c :: g1) g2 y); [by rewrite Hg|done|].
      destruct g1; [done|]. exact Hy.
Qed.

Lemma first_close_nonempty g rest : first_close g rest -> g <> [].
Proof. intros (_ & (c & Hl & _) & _) ->. done. Qed.

End LazyGroup.

Lemma closes_double_spec m c rest :
  Re.closes_double m c rest = true <-> [m; m] `prefix_of` rest.
Proof.
  unfold Re.closes_double. destruct rest as [|a [|b rest]].
  - split; [done|]. intros [k Hk]. done.
  - split; [done|]. intros [k Hk]. done.
  - rewrite andb_true_iff, !Ascii.eqb_eq. split.
    + intros [-> ->]. by exists rest.
    + intros [k Hk]. by simplify_eq/=.
Qed.

Lemma closes_single_spec m c rest :
  Re.closes_single m c rest = true <->
  c <> m /\ exists rest', rest = m :: rest' /\ head rest' <> Some m.
Proof.
  unfold Re.closes_single. rewrite andb_true_iff, negb_true_iff.
  rewrite Ascii.eqb_neq. apply and_iff_compat_l.
  destruct rest as [|a rest]; [split; [done|by intros (? & ? & _)]|].
  rewrite andb_true_iff, Ascii.eqb_eq. split.
  - intros [-> H]. exists rest. split; [done|].
    destruct rest as [|b rest]; [done|]. simpl.
    apply negb_true_iff, Ascii.eqb_neq in H. congruence.
  - intros (rest' & [= -> ->] & H). split; [done|].
    destruct rest' as [|b rest']; [done|]. simpl in *.
    apply negb_true_iff, Ascii.eqb_neq. congruence.
Qed.

Lemma double_marker_spec m prev s g len :
  Re.double_marker m prev s = Some (g, len) <->
  double_match m s g /\ len = length g + 4.
Proof.
  unfold Re.double_marker, double_match. split.
  - destruct s as [|a [|b s]]; [done..|].
    destruct (Ascii.eqb a m && Ascii.eqb b m) eqn:E; [|done].
    apply andb_true_iff in E as [->%Ascii.eqb_eq ->%Ascii.eqb_eq].
    destruct (Re.lazy_group _ s) as [g'|] eqn:Eg; [|done]. intros [= <- <-].
    apply lazy_group_sound in Eg as (rest & -> & Hf).
    pose proof (first_close_nonempty _ _ _ Hf) as Hne.
    destruct Hf as (Hn & (c & Hl & Hc) & Hmin).
    apply closes_double_spec in Hc as [rest' ->].
    split; [|done]. exists rest'. split; [done|]. split; [done|]. split; [done|].
    intros g1 g2 -> Hg1 Hg2 Hp.
    destruct (last g1) as [x|] eqn:Hx; [|by apply last_None in Hx].
    specialize (Hmin g1 g2 x eq_refl Hg2 Hx).
    apply (closes_double_spec m x) in Hp. simpl in *. congruence.
  - intros [(rest & -> & Hne & Hn & Hmin) ->]. simpl.
    rewrite !Ascii.eqb_refl. simpl.
    rewrite (lazy_group_complete _ g (m :: m :: rest)); [done|].
    split; [done|]. split.
    + destruct (last g) as [x|] eqn:Hx; [|by apply last_None in Hx].
      exists x. split; [done|]. apply closes_double_spec. by exists rest.
    + intros g1 g2 c Hg Hg2 Hc.
      destruct (Re.closes_double m c (g2 ++ m :: m :: rest)) eqn:E; [|done].
      apply closes_double_spec in E. exfalso.
      apply (Hmin g1 g2); [done| |done..]. by intros ->.
Qed.

Lemma single_marker_spec m prev s g len :
  Re.single_marker m prev s = Some (g, len) <->
  single_match m prev s g /\ len = length g + 2.
Proof.
  unfold Re.single_marker, single_match, lone_marker. split.
  - destruct s as [|a s]; [done|].
    destruct (Ascii.eqb a m && _ && _) eqn:E; [|done].
    apply andb_true_iff in E as [[->%Ascii.eqb_eq Hprev]%andb_true_iff Hnext].
    destruct (Re.lazy_group _ s) as [g'|] eqn:Eg; [|done]. intros [= <- <-].
    apply lazy_group_sound in Eg as (rest & -> & Hf).
    pose proof (first_close_nonempty _ _ _ Hf) as Hne.
    destruct Hf as (Hn & (c & Hl & Hc) & Hmin).
    apply closes_single_spec in Hc as (Hcm & rest' & -> & Hr).
    split; [|done]. exists rest'. split; [done|]. split; [done|]. split; [done|].
    split; [|split].
    + split.
      * destruct prev as [p|]; [|done].
        apply negb_true_iff, Ascii.eqb_neq in Hprev. congruence.
      * eexists. split; [done|]. destruct g' as [|x g']; [done|]. simpl in *.
        apply negb_true_iff, Ascii.eqb_neq in Hnext. congruence.
    + split; [rewrite Hl; congruence|]. by exists rest'.
    + intros g1 g2 -> Hg1 Hg2 [Hp Hq].
      destruct (last g1) as [x|] eqn:Hx; [|by apply last_None in Hx].
      specialize (Hmin g1 g2 x eq_refl Hg2 Hx).
      assert (Re.closes_single m x (g2 ++ m :: rest') = true); [|congruence].
      apply closes_single_spec. split; [congruence|done].
  - intros [(rest & -> & Hne & Hn & [Hp (r0 & Hr0 & Hh)] & [Hl (r1 & Hr1 & Hh1)] & Hmin) ->].
    simplify_eq/=. rewrite Ascii.eqb_refl. simpl.
    assert (match prev with Some p => negb (Ascii.eqb p m) | None => true end = true) as ->.
    { destruct prev as [p|]; [|done]. apply negb_true_iff, Ascii.eqb_neq. congruence. }
    assert (match g ++ m :: r1 with b :: _ => negb (Ascii.eqb b m) | [] => true end = true) as ->.
    { destruct g as [|b g]; [done|]. simpl in *.
      apply negb_true_iff, Ascii.eqb_neq. congruence. }
    simpl. rewrite (lazy_group_complete _ g (m :: r1)); [done|].
    split; [done|]. split.
    + destruct (last g) as [x|] eqn:Hx; [|by apply last_None in Hx].
      exists x. split; [done|]. apply closes_single_spec.
      split; [congruence|]. by exists r1.
    + intros g1 g2 c Hg Hg2 Hc.
      destruct (Re.closes_single m c (g2 ++ m :: r1)) eqn:E; [|done].
      apply closes_single_spec in E as [Hcm Hex]. exfalso.
      apply (Hmin g1 g2); [done| |done|].
      * by intros ->.
      * split; [rewrite Hc; congruence|done].
Qed.

(** ** The scan of [re.sub] *)

Section SubFacts.

Variables (p : Re.matcher) (repl : text -> text).

Lemma before_cons prev c pre : before prev (c :: pre) = before (Some c) pre.
Proof.
  unfold before. destruct pre as [|d pre]; [done|].
  change (last (c :: d :: pre)) with (last (d :: pre)).
  destruct (last (d :: pre)) eqn:E; [done|]. by apply last_None in E.
Qed.

Lemma sub_from_skip k prev s :
  Re.sub_from p repl k prev s =
  Re.sub_from p repl 0 (before prev (take k s)) (drop k s).
Proof.
  revert k prev. induction s as [|c s IH]; intros [|k] prev; try done.
  cbn [Re.sub_from take drop]. by rewrite IH, before_cons.
Qed.

Lemma sub_cons_match prev c s g len :
  p prev (c :: s) = Some (g, len) -> 1 <= len ->
  Re.sub_from p repl 0 prev (c :: s) =
    repl g ++ Re.sub_from p repl 0 (before prev (take len (c :: s))) (drop len (c :: s)).
Proof.
  intros Hp Hlen. cbn [Re.sub_from]. rewrite Hp, sub_from_skip.
  destruct len as [|len]; [lia|]. simpl. by rewrite Nat.sub_0_r, before_cons.
Qed.

Lemma sub_cons_nomatch prev c s :
  p prev (c :: s) = None ->
  Re.sub_from p repl 0 prev (c :: s) = c :: Re.sub_from p repl 0 (Some c) s.
Proof. intros Hp. cbn [Re.sub_from]. by rewrite Hp. Qed.

(** What the two patterns have in common: a match is the group between
    an opening and a closing run of the marker. *)
Variable m : ascii.

Definition marker_pattern : Prop :=
  forall prev s g len, p prev s = Some (g, len) ->
    exists o cl rest,
      s = o ++ g ++ cl ++ rest /\ len = length (o ++ g ++ cl) /\
      o <> [] /\ cl <> [] /\ Forall (eq m) o /\ Forall (eq m) cl.

Hypothesis Hp : marker_pattern.

Lemma marker_pattern_head prev c s : c <> m -> p prev (c :: s) = None.
Proof.
  intros Hc. destruct (p prev (c :: s)) as [[g len]|] eqn:E; [|done].
  destruct (Hp _ _ _ _ E) as (o & cl & rest & Hs & _ & Ho & _ & Hm & _).
  destruct Hm as [|x o <- _]; [done|]. by simplify_eq/=.
Qed.

(** Where the marker does not occur nothing is rewritten. *)
Lemma sub_skip prev t s :
  m ∉ t ->
  Re.sub_from p repl 0 prev (t ++ s) = t ++ Re.sub_from p repl 0 (before prev t) s.
Proof.
  revert prev. induction t as [|c t IH]; intros prev Hm; [done|].
  apply not_elem_of_cons in Hm as [Hc Ht].
  change ((c :: t) ++ s) with (c :: (t ++ s)).
  rewrite sub_cons_nomatch by (apply marker_pattern_head; congruence).
  by rewrite IH, before_cons.
Qed.

Lemma sub_absent prev t : m ∉ t -> Re.sub_from p repl 0 prev t = t.
Proof.
  intros Hm. rewrite <- (app_nil_r t) at 1. rewrite sub_skip by done.
  by rewrite app_nil_r.
Qed.

(** The scan keeps a text escaped when the marker occurs in no token and
    the replacement wraps the group in escaped text. *)
Lemma sub_Escaped allowed op cl :
  token_set allowed ->
  Forall (fun t => m ∉ t) allowed ->
  (forall g, repl g = op ++ g ++ cl) ->
  Escaped allowed op -> Escaped allowed cl ->
  forall s prev, Escaped allowed s -> Escaped allowed (Re.sub_from p repl 0 prev s).
Proof.
  intros Hset Hm Hrepl Hop Hcl s.
  remember (length s) as n eqn:Hn. revert s Hn.
  induction n as [n IH] using lt_wf_ind. intros s -> prev Hs.
  inversion Hs as [|c s' Hc Hs'|t s' Ht Hs']; subst.
  - done.
  - destruct (p prev (c :: s')) as [[g len]|] eqn:E.
    + destruct (Hp _ _ _ _ E) as (o & c2 & rest & Heq & -> & Ho & Hc2 & Hmo & Hmc).
      rewrite (sub_cons_match _ _ _ _ _ E); [|destruct o; [done|simpl; lia]].
      rewrite Heq in Hs |- *.
      replace (drop (length (o ++ g ++ c2)) (o ++ g ++ c2 ++ rest)) with rest
        by (by rewrite !app_assoc, drop_app_length).
      apply (Escaped_drop_markers _ m) in Hs; [|done..].
      destruct c2 as [|x c2]; [done|]. inversion Hmc as [|? ? <- Hmc']; subst.
      apply Escaped_split in Hs as [Hg Hs]; [|done].
      apply (Escaped_drop_markers _ m) in Hs; [|done..].
      rewrite Hrepl. repeat apply Escaped_app; try done.
      eapply IH; [|done..].
      rewrite Heq, !length_app. destruct o; [done|simpl; lia].
    + rewrite sub_cons_nomatch by done. constructor; [done|].
      eapply IH; [|done..]. simpl; lia.
  - assert (m ∉ t) as Hmt by (rewrite Forall_forall in Hm; by apply Hm).
    rewrite sub_skip by done. constructor; [done|].
    destruct (token_cons _ Hset t Ht) as (h & t' & -> & _).
    eapply IH; [|done..]. rewrite length_app. simpl; lia.
Qed.

End SubFacts.

Lemma double_marker_pattern m : marker_pattern (Re.double_marker m) m.
Proof.
  intros prev s g len [(rest & -> & Hne & _) ->]%double_marker_spec.
  exists [m; m], [m; m], rest. repeat split; try done.
  - rewrite !length_app. simpl. lia.
  - by repeat constructor.
  - by repeat constructor.
Qed.

Lemma single_marker_pattern m : marker_pattern (Re.single_marker m) m.
Proof.
  intros prev s g len [(rest & -> & Hne & _) ->]%single_marker_spec.
  exists [m], [m], rest. repeat split; try done.
  - rewrite !length_app. simpl. lia.
  - by repeat constructor.
  - by repeat constructor.
Qed.

(** ** [fmt] keeps the text escaped *)

Lemma marked_token_set : token_set (entities ++ whitelist).
Proof.
  split.
  - repeat constructor; (eexists _, _; split; [reflexivity|]);
      apply markup_char_iff; vm_compute; tauto.
  - compute_done.
Qed.

Lemma marked_no_star : Forall (fun t => star ∉ t) (entities ++ whitelist).
Proof. compute_done. Qed.

Lemma marked_no_underscore : Forall (fun t => underscore ∉ t) (entities ++ whitelist).
Proof. compute_done. Qed.

Lemma marked_amp_first : Forall (fun t => "&"%char ∉ tail t) (entities ++ whitelist).
Proof. compute_done. Qed.

Lemma plain_atom allowed c : ~ markup_char c -> atom allowed [c].
Proof. right. by exists c. Qed.

Lemma token_atom allowed t : t ∈ allowed -> atom allowed t.
Proof. by left. Qed.

Lemma not_markup c :
  bool_decide (c ∈ markup_chars) = false -> ~ markup_char c.
Proof. intros H. by apply bool_decide_eq_false in H. Qed.

(** Each of the eight replacements of [fmt]: [old] is an escaped tag,
    written as atoms, [new] the tag. *)
Lemma whitelist_replace_Marked old new atoms s :
  old = concat atoms -> Forall (atom (entities ++ whitelist)) atoms ->
  head old = Some "&"%char -> new ∈ whitelist ->
  Marked s -> Marked (Py.replace old new s).
Proof.
  intros Hold Hatoms Hhead Hnew. destruct old as [|h old]; [done|].
  simplify_eq/=. apply (replace_Escaped _ marked_token_set _ _ _ atoms); try done.
  - apply markup_char_iff. tauto.
  - apply marked_amp_first.
  - apply Escaped_one. apply elem_of_app. by right.
Qed.

Ltac atoms_of_tag :=
  repeat (apply Forall_cons_2;
          [ first [ apply token_atom; compute_done
                  | apply plain_atom, not_markup; vm_compute; reflexivity ] | ]);
  apply Forall_nil_2.

Lemma fmt_Marked s : Marked (fmt s).
Proof.
  unfold fmt.
  assert (Marked (esc (Py.or_ s []))) as H0.
  { eapply Escaped_mono; [|apply esc_Inert]. intros t Ht. apply elem_of_app. by left. }
  assert (Escaped (entities ++ whitelist) (lit "<strong>")) as Hso by (apply Escaped_one; compute_done).
  assert (Escaped (entities ++ whitelist) (lit "</strong>")) as Hsc by (apply Escaped_one; compute_done).
  assert (Escaped (entities ++ whitelist) (lit "<em>")) as Heo by (apply Escaped_one; compute_done).
  assert (Escaped (entities ++ whitelist) (lit "</em>")) as Hec by (apply Escaped_one; compute_done).
  pose proof marked_token_set as Hset.
  apply (sub_Escaped _ strong_repl star (double_marker_pattern star) _ _ _
           Hset marked_no_star (fun g => eq_refl) Hso Hsc _ None) in H0.
  apply (sub_Escaped _ strong_repl underscore (double_marker_pattern underscore) _ _ _
           Hset marked_no_underscore (fun g => eq_refl) Hso Hsc _ None) in H0.
  apply (sub_Escaped _ em_repl star (single_marker_pattern star) _ _ _
           Hset marked_no_star (fun g => eq_refl) Heo Hec _ None) in H0.
  apply (sub_Escaped _ em_repl underscore (single_marker_pattern underscore) _ _ _
           Hset marked_no_underscore (fun g => eq_refl) Heo Hec _ None) in H0.
  apply (whitelist_replace_Marked _ _ ["&lt;" : text; "/" : text; "b" : text; "&gt;" : text]);
    [vm_compute; reflexivity | atoms_of_tag | done | compute_done |].
  apply (whitelist_replace_Marked _ _ ["&lt;" : text; "b" : text; "&gt;" : text]);
    [vm_compute; reflexivity | atoms_of_tag | done | compute_done |].
  apply (whitelist_replace_Marked _ _
           ["&lt;" : text; "/" : text; "s" : text; "t" : text; "r" : text; "o" : text; "n" : text; "g" : text; "&gt;" : text]);
    [vm_compute; reflexivity | atoms_of_tag | done | compute_done |].
  apply (whitelist_replace_Marked _ _
           ["&lt;" : text; "s" : text; "t" : text; "r" : text; "o" : text; "n" : text; "g" : text; "&gt;" : text]);
    [vm_compute; reflexivity | atoms_of_tag | done | compute_done |].
  apply (whitelist_replace_Marked _ _ ["&lt;" : text; "/" : text; "i" : text; "&gt;" : text]);
    [vm_compute; reflexivity | atoms_of_tag | done | compute_done |].
  apply (whitelist_replace_Marked _ _ ["&lt;" : text; "i" : text; "&gt;" : text]);
    [vm_compute; reflexivity | atoms_of_tag | done | compute_done |].
  apply (whitelist_replace_Marked _ _ ["&lt;" : text; "/" : text; "e" : text; "m" : text; "&gt;" : text]);
    [vm_compute; reflexivity | atoms_of_tag | done | compute_done |].
  apply (whitelist_replace_Marked _ _ ["&lt;" : text; "e" : text; "m" : text; "&gt;" : text]);
    [vm_compute; reflexivity | atoms_of_tag | done | compute_done |].
  exact H0.
Qed.

(** ** The pieces of a fragment *)

Lemma render_app a b : render (a ++ b) = render a ++ render b.
Proof. apply flat_map_app. Qed.

Lemma render_cons p ps : render (p :: ps) = piece_text p ++ render ps.
Proof. done. Qed.

Lemma render_join sep parts :
  render (join_pieces sep parts) = Py.join sep (map render parts).
Proof.
  induction parts as [|p [|q parts] IH]; [done| |].
  - done.
  - change (join_pieces sep (p :: q :: parts))
      with (p ++ Lit sep :: join_pieces sep (q :: parts)).
    rewrite render_app, render_cons, IH. done.
Qed.

Ltac render_norm :=
  repeat first
    [ rewrite render_app | rewrite render_join | rewrite render_cons
    | rewrite map_app | progress cbn [render flat_map piece_text map]
    | rewrite <- app_assoc | rewrite app_nil_r ].

Lemma pills_render status year venue :
  render (pills_pieces status year venue) = pills status year venue.
Proof.
  unfold pills_pieces, pills. rewrite render_join. f_equal.
  destruct (Py.truthy status), (Py.truthy year), (Py.truthy venue);
    cbn [app map render flat_map piece_text]; rewrite ?app_nil_r; reflexivity.
Qed.

Lemma media_pill_render item :
  map render (media_pill_pieces item) = media_pill item.
Proof.
  unfold media_pill_pieces, media_pill. destruct (label_url item) as [label url].
  destruct (Py.truthy label), (Py.truthy url);
    cbn [negb app map render flat_map piece_text]; rewrite ?app_nil_r; reflexivity.
Qed.

Lemma map_flat_map {A B C} (f : B -> C) (g : A -> list B) (l : list A) :
  map f (flat_map g l) = flat_map (fun x => map f (g x)) l.
Proof. induction l as [|x l IH]; [done|]. simpl. by rewrite map_app, IH. Qed.

Lemma links_render r : render (links_pieces r) = links r.
Proof.
  unfold links_pieces, links. rewrite render_join. f_equal.
  rewrite !map_app. rewrite <- !app_assoc. f_equal. f_equal; [|f_equal; [|f_equal; [|f_equal]]].
  - unfold paper_pieces, paper_part. destruct (r !! _) as [url|]; [|done].
    destruct (Py.truthy url); [|done].
    cbn [map render flat_map piece_text]. by rewrite app_nil_r.
  - unfold slides_pieces, slides_part. destruct (r !! _) as [url|]; [|done].
    destruct (Py.truthy url); [|done].
    cbn [map render flat_map piece_text]. by rewrite app_nil_r.
  - unfold doi_pieces, doi_part. destruct (r !! _) as [url|]; [|done].
    destruct (Py.truthy url); [|done].
    cbn [map render flat_map piece_text]. by rewrite app_nil_r.
  - unfold cite_pieces, cite_part. destruct (r !! _) as [b|]; [|done].
    destruct (Py.truthy b); [|done].
    cbn [map render flat_map piece_text]. by rewrite app_nil_r.
  - f_equal. unfold media_pieces, media_part.
    destruct (Py.truthy _); [|done].
    cbn [map]. f_equal. rewrite !render_app, render_join.
    rewrite map_flat_map. rewrite (flat_map_ext _ _ media_pill_render).
    cbn [render flat_map piece_text]. rewrite ?app_nil_r, <- ?app_assoc. done.
Qed.

Lemma authors_render r : render (authors_pieces r) = authors_html r.
Proof.
  unfold authors_pieces, authors_html. destruct (_ || _); [done|].
  cbn [render flat_map piece_text]. by rewrite app_nil_r.
Qed.

Lemma comment_render r : render (comment_pieces r) = comment_html r.
Proof.
  unfold comment_pieces, comment_html. destruct (Py.truthy _); [|done].
  cbn [render flat_map piece_text]. by rewrite ?app_nil_r, <- ?app_assoc.
Qed.

Lemma abstract_render r : render (abstract_pieces r) = abstract_html r.
Proof.
  unfold abstract_pieces, abstract_html. destruct (Py.truthy _); [|done].
  cbn [render flat_map piece_text]. by rewrite ?app_nil_r, <- ?app_assoc.
Qed.

(** The pieces written one after the other are the fragment. *)
Lemma article_render r : render (article_pieces r) = article r.
Proof.
  unfold article_pieces, article. rewrite !render_app.
  rewrite links_render, pills_render, authors_render, comment_render, abstract_render.
  cbn [render flat_map piece_text]. rewrite ?app_nil_r, <- ?app_assoc. done.
Qed.

(** ** The values written into a fragment *)

Lemma values_app a b : values (a ++ b) = values a ++ values b.
Proof. apply omap_app. Qed.

Lemma values_join sep parts : values (join_pieces sep parts) = concat (map values parts).
Proof.
  induction parts as [|p [|q parts] IH]; [done| |].
  - simpl. by rewrite app_nil_r.
  - change (join_pieces sep (p :: q :: parts))
      with (p ++ Lit sep :: join_pieces sep (q :: parts)).
    rewrite values_app. change (values (Lit sep :: ?l)) with (values l).
    by rewrite IH.
Qed.

Lemma esc_Marked s : Marked (esc s).
Proof.
  eapply Escaped_mono; [|apply esc_Inert]. intros t Ht. apply elem_of_app. by left.
Qed.

Lemma cite_token_set : token_set cite_tokens.
Proof.
  split.
  - repeat constructor; (eexists _, _; split; [reflexivity|]);
      apply markup_char_iff; vm_compute; tauto.
  - compute_done.
Qed.

Lemma cite_body_Escaped b : Escaped cite_tokens (cite_body b).
Proof.
  unfold cite_body.
  change (lit "&amp;#10;") with ("&"%char :: lit "amp;#10;").
  apply (replace_Escaped _ cite_token_set _ _ _
           ["&amp;" : text; "#" : text; "1" : text; "0" : text; ";" : text]).
  - apply markup_char_iff. tauto.
  - vm_compute. reflexivity.
  - repeat (apply Forall_cons_2;
            [ first [ apply token_atom; compute_done
                    | apply plain_atom, not_markup; vm_compute; reflexivity ] | ]);
      apply Forall_nil_2.
  - compute_done.
  - apply Escaped_one. compute_done.
  - eapply Escaped_mono; [|apply esc_Inert]. intros t Ht. apply elem_of_app. by left.
Qed.

Lemma Forall_concat {A} (P : A -> Prop) (ls : list (list A)) :
  Forall (Forall P) ls -> Forall P (concat ls).
Proof. induction 1; simpl; [done|]. by apply Forall_app. Qed.

Ltac values_marked :=
  repeat first
    [ apply Forall_nil_2
    | apply Forall_cons_2; [left; first [apply esc_Marked | apply fmt_Marked]|] ].

Lemma pills_values r status year venue :
  Forall (value_escaped r) (values (pills_pieces status year venue)).
Proof.
  unfold pills_pieces. rewrite values_join. apply Forall_concat.
  destruct (Py.truthy status), (Py.truthy year), (Py.truthy venue);
    cbn [app map values omap]; repeat (apply Forall_cons_2; [values_marked|]);
    apply Forall_nil_2.
Qed.

Lemma media_pill_values r item :
  Forall (Forall (value_escaped r)) (map values (media_pill_pieces item)).
Proof.
  unfold media_pill_pieces. destruct (label_url item) as [label url].
  destruct (Py.truthy label), (Py.truthy url);
    cbn [negb map values omap]; repeat (apply Forall_cons_2; [values_marked|]);
    apply Forall_nil_2.
Qed.

Lemma links_values r : Forall (value_escaped r) (values (links_pieces r)).
Proof.
  unfold links_pieces. rewrite values_join. apply Forall_concat.
  rewrite !map_app. repeat apply Forall_app_2.
  - repeat constructor.
  - unfold paper_pieces. destruct (r !! _) as [url|]; [|constructor].
    destruct (Py.truthy url); [|constructor].
    cbn [map values omap]. apply Forall_cons_2; [values_marked|constructor].
  - unfold slides_pieces. destruct (r !! _) as [url|]; [|constructor].
    destruct (Py.truthy url); [|constructor].
    cbn [map values omap]. apply Forall_cons_2; [values_marked|constructor].
  - unfold doi_pieces. destruct (r !! _) as [url|]; [|constructor].
    destruct (Py.truthy url); [|constructor].
    cbn [map values omap]. apply Forall_cons_2; [values_marked|constructor].
  - unfold cite_pieces. destruct (r !! _) as [b|] eqn:Eb; [|constructor].
    destruct (Py.truthy b); [|constructor].
    cbn [map values omap]. apply Forall_cons_2; [|constructor].
    apply Forall_cons_2; [|constructor]. right. exists b.
    split; [done|]. split; [done|]. apply cite_body_Escaped.
  - unfold media_pieces. destruct (Py.truthy _); [|constructor].
    cbn [map]. apply Forall_cons_2; [|constructor].
    rewrite !values_app, values_join. cbn [values omap app].
    rewrite app_nil_r. apply Forall_concat. rewrite map_flat_map.
    induction (Py.split _ _) as [|item items IH]; [constructor|].
    simpl. apply Forall_app_2; [apply media_pill_values|apply IH].
  - repeat constructor.
Qed.

Lemma article_values r : Forall (value_escaped r) (values (article_pieces r)).
Proof.
  unfold article_pieces. rewrite !values_app. repeat apply Forall_app_2.
  - cbn [values omap]. values_marked.
  - apply links_values.
  - constructor.
  - apply pills_values.
  - constructor.
  - unfold authors_pieces. destruct (_ || _); cbn [values omap]; values_marked.
  - constructor.
  - unfold comment_pieces. destruct (Py.truthy _); cbn [values omap]; values_marked.
  - constructor.
  - unfold abstract_pieces. destruct (Py.truthy _); cbn [values omap]; values_marked.
  - constructor.
Qed.

Lemma newline_reference_not_Marked : ~ Marked newline_reference.
Proof.
  change newline_reference with ["&"; "#"; "1"; "0"; ";"]%char.
  intros H. inversion H as [|c s Hc Hs|t s Ht Hs Heq].
  - apply Hc. apply markup_char_iff. tauto.
  - apply list_elem_of_In in Ht. vm_compute in Ht.
    repeat (destruct Ht as [<-|Ht]; [discriminate|]). done.
Qed.

(** ** [split], [split1] and the unpacking in [links] *)

Lemma truthy_nil (s : text) : Py.truthy s = false <-> s = [].
Proof. by destruct s. Qed.

Lemma truthy_cons (s : text) : Py.truthy s = true <-> s <> [].
Proof. by destruct s. Qed.

Lemma or_nil (s : text) : Py.or_ s [] = s.
Proof. by destruct s. Qed.

Lemma split1_spec sep s :
  Py.split1 sep s =
    if bool_decide (sep ∈ s) then [before_first sep s; after_first sep s] else [s].
Proof.
  induction s as [|c s IH].
  { by rewrite bool_decide_eq_false_2 by apply not_elem_of_nil. }
  simpl. destruct (Ascii.eqb c sep) eqn:E.
  - apply Ascii.eqb_eq in E as ->. rewrite bool_decide_eq_true_2 by left.
    by rewrite !decide_True by done.
  - apply Ascii.eqb_neq in E. rewrite !decide_False by done. rewrite IH.
    destruct (bool_decide (sep ∈ s)) eqn:Es.
    + apply bool_decide_eq_true in Es. by rewrite bool_decide_eq_true_2 by (by right).
    + apply bool_decide_eq_false in Es. rewrite bool_decide_eq_false_2; [done|].
      intros [?|?]%elem_of_cons; congruence.
Qed.

Lemma before_first_absent sep s : sep ∉ s -> before_first sep s = s.
Proof.
  induction s as [|c s IH]; [done|]. intros [Hc Hs]%not_elem_of_cons. simpl.
  rewrite !decide_False by congruence. by rewrite IH.
Qed.

Lemma after_first_absent sep s : sep ∉ s -> after_first sep s = [].
Proof.
  induction s as [|c s IH]; [done|]. intros [Hc Hs]%not_elem_of_cons. simpl.
  rewrite !decide_False by congruence. by rewrite IH.
Qed.

(** The slice of [links] always unpacks into two values. *)
Lemma label_url_unpacks item :
  take 2 (Py.split1 "|" item ++ [[]]) =
    [before_first "|" item; after_first "|" item].
Proof.
  rewrite split1_spec. destruct (bool_decide _) eqn:E; [done|].
  apply bool_decide_eq_false in E. simpl.
  by rewrite before_first_absent, after_first_absent.
Qed.

Lemma label_url_spec item :
  label_url item = (Py.strip (before_first "|" item), Py.strip (after_first "|" item)).
Proof. unfold label_url. by rewrite label_url_unpacks. Qed.

Lemma media_pill_badge item :
  media_pill item = option_list (render_badge <$> badge_of_item item).
Proof.
  unfold media_pill, badge_of_item. rewrite label_url_spec.
  destruct (Py.strip (before_first _ _)) as [|c l]; [done|].
  destruct (Py.strip (after_first _ _)) as [|d u]; done.
Qed.

Lemma pills_html_badges media_raw :
  pills_html media_raw = render_badge <$> badges media_raw.
Proof.
  unfold pills_html, badges. induction (Py.split _ _) as [|item items IH]; [done|].
  simpl. rewrite IH, media_pill_badge. by destruct (badge_of_item item).
Qed.

Lemma split_join sep s : Py.join [sep] (Py.split sep s) = s.
Proof.
  induction s as [|c s IH]; [done|]. simpl.
  destruct (Ascii.eqb c sep) eqn:E.
  - apply Ascii.eqb_eq in E as ->.
    destruct (Py.split sep s) as [|p ps] eqn:Es; [by destruct s|].
    change (Py.join [sep] ([] :: p :: ps)) with ([] ++ [sep] ++ Py.join [sep] (p :: ps)).
    by rewrite IH.
  - destruct (Py.split sep s) as [|p ps] eqn:Es.
    + destruct s; simpl in *; [done|]. destruct (Ascii.eqb _ _), (Py.split sep s); done.
    + rewrite <- IH. by destruct ps.
Qed.

Lemma split_no_sep sep s : Forall (fun p => sep ∉ p) (Py.split sep s).
Proof.
  induction s as [|c s IH]; [repeat constructor; apply not_elem_of_nil|]. simpl.
  destruct (Ascii.eqb c sep) eqn:E.
  - constructor; [apply not_elem_of_nil|done].
  - apply Ascii.eqb_neq in E. destruct (Py.split sep s) as [|p ps].
    + repeat constructor. apply not_elem_of_cons. split; [congruence|apply not_elem_of_nil].
    + inversion IH; subst. constructor; [|done].
      apply not_elem_of_cons. split; [congruence|done].
Qed.

(** ** [normalize_section] *)

Lemma startswith_head a p s : Py.startswith (a :: p) s = true -> head s = Some a.
Proof.
  destruct s as [|c s]; [done|]. simpl.
  intros [->%Ascii.eqb_eq _]%andb_true_iff. done.
Qed.

Lemma normalize_section_keys s : normalize_section s ∈ section_keys.
Proof.
  unfold normalize_section, section_keys.
  repeat (destruct (Py.startswith _ _)); set_solver.
Qed.

(** ** The buckets *)

Lemma section_of_keys r : section_of r ∈ section_keys.
Proof. apply normalize_section_keys. Qed.

Lemma rows_of_cons k r rows :
  rows_of k (r :: rows) =
    if decide (section_of r = k) then r :: rows_of k rows else rows_of k rows.
Proof. unfold rows_of. rewrite filter_cons. by destruct (decide _). Qed.

Lemma bucket_append_eq (b : buckets) r :
  bucket_append b r =
    match b !! section_of r with
    | Some l => Ok (<[section_of r := l ++ [article r]]> b)
    | None => Raise KeyError
    end.
Proof. reflexivity. Qed.

(** The first loop of [main] never meets a missing key, and appends each
    fragment to the bucket of its record. *)
Lemma fold_bucket_append rows : forall b : buckets,
  (forall k, k ∈ section_keys -> is_Some (b !! k)) ->
  exists b' : buckets,
    fold_each bucket_append b rows = Ok b' /\
    forall k, b' !! k = (fun l => l ++ (article <$> rows_of k rows)) <$> b !! k.
Proof.
  induction rows as [|r rows IH]; intros b Hb.
  - exists b. split; [done|]. intros k. destruct (b !! k); simpl; [|done].
    by rewrite app_nil_r.
  - cbn [fold_each]. rewrite bucket_append_eq.
    destruct (Hb _ (section_of_keys r)) as [l Hl]. rewrite Hl.
    change (Ok ?x ≫= ?f) with (f x). cbv beta.
    destruct (IH (<[section_of r := l ++ [article r]]> b)) as (b' & Hfold & Hb').
    { intros k Hk. destruct (decide (section_of r = k)) as [<-|Hne].
      - rewrite lookup_insert_eq. by eexists.
      - rewrite lookup_insert_ne by done. by apply Hb. }
    exists b'. split; [exact Hfold|]. intros k. rewrite Hb', rows_of_cons.
    destruct (decide (section_of r = k)) as [<-|Hne].
    + rewrite lookup_insert_eq, Hl. simpl. by rewrite <- app_assoc.
    + by rewrite lookup_insert_ne by done.
Qed.

Lemma empty_buckets_lookup k :
  empty_buckets !! k = if decide (k ∈ section_keys) then Some [] else None.
Proof.
  unfold empty_buckets, section_keys.
  destruct (decide (k ∈ _)) as [Hk|Hk].
  - repeat (apply elem_of_cons in Hk as [->|Hk]; [by vm_compute|]).
    by apply elem_of_nil in Hk.
  - rewrite !lookup_insert_ne; [apply lookup_empty|..];
      intros <-; apply Hk; compute_done.
Qed.

(** The buckets after the two loops. *)
Lemma fill_buckets_spec rows :
  exists b : buckets,
    fill_buckets rows = Ok b /\
    forall k, b !! k =
      if decide (k ∈ section_keys)
      then Some (reverse (article <$> rows_of k rows)) else None.
Proof.
  destruct (fold_bucket_append rows empty_buckets) as (b & Hfold & Hb).
  { intros k Hk. rewrite empty_buckets_lookup, decide_True by done. by eexists. }
  exists (reverse_all b). split.
  - unfold fill_buckets. by rewrite Hfold.
  - intros k. unfold reverse_all. rewrite lookup_fmap, Hb, empty_buckets_lookup.
    by destruct (decide _).
Qed.

Lemma buckets_eq (b : buckets) (J W C O : list text) :
  (forall k : text, b !! k =
     if decide (k ∈ section_keys)
     then Some (if decide (k = lit "journal") then J
                else if decide (k = lit "working") then W
                else if decide (k = lit "conference") then C else O)
     else None) ->
  b = <[("other" : text) := O]> (<[("conference" : text) := C]>
        (<[("working" : text) := W]> (<[("journal" : text) := J]> ∅))).
Proof.
  intros Hb. apply map_eq. intros k. rewrite Hb.
  destruct (decide (k ∈ section_keys)) as [Hk|Hk].
  - unfold section_keys in Hk.
    repeat (apply elem_of_cons in Hk as [->|Hk]; [by vm_compute|]).
    by apply elem_of_nil in Hk.
  - rewrite !lookup_insert_ne; [by rewrite lookup_empty|..];
      intros <-; apply Hk; compute_done.
Qed.

Lemma count_items_four (J W C O : list text) :
  count_items (<[("other" : text) := O]> (<[("conference" : text) := C]>
     (<[("working" : text) := W]> (<[("journal" : text) := J]> ∅)))) =
  length J + length W + length C + length O.
Proof.
  unfold count_items.
  rewrite map_fold_insert_L; [|intros; lia|by vm_compute].
  rewrite map_fold_insert_L; [|intros; lia|by vm_compute].
  rewrite map_fold_insert_L; [|intros; lia|by vm_compute].
  rewrite map_fold_insert_L; [|intros; lia|by vm_compute].
  rewrite map_fold_empty. lia.
Qed.

Lemma rows_of_partition rows :
  length (rows_of "journal" rows) + length (rows_of "working" rows)
  + length (rows_of "conference" rows) + length (rows_of "other" rows) = length rows.
Proof.
  induction rows as [|r rows IH]; [done|]. rewrite !rows_of_cons.
  pose proof (section_of_keys r) as Hk. unfold section_keys in Hk.
  repeat (apply elem_of_cons in Hk as [->|Hk];
    [repeat (case_decide; [try (exfalso; by vm_compute in H)|]); simpl in *; try lia; try done|]).
  by apply elem_of_nil in Hk.
Qed.

(** ** Filling the page *)

Lemma replace_no_occurrence old new s :
  old <> [] -> occurs old s = false -> Py.replace old new s = s.
Proof.
  intros Hold. induction s as [|c s IH]; [done|]. simpl.
  intros [Hs Ho]%orb_false_iff. rewrite replace_nomatch by done. by rewrite IH.
Qed.

Lemma replace_whole old new : old <> [] -> Py.replace old new old = new.
Proof.
  intros Hold. rewrite <- (app_nil_r old) at 2.
  rewrite replace_match by done. by rewrite replace_nil, app_nil_r.
Qed.

(** A text with four holes; each hole stands on a line of its own. *)
Definition template (A0 A1 A2 A3 A4 X1 X2 X3 X4 : text) : text :=
  A0 ++ nl :: X1 ++ nl :: A1 ++ nl :: X2 ++ nl :: A2 ++ nl :: X3 ++ nl :: A3
     ++ nl :: X4 ++ nl :: A4.

Lemma replace_template old new A0 A1 A2 A3 A4 X1 X2 X3 X4 :
  old <> [] -> nl ∉ old ->
  Py.replace old new (template A0 A1 A2 A3 A4 X1 X2 X3 X4) =
    template (Py.replace old new A0) (Py.replace old new A1) (Py.replace old new A2)
             (Py.replace old new A3) (Py.replace old new A4)
             (Py.replace old new X1) (Py.replace old new X2)
             (Py.replace old new X3) (Py.replace old new X4).
Proof.
  intros Hold Hnl. unfold template. by rewrite !replace_sep by done.
Qed.

Definition part0 : text := removelast (page_head ++ journal_open).
Definition part1 : text :=
  removelast (tail (section_close ++ [nl; nl; nl] ++ conference_open)).
Definition part2 : text :=
  removelast (tail (section_close ++ [nl] ++ working_open)).
Definition part3 : text :=
  removelast (tail (section_close ++ [nl] ++ other_open)).
Definition part4 : text := tail (section_close ++ [nl] ++ page_tail).

Lemma SHELL_template :
  SHELL = template part0 part1 part2 part3 part4
            "{{JOURNAL_ITEMS}}" "{{CONF_ITEMS}}" "{{WORKING_ITEMS}}" "{{OTHER_ITEMS}}".
Proof. vm_compute. reflexivity. Qed.

Lemma template_app A0 A1 A2 A3 A4 X1 X2 X3 X4 :
  (A0 ++ [nl]) ++ X1 ++ (nl :: A1 ++ [nl]) ++ X2 ++ (nl :: A2 ++ [nl]) ++ X3
    ++ (nl :: A3 ++ [nl]) ++ X4 ++ (nl :: A4) =
  template A0 A1 A2 A3 A4 X1 X2 X3 X4.
Proof. unfold template. rewrite <- !app_assoc. simpl. by rewrite <- !app_assoc. Qed.

Lemma page_template X1 X2 X3 X4 :
  page X1 X2 X3 X4 = template part0 part1 part2 part3 part4 X1 X2 X3 X4.
Proof.
  assert (page_head ++ journal_open = part0 ++ [nl]) as H0 by (vm_compute; reflexivity).
  assert (section_close ++ [nl; nl; nl] ++ conference_open = nl :: part1 ++ [nl]) as H1
    by (vm_compute; reflexivity).
  assert (section_close ++ [nl] ++ working_open = nl :: part2 ++ [nl]) as H2
    by (vm_compute; reflexivity).
  assert (section_close ++ [nl] ++ other_open = nl :: part3 ++ [nl]) as H3
    by (vm_compute; reflexivity).
  assert (section_close ++ [nl] ++ page_tail = nl :: part4) as H4
    by (vm_compute; reflexivity).
  rewrite <- template_app, <- H0, <- H1, <- H2, <- H3, <- H4.
  unfold page. rewrite <- !app_assoc. reflexivity.
Qed.

Definition placeholders : list text :=
  ["{{JOURNAL_ITEMS}}" : text; "{{WORKING_ITEMS}}" : text;
   "{{CONF_ITEMS}}" : text; "{{OTHER_ITEMS}}" : text].

(** The page has no placeholder outside its four holes, and no
    placeholder occurs in another one. *)
Lemma parts_clean :
  forallb (fun t => forallb (fun old => negb (occurs old t)) placeholders)
          [part0; part1; part2; part3; part4] = true.
Proof. vm_compute. reflexivity. Qed.

Lemma placeholder_nonempty old : old ∈ placeholders -> old <> [].
Proof.
  unfold placeholders. intros Hold.
  repeat (apply elem_of_cons in Hold as [->|Hold]; [discriminate|]).
  by apply elem_of_nil in Hold.
Qed.

Lemma parts_fixed old new t :
  old ∈ placeholders -> t ∈ [part0; part1; part2; part3; part4] ->
  Py.replace old new t = t.
Proof.
  intros Hold Ht. apply replace_no_occurrence; [by apply placeholder_nonempty|].
  pose proof parts_clean as H. rewrite forallb_forall in H.
  apply list_elem_of_In in Ht. specialize (H _ Ht).
  rewrite forallb_forall in H. apply list_elem_of_In in Hold.
  specialize (H _ Hold). by apply negb_true_iff in H.
Qed.

Lemma placeholders_apart :
  forallb (fun p => forallb (fun old =>
             bool_decide (old = p) || negb (occurs old p)) placeholders)
          placeholders = true.
Proof. vm_compute. reflexivity. Qed.

Lemma placeholder_fixed old new p :
  old ∈ placeholders -> p ∈ placeholders -> old <> p -> Py.replace old new p = p.
Proof.
  intros Hold Hp Hne. apply replace_no_occurrence; [by apply placeholder_nonempty|].
  pose proof placeholders_apart as H. rewrite forallb_forall in H.
  apply list_elem_of_In in Hp. specialize (H _ Hp).
  rewrite forallb_forall in H. apply list_elem_of_In in Hold.
  specialize (H _ Hold). apply orb_true_iff in H as [H|H].
  - by apply bool_decide_eq_true in H.
  - by apply negb_true_iff in H.
Qed.

Lemma placeholder_no_nl old : old ∈ placeholders -> nl ∉ old.
Proof. revert old. apply Forall_forall. compute_done. Qed.

Lemma replace_page_template old new X1 X2 X3 X4 :
  old ∈ placeholders ->
  Py.replace old new (template part0 part1 part2 part3 part4 X1 X2 X3 X4) =
    template part0 part1 part2 part3 part4
      (Py.replace old new X1) (Py.replace old new X2)
      (Py.replace old new X3) (Py.replace old new X4).
Proof.
  intros Hold.
  rewrite replace_template; [|by apply placeholder_nonempty|by apply placeholder_no_nl].
  rewrite (parts_fixed old new part0), (parts_fixed old new part1),
    (parts_fixed old new part2), (parts_fixed old new part3),
    (parts_fixed old new part4);
    first [done | by repeat first [apply list_elem_of_here | apply list_elem_of_further]].
Qed.

(** The four replacements of [main] on the page. *)
Lemma fill_page journal working conference other :
  Py.replace "{{OTHER_ITEMS}}" other
    (Py.replace "{{CONF_ITEMS}}" conference
      (Py.replace "{{WORKING_ITEMS}}" working
        (Py.replace "{{JOURNAL_ITEMS}}" journal SHELL))) =
  page (shown_journal journal working conference other)
       (shown_conference conference other)
       (shown_working working conference other)
       other.
Proof.
  rewrite page_template, SHELL_template.
  rewrite !replace_page_template by compute_done.
  unfold shown_journal, shown_conference, shown_working.
  rewrite (replace_whole (lit "{{JOURNAL_ITEMS}}")) by discriminate.
  rewrite (placeholder_fixed _ journal (lit "{{CONF_ITEMS}}")),
    (placeholder_fixed _ journal (lit "{{WORKING_ITEMS}}")),
    (placeholder_fixed _ journal (lit "{{OTHER_ITEMS}}")) by compute_done.
  rewrite (replace_whole (lit "{{WORKING_ITEMS}}")) by discriminate.
  rewrite (placeholder_fixed _ working (lit "{{CONF_ITEMS}}")),
    (placeholder_fixed _ working (lit "{{OTHER_ITEMS}}")) by compute_done.
  rewrite (replace_whole (lit "{{CONF_ITEMS}}")) by discriminate.
  rewrite (placeholder_fixed _ conference (lit "{{OTHER_ITEMS}}")) by compute_done.
  rewrite (replace_whole (lit "{{OTHER_ITEMS}}")) by discriminate.
  reflexivity.
Qed.

Lemma plain_span_not x (m : ascii) :
  plain_span x -> m ∈ ("*_&<>`'" : text) -> m ∉ x.
Proof.
  intros [_ Hx] Hm Hin. rewrite Forall_forall in Hx.
  destruct (Hx _ Hin) as [H _]. done.
Qed.

Lemma plain_span_nl x : plain_span x -> nl ∉ x.
Proof.
  intros [_ Hx] Hin. rewrite Forall_forall in Hx. by destruct (Hx _ Hin) as [_ H].
Qed.

Lemma escape_char_plain c :
  c ∉ ("&<>`'" : text) -> escape_char c = [c].
Proof.
  intros Hc. unfold escape_char.
  repeat (case_decide; [exfalso; apply Hc; subst; compute_done|]). done.
Qed.

Lemma esc_plain x :
  Forall (fun c => c ∉ ("&<>`'" : text)) x -> esc x = x.
Proof.
  rewrite esc_flat_map. induction 1 as [|c x Hc _ IH]; [done|].
  simpl. by rewrite escape_char_plain, IH.
Qed.

Lemma plain_span_esc x : plain_span x -> esc x = x.
Proof.
  intros [_ Hx]. apply esc_plain. eapply Forall_impl; [exact Hx|].
  intros c [Hc _] Hin. apply Hc. revert Hin.
  change (lit "&<>`'") with ["&"; "<"; ">"; dquote; "'"]%char.
  change (lit "*_&<>`'") with ["*"; "_"; "&"; "<"; ">"; dquote; "'"]%char.
  rewrite !elem_of_cons. tauto.
Qed.

Lemma head_not_in (m : ascii) (x : text) : m ∉ x -> head x <> Some m.
Proof. destruct x; [done|]. intros H [= ->]. apply H. left. Qed.

Lemma last_not_in (m : ascii) (x : text) : m ∉ x -> last x <> Some m.
Proof.
  intros H Hl. apply H. apply last_Some in Hl as [l' ->].
  apply elem_of_app. right. left.
Qed.

Lemma double_match_plain m x :
  x <> [] -> nl ∉ x -> m ∉ x -> double_match m ([m; m] ++ x ++ [m; m]) x.
Proof.
  intros Hne Hnl Hm. exists []. split; [done|]. split; [done|]. split; [done|].
  intros g1 g2 -> _ Hg2 [k Hk]. destruct g2 as [|c g2]; [done|].
  simplify_eq/=. apply Hm. apply elem_of_app. right. left.
Qed.

Lemma single_match_plain m x :
  x <> [] -> nl ∉ x -> m ∉ x -> single_match m None ([m] ++ x ++ [m]) x.
Proof.
  intros Hne Hnl Hm. exists []. split; [done|]. split; [done|]. split; [done|].
  split; [|split].
  - split; [done|]. eexists. split; [done|]. destruct x; [done|]. simpl.
    intros [= ->]. apply Hm. left.
  - split; [by apply last_not_in|]. by exists [].
  - intros g1 g2 -> _ Hg2 [_ (r & Hr & _)]. destruct g2 as [|c g2]; [done|].
    simplify_eq/=. apply Hm. apply elem_of_app. right. left.
Qed.

Lemma sub_whole p repl prev s g :
  s <> [] -> p prev s = Some (g, length s) -> Re.sub_from p repl 0 prev s = repl g.
Proof.
  intros Hs Hp. destruct s as [|c s]; [done|].
  rewrite (sub_cons_match _ _ _ _ _ _ _ Hp) by (simpl; lia).
  rewrite drop_all. destruct (before _ _); by rewrite app_nil_r.
Qed.

(** A lone opening and a lone closing marker are no match of the double
    pattern. *)
Lemma sub_double_on_single m repl x :
  x <> [] -> m ∉ x ->
  Re.sub (Re.double_marker m) repl ([m] ++ x ++ [m]) = [m] ++ x ++ [m].
Proof.
  intros Hne Hm. unfold Re.sub.
  change ([m] ++ x ++ [m]) with (m :: (x ++ [m])).
  rewrite sub_cons_nomatch.
  - f_equal. rewrite (sub_skip _ _ m (double_marker_pattern m)) by done.
    by f_equal.
  - destruct (Re.double_marker m None (m :: x ++ [m])) as [[g len]|] eqn:E; [|done].
    apply double_marker_spec in E as [(rest & Hs & _) _].
    destruct x as [|c x]; [done|]. simplify_eq/=. exfalso. apply Hm. left.
Qed.

Lemma replace_absent_lit (old new t : text) h :
  head old = Some h -> h ∉ t -> Py.replace old new t = t.
Proof. destruct old as [|h' old]; [done|]. intros [= ->]. apply replace_absent. Qed.

(** The eight replacements leave a text without ampersand as it is. *)
Lemma whitelist_absent t :
  "&"%char ∉ t ->
  Py.replace "&lt;/b&gt;" "</strong>"
   (Py.replace "&lt;b&gt;" "<strong>"
    (Py.replace "&lt;/strong&gt;" "</strong>"
     (Py.replace "&lt;strong&gt;" "<strong>"
      (Py.replace "&lt;/i&gt;" "</em>"
       (Py.replace "&lt;i&gt;" "<em>"
        (Py.replace "&lt;/em&gt;" "</em>"
         (Py.replace "&lt;em&gt;" "<em>" t))))))) = t.
Proof.
  intros Ht. by rewrite !(replace_absent_lit _ _ t "&"%char).
Qed.

Lemma not_in_app3 (m : ascii) (a x b : text) :
  m ∉ a -> m ∉ x -> m ∉ b -> m ∉ a ++ x ++ b.
Proof. intros. rewrite !elem_of_app. tauto. Qed.

Lemma fmt_plain_span x :
  plain_span x ->
  fmt ("**" ++ x ++ "**") = "<strong>" ++ x ++ "</strong>" /\
  fmt ("__" ++ x ++ "__") = "<strong>" ++ x ++ "</strong>" /\
  fmt ("*" ++ x ++ "*") = "<em>" ++ x ++ "</em>" /\
  fmt ("_" ++ x ++ "_") = "<em>" ++ x ++ "</em>".
Proof.
  intros Hx. pose proof (plain_span_esc x Hx) as Hesc.
  pose proof (plain_span_nl x Hx) as Hnl.
  assert (star ∉ x) as Hs by (apply plain_span_not; [done|compute_done]).
  assert (underscore ∉ x) as Hu by (apply plain_span_not; [done|compute_done]).
  assert ("&"%char ∉ x) as Ha by (apply plain_span_not; [done|compute_done]).
  destruct Hx as [Hne _].
  assert (forall a b : text, Forall (fun c => c ∉ ("&<>`'" : text)) a ->
            Forall (fun c => c ∉ ("&<>`'" : text)) b ->
            esc (Py.or_ (a ++ x ++ b) []) = a ++ x ++ b) as Hesc'.
  { intros a b Ha' Hb'. rewrite or_nil, !esc_app, Hesc.
    by rewrite (esc_plain a), (esc_plain b). }
  assert (forall t : text, bool_decide (Forall (fun c => c ∉ ("&<>`'" : text)) t) = true ->
            Forall (fun c => c ∉ ("&<>`'" : text)) t) as Hdec
    by (intros t; apply bool_decide_eq_true).
  assert (forall (m : ascii) (a b : text),
            bool_decide (m ∉ a) = true -> bool_decide (m ∉ b) = true -> m ∉ x ->
            m ∉ a ++ x ++ b) as Hnot.
  { intros m a b Ha'%bool_decide_eq_true Hb'%bool_decide_eq_true Hm.
    by apply not_in_app3. }
  unfold fmt. repeat split.
  - rewrite Hesc' by (apply Hdec; vm_compute; reflexivity).
    unfold Re.sub at 4.
    rewrite (sub_whole _ _ _ _ x); [|by destruct x|].
    2:{ apply double_marker_spec. split; [by apply double_match_plain|].
        rewrite !length_app. simpl. lia. }
    unfold strong_repl.
    unfold Re.sub at 3. rewrite (sub_absent _ _ underscore (double_marker_pattern _))
      by (apply Hnot; [vm_compute; reflexivity..|done]).
    unfold Re.sub at 2. rewrite (sub_absent _ _ star (single_marker_pattern _))
      by (apply Hnot; [vm_compute; reflexivity..|done]).
    unfold Re.sub at 1. rewrite (sub_absent _ _ underscore (single_marker_pattern _))
      by (apply Hnot; [vm_compute; reflexivity..|done]).
    apply whitelist_absent. apply Hnot; [vm_compute; reflexivity..|done].
  - rewrite Hesc' by (apply Hdec; vm_compute; reflexivity).
    unfold Re.sub at 4. rewrite (sub_absent _ _ star (double_marker_pattern _))
      by (apply Hnot; [vm_compute; reflexivity..|done]).
    unfold Re.sub at 3.
    rewrite (sub_whole _ _ _ _ x); [|by destruct x|].
    2:{ apply double_marker_spec. split; [by apply double_match_plain|].
        rewrite !length_app. simpl. lia. }
    unfold strong_repl.
    unfold Re.sub at 2. rewrite (sub_absent _ _ star (single_marker_pattern _))
      by (apply Hnot; [vm_compute; reflexivity..|done]).
    unfold Re.sub at 1. rewrite (sub_absent _ _ underscore (single_marker_pattern _))
      by (apply Hnot; [vm_compute; reflexivity..|done]).
    apply whitelist_absent. apply Hnot; [vm_compute; reflexivity..|done].
  - rewrite Hesc' by (apply Hdec; vm_compute; reflexivity).
    rewrite (sub_double_on_single star) by done.
    unfold Re.sub at 3. rewrite (sub_absent _ _ underscore (double_marker_pattern _))
      by (apply Hnot; [vm_compute; reflexivity..|done]).
    unfold Re.sub at 2.
    rewrite (sub_whole _ _ _ _ x); [|by destruct x|].
    2:{ apply single_marker_spec. split; [by apply single_match_plain|].
        rewrite !length_app. simpl. lia. }
    unfold em_repl.
    unfold Re.sub at 1. rewrite (sub_absent _ _ underscore (single_marker_pattern _))
      by (apply Hnot; [vm_compute; reflexivity..|done]).
    apply whitelist_absent. apply Hnot; [vm_compute; reflexivity..|done].
  - rewrite Hesc' by (apply Hdec; vm_compute; reflexivity).
    unfold Re.sub at 4. rewrite (sub_absent _ _ star (double_marker_pattern _))
      by (apply Hnot; [vm_compute; reflexivity..|done]).
    rewrite (sub_double_on_single underscore) by done.
    unfold Re.sub at 2. rewrite (sub_absent _ _ star (single_marker_pattern _))
      by (apply Hnot; [vm_compute; reflexivity..|done]).
    unfold Re.sub at 1.
    rewrite (sub_whole _ _ _ _ x); [|by destruct x|].
    2:{ apply single_marker_spec. split; [by apply single_match_plain|].
        rewrite !length_app. simpl. lia. }
    unfold em_repl.
    apply whitelist_absent. apply Hnot; [vm_compute; reflexivity..|done].
Qed.

(** ** [strip] *)

Section StripLeft.

Variable ws : list text.
Hypothesis ws_nonempty : Forall (fun w => w <> []) ws.

Lemma find_prefix_Some s w :
  find (fun w => Py.startswith w s) ws = Some w ->
  w ∈ ws /\ w <> [] /\ s = w ++ drop (length w) s.
Proof.
  intros [Hin Hw]%find_some. apply list_elem_of_In in Hin.
  apply startswith_prefix in Hw as [r ->]. split_and!; [done| |].
  - by apply (proj1 (Forall_forall _ _) ws_nonempty).
  - by rewrite drop_app_length.
Qed.

Lemma find_prefix_None s :
  find (fun w => Py.startswith w s) ws = None <->
  Forall (fun w => ~ w `prefix_of` s) ws.
Proof.
  rewrite Forall_forall. split.
  - intros H w Hin Hp. apply list_elem_of_In in Hin.
    apply (find_none _ _ H) in Hin. apply startswith_prefix in Hp. congruence.
  - intros H. destruct (find _ ws) as [w|] eqn:E; [|done].
    apply find_some in E as [Hin Hw]. apply list_elem_of_In in Hin.
    apply startswith_prefix in Hw. by destruct (H w Hin).
Qed.

(** What is removed is a run of characters of [ws]. *)
Lemma strip_left_split n s :
  exists l, Forall (fun w => w ∈ ws) l /\ s = concat l ++ Py.strip_left ws n s.
Proof.
  revert s. induction n as [|n IH]; intros s; simpl; [by exists []|].
  destruct (find _ ws) as [w|] eqn:E; [|by exists []].
  apply find_prefix_Some in E as (Hin & _ & Hs).
  destruct (IH (drop (length w) s)) as (l & Hl & Hd).
  exists (w :: l). split; [by constructor|].
  simpl. rewrite <- app_assoc, <- Hd. exact Hs.
Qed.

(** With a turn for every character, what is left begins with no
    character of [ws]. *)
Lemma strip_left_done n s :
  length s <= n -> Forall (fun w => ~ w `prefix_of` Py.strip_left ws n s) ws.
Proof.
  revert s. induction n as [|n IH]; intros s Hn; simpl.
  - destruct s; [|simpl in Hn; lia].
    apply Forall_forall. intros w Hw [k Hk].
    symmetry in Hk. apply app_eq_nil in Hk as [-> _].
    by apply (proj1 (Forall_forall _ _) ws_nonempty) in Hw.
  - destruct (find _ ws) as [w|] eqn:E; [|by apply find_prefix_None].
    apply find_prefix_Some in E as (Hin & Hne & Hs). apply IH.
    rewrite length_drop. destruct w; [done|]. simpl. lia.
Qed.

Lemma strip_left_id n s :
  Forall (fun w => ~ w `prefix_of` s) ws -> Py.strip_left ws n s = s.
Proof.
  intros H. destruct n; [done|]. simpl.
  by rewrite (proj2 (find_prefix_None s) H).
Qed.

End StripLeft.

Lemma whitespace_nonempty : Forall (fun w => w <> []) Py.whitespace.
Proof. apply (bool_decide_unpack _). vm_compute. exact I. Qed.

Lemma whitespace_reverse_nonempty : Forall (fun w => w <> []) (reverse <$> Py.whitespace).
Proof. apply (bool_decide_unpack _). vm_compute. exact I. Qed.

Lemma blank_nil : blank [].
Proof. by exists []. Qed.

Lemma lstrip_spec s :
  exists a, blank a /\ s = a ++ Py.lstrip s /\
            Forall (fun w => ~ w `prefix_of` Py.lstrip s) Py.whitespace.
Proof.
  unfold Py.lstrip.
  destruct (strip_left_split Py.whitespace whitespace_nonempty (length s) s)
    as (l & Hl & Hs).
  exists (concat l). split; [by exists l|]. split; [done|].
  by apply strip_left_done; [apply whitespace_nonempty|].
Qed.

Lemma suffix_reverse (w s : text) : w `suffix_of` s <-> reverse w `prefix_of` reverse s.
Proof.
  split.
  - intros [k ->]. exists (reverse k). by rewrite reverse_app.
  - intros [k Hk]. exists (reverse k). apply (inj reverse).
    by rewrite reverse_app, reverse_involutive.
Qed.

Lemma rstrip_spec s :
  exists b, blank b /\ s = Py.rstrip s ++ b /\
            Forall (fun w => ~ w `suffix_of` Py.rstrip s) Py.whitespace.
Proof.
  unfold Py.rstrip.
  destruct (strip_left_split (reverse <$> Py.whitespace) whitespace_reverse_nonempty
              (length s) (reverse s)) as (l & Hl & Hs).
  pose proof (strip_left_done (reverse <$> Py.whitespace) whitespace_reverse_nonempty
                (length s) (reverse s)) as Hdone.
  rewrite length_reverse in Hdone. specialize (Hdone (le_n _)).
  set (t := Py.strip_left (reverse <$> Py.whitespace) (length s) (reverse s)) in *.
  exists (reverse (concat l)). split_and!.
  - exists (reverse (reverse <$> l)). split.
    + apply Forall_reverse, Forall_fmap. eapply Forall_impl; [exact Hl|].
      intros w (w' & -> & Hw')%list_elem_of_fmap. simpl.
      by rewrite reverse_involutive.
    + clear. induction l as [|w l IH]; [done|].
      rewrite fmap_cons, reverse_cons, concat_app. cbn [concat].
      by rewrite reverse_app, IH, app_nil_r.
  - apply (inj reverse). by rewrite reverse_app, !reverse_involutive.
  - apply Forall_forall. intros w Hw Hsuf. apply suffix_reverse in Hsuf.
    rewrite reverse_involutive in Hsuf.
    rewrite Forall_fmap, Forall_forall in Hdone. by apply (Hdone w Hw).
Qed.

Lemma lstrip_id s :
  Forall (fun w => ~ w `prefix_of` s) Py.whitespace -> Py.lstrip s = s.
Proof. apply strip_left_id. Qed.

Lemma rstrip_id s :
  Forall (fun w => ~ w `suffix_of` s) Py.whitespace -> Py.rstrip s = s.
Proof.
  intros H. unfold Py.rstrip. rewrite strip_left_id; [apply reverse_involutive|].
  rewrite Forall_fmap. eapply Forall_impl; [exact H|]. intros w Hw Hp. simpl in Hp.
  apply Hw. apply suffix_reverse. exact Hp.
Qed.

Lemma blank_app a b : blank a -> blank b -> blank (a ++ b).
Proof.
  intros (l & Hl & ->) (l' & Hl' & ->). exists (l ++ l').
  split; [by apply Forall_app|by rewrite concat_app].
Qed.

(** [strip] cuts a run of whitespace at each end, and what it leaves has
    no whitespace character at either end. *)
Lemma strip_spec s :
  (exists a b : text, s = a ++ Py.strip s ++ b /\ blank a /\ blank b) /\
  no_space_at_ends (Py.strip s).
Proof.
  unfold Py.strip.
  destruct (lstrip_spec s) as (a & Ha & Hs & Hpre).
  destruct (rstrip_spec (Py.lstrip s)) as (b & Hb & Ht & Hsuf).
  split.
  - exists a, b. split; [|done]. by rewrite <- Ht.
  - unfold no_space_at_ends. rewrite Forall_forall in Hpre, Hsuf.
    apply Forall_forall. intros w Hw. split; [|by apply Hsuf].
    intros [k Hk]. apply (Hpre w Hw). exists (k ++ b). rewrite Ht at 1.
    by rewrite Hk, <- app_assoc.
Qed.

Lemma no_space_at_ends_strip s : no_space_at_ends s -> Py.strip s = s.
Proof.
  intros H. unfold Py.strip.
  rewrite lstrip_id by (eapply Forall_impl; [exact H|]; by intros w [? _]).
  apply rstrip_id. eapply Forall_impl; [exact H|]. by intros w [_ ?].
Qed.

Lemma trimmed_iff s : Py.strip s = s <-> no_space_at_ends s.
Proof.
  split; [|apply no_space_at_ends_strip].
  intros <-. apply strip_spec.
Qed.

Lemma strip_trimmed s : trimmed (Py.strip s).
Proof. apply no_space_at_ends_strip, strip_spec. Qed.

Lemma strip_Forall (P : ascii -> Prop) s : Forall P s -> Forall P (Py.strip s).
Proof.
  destruct (strip_spec s) as [(a & b & Hs & _) _]. intros H. rewrite Hs in H.
  by apply Forall_app in H as [_ [? _]%Forall_app].
Qed.

Lemma strip_nil : Py.strip [] = [].
Proof. reflexivity. Qed.

(** No whitespace character begins with another one: a text that begins
    with a whitespace character begins with that one only. *)
Lemma whitespace_first :
  Forall (fun w => forall rest,
            find (fun w' => Py.startswith w' (w ++ rest)) Py.whitespace = Some w)
         Py.whitespace.
Proof.
  assert (exists l, Py.whitespace = l /\
            Forall (fun w => forall rest,
                      find (fun w' => Py.startswith w' (w ++ rest)) l = Some w) l)
    as (l & <- & H); [|exact H].
  eexists. split; [vm_compute; reflexivity|].
  repeat (apply Forall_cons_2; [intros rest; vm_compute; reflexivity|]).
  apply Forall_nil_2.
Qed.

Lemma strip_left_blank l n :
  Forall (fun w => w ∈ Py.whitespace) l -> length l <= n ->
  Py.strip_left Py.whitespace n (concat l) = [].
Proof.
  intros Hl. revert n. induction Hl as [|w l Hw Hl IH]; intros n Hn.
  - by destruct n.
  - destruct n as [|n]; [simpl in Hn; lia|]. cbn [concat Py.strip_left].
    rewrite (proj1 (Forall_forall _ _) whitespace_first w Hw).
    rewrite drop_app_length. apply IH. simpl in Hn. lia.
Qed.

Lemma concat_length_nonempty (l : list text) :
  Forall (fun w => w <> []) l -> length l <= length (concat l).
Proof.
  induction 1 as [|w l Hw _ IH]; [done|]. simpl. rewrite length_app.
  destruct w; [done|]. simpl. lia.
Qed.

(** The texts that [strip] empties are the texts made of whitespace
    only. *)
Lemma strip_nil_iff s : Py.strip s = [] <-> blank s.
Proof.
  split.
  - intros H. destruct (strip_spec s) as [(a & b & Hs & Ha & Hb) _].
    rewrite H in Hs. rewrite Hs. by apply blank_app.
  - intros (l & Hl & ->). unfold Py.strip, Py.lstrip.
    rewrite strip_left_blank; [done..|].
    apply concat_length_nonempty. eapply Forall_impl; [exact Hl|].
    intros w Hw. by apply (proj1 (Forall_forall _ _) whitespace_nonempty).
Qed.

Lemma join_empty_sep parts : Py.join [] parts = concat parts.
Proof.
  induction parts as [|p [|q parts] IH]; [done| |].
  - simpl. by rewrite app_nil_r.
  - change (Py.join [] (p :: q :: parts)) with (p ++ [] ++ Py.join [] (q :: parts)).
    by rewrite IH.
Qed.

(** C1, as amended.  The values of the record that a fragment contains are
    escaped text: a markup-significant character stands in them only inside
    an escaped form or one of the four whitelisted tags (those written by
    the emphasis rules included); the citation body alone may also contain
    the newline reference that [cite_body] gives back.  Every value is the
    result of [esc], of [fmt] or of [cite_body], each of which escapes
    first. *)
Theorem C1_fragment_values_escaped (r : row) :
  render (article_pieces r) = article r /\
  Forall (value_escaped r) (values (article_pieces r)) /\
  (forall s, Inert (esc s)) /\
  (forall s, Marked (fmt s)) /\
  (forall bibtex, Escaped cite_tokens (cite_body bibtex)).
Proof.
  split; [apply article_render|]. split; [apply article_values|].
  split; [apply esc_Inert|]. split; [apply fmt_Marked|apply cite_body_Escaped].
Qed.

(** C1, as stated, fails: a record whose citation is the text of the
    newline reference has that reference, with its bare ampersand, among
    the values of its fragment, and the fragment shows it in the citation
    block. *)
Lemma C1_counterexample :
  let r : row := {[ ("bibtex" : text) := newline_reference ]} in
  newline_reference ∈ values (article_pieces r) /\
  ~ Marked newline_reference /\
  occurs "<pre><code>&#10;</code></pre>" (article r) = true.
Proof.
  split; [compute_done|]. split; [apply newline_reference_not_Marked|].
  vm_compute. reflexivity.
Qed.

Lemma normalize_section_prefix (s : text) :
  let t := Py.lower (Py.strip s) in
  (normalize_section s = ("journal" : text) <-> ("jour" : text) `prefix_of` t) /\
  (normalize_section s = ("working" : text) <-> ("work" : text) `prefix_of` t) /\
  (normalize_section s = ("conference" : text) <-> ("conf" : text) `prefix_of` t) /\
  (normalize_section s = ("other" : text) <->
     ~ ("jour" : text) `prefix_of` t /\ ~ ("work" : text) `prefix_of` t /\
     ~ ("conf" : text) `prefix_of` t) /\
  normalize_section "Journal Article" = ("journal" : text) /\
  normalize_section "conf." = ("conference" : text) /\
  normalize_section "Working Paper" = ("working" : text) /\
  normalize_section "misc" = ("other" : text) /\
  normalize_section [] = ("other" : text).
Proof.
  cbv zeta. unfold normalize_section. rewrite or_nil.
  set (t := Py.lower (Py.strip s)).
  rewrite <- !startswith_prefix.
  pose proof (startswith_head "j" "our" t) as Hj.
  pose proof (startswith_head "w" "ork" t) as Hw.
  pose proof (startswith_head "c" "onf" t) as Hc.
  change ("j"%char :: lit "our") with (lit "jour") in Hj.
  change ("w"%char :: lit "ork") with (lit "work") in Hw.
  change ("c"%char :: lit "onf") with (lit "conf") in Hc.
  destruct (Py.startswith "jour" t) eqn:Ej, (Py.startswith "work" t) eqn:Ew,
    (Py.startswith "conf" t) eqn:Ec;
    try (specialize (Hj eq_refl)); try (specialize (Hw eq_refl));
    try (specialize (Hc eq_refl)); try congruence;
    (repeat split; try done; try (by vm_compute);
     try (let H := fresh in intros H; vm_compute in H; discriminate H);
     try (by intros (? & ? & ?))).
Qed.

(** C2.  [normalize_section] trims and lowercases its argument and then
    decides by the beginning of the text: "jour" gives journal, "work"
    working, "conf" conference, anything else (the empty text too) other;
    the four examples of the specification come out as it says.  Trimming
    cuts a run of whitespace characters at each end and leaves none there;
    whitespace and letters are those of Unicode: a no-break space and an
    ideographic space around the text are trimmed, and the Kelvin sign is a
    capital k. *)
Theorem C2_normalize_section (s : text) :
  let t := Py.lower (Py.strip s) in
  (normalize_section s = ("journal" : text) <-> ("jour" : text) `prefix_of` t) /\
  (normalize_section s = ("working" : text) <-> ("work" : text) `prefix_of` t) /\
  (normalize_section s = ("conference" : text) <-> ("conf" : text) `prefix_of` t) /\
  (normalize_section s = ("other" : text) <->
     ~ ("jour" : text) `prefix_of` t /\ ~ ("work" : text) `prefix_of` t /\
     ~ ("conf" : text) `prefix_of` t) /\
  normalize_section "Journal Article" = ("journal" : text) /\
  normalize_section "conf." = ("conference" : text) /\
  normalize_section "Working Paper" = ("working" : text) /\
  normalize_section "misc" = ("other" : text) /\
  normalize_section [] = ("other" : text) /\
  (exists a b : text, s = a ++ Py.strip s ++ b /\ blank a /\ blank b) /\
  no_space_at_ends (Py.strip s) /\
  normalize_section (nbsp ++ "Journal Article" ++ ideographic_space) = ("journal" : text) /\
  normalize_section ("  CONFERENCE paper" ++ [nl]) = ("conference" : text) /\
  normalize_section ("WOR" ++ kelvin_sign ++ " shop") = ("working" : text) /\
  normalize_section ("a journal" : text) = ("other" : text).
Proof.
  pose proof (normalize_section_prefix s) as H. cbv zeta in H |- *.
  destruct H as (H1 & H2 & H3 & H4 & H5 & H6 & H7 & H8 & H9).
  destruct (strip_spec s) as [Hcut Hends].
  split_and!; first [assumption | vm_compute; reflexivity].
Qed.

Lemma authors_line (r : row) :
  let authors := Py.strip (get_or r "authors" []) in
  authors_html r =
    (if decide (authors = [] \/ Py.lower authors = ("solo" : text))
     then ("solo" : text) else "with " ++ esc authors) /\
  (authors_html r = ("solo" : text) <->
     authors = [] \/ Py.lower authors = ("solo" : text)) /\
  exists pre post,
    article r = pre ++ "<div class=`authors`>" ++ authors_html r ++ "</div>" ++ post.
Proof.
  cbv zeta. unfold authors_html. set (authors := Py.strip _).
  assert (negb (Py.truthy authors) || bool_decide (Py.lower authors = ("solo" : text)) = true
          <-> authors = [] \/ Py.lower authors = ("solo" : text)) as Hiff.
  { rewrite orb_true_iff, negb_true_iff, truthy_nil, bool_decide_eq_true. done. }
  split; [|split].
  - destruct (decide _) as [H|H].
    + apply Hiff in H. by rewrite H.
    + destruct (_ || _); [|done]. exfalso. by apply H, Hiff.
  - rewrite <- Hiff. destruct (_ || _); [done|]. split; [|done].
    intros H. exfalso.
    change (lit "with ") with ("w"%char :: lit "ith ") in H.
    change (lit "solo") with ("s"%char :: lit "olo") in H. discriminate.
  - fold authors. change (if _ || _ then lit "solo" else _) with (authors_html r).
    unfold article.
    generalize (authors_html r), (links r), (comment_html r), (abstract_html r),
      (esc (getd r "title" [])),
      (pills (getd r "status" []) (getd r "year" []) (getd r "venue" [])).
    intros au lk co ab ti pl.
    assert (lit "
        </div>
        <div class=`authors`>" = lit "
        </div>
        " ++ lit "<div class=`authors`>") as -> by reflexivity.
    assert (lit "</div>
        " = lit "</div>" ++ lit "
        ") as -> by reflexivity.
    exists ("
      <article class=`paper` itemscope itemtype=`https://schema.org/ScholarlyArticle`>
        <div class=`title-row`>
          <h3 class=`title` itemprop=`headline`>" ++ ti ++ "</h3>
          " ++ lk ++ "
        </div>
        <div class=`meta`>
          " ++ pl ++ "
        </div>
        "), ("
        " ++ co ++ "
        " ++ ab ++ "
      </article>").
    rewrite <- !app_assoc. reflexivity.
Qed.

(** C7, as amended.  The authorship line is the marker "solo" exactly when
    the trimmed authors field is empty or is "solo" in any mix of upper and
    lower case; otherwise it is "with " followed by the escaped trimmed
    field.  The line stands in the fragment between the tags of the authors
    division.  Trimming cuts a run of whitespace characters at each end of
    the field and leaves none there, a no-break space as well as a
    space. *)
Theorem C7_authors_line (r : row) :
  let authors := Py.strip (get_or r "authors" []) in
  authors_html r =
    (if decide (authors = [] \/ Py.lower authors = ("solo" : text))
     then ("solo" : text) else "with " ++ esc authors) /\
  (authors_html r = ("solo" : text) <->
     authors = [] \/ Py.lower authors = ("solo" : text)) /\
  (exists pre post,
    article r = pre ++ "<div class=`authors`>" ++ authors_html r ++ "</div>" ++ post) /\
  (exists a b : text, get_or r "authors" [] = a ++ authors ++ b /\ blank a /\ blank b) /\
  no_space_at_ends authors /\
  (authors = [] <-> blank (get_or r "authors" [])) /\
  authors_html {[ ("authors" : text) := "solo" ++ nbsp ]} = ("solo" : text) /\
  authors_html {[ ("authors" : text) := nbsp ++ " " ]} = ("solo" : text) /\
  authors_html {[ ("authors" : text) := " A. Author & B. Author" ++ ideographic_space ]}
    = ("with A. Author &amp; B. Author" : text) /\
  authors_html {[ ("authors" : text) := ("so lo" : text) ]} = ("with so lo" : text).
Proof.
  pose proof (authors_line r) as H. cbv zeta in H |- *.
  destruct H as (H1 & H2 & H3).
  destruct (strip_spec (get_or r "authors" [])) as [Hcut Hends].
  split_and!;
    lazymatch goal with
    | |- _ <-> blank _ => apply strip_nil_iff
    | |- forall s : text, _ => first [assumption | apply strip_spec]
    | |- _ => first [assumption | vm_compute; reflexivity]
    end.
Qed.

(** C7, as stated, fails: the authors field "Solo" is neither empty nor
    the literal "solo", yet the line is the marker and not "with Solo". *)
Lemma C7_counterexample :
  let r : row := {[ ("authors" : text) := ("Solo" : text) ]} in
  let authors := Py.strip (get_or r "authors" []) in
  authors = ("Solo" : text) /\ authors <> [] /\ authors <> ("solo" : text) /\
  authors_html r = ("solo" : text) /\
  authors_html r <> "with " ++ esc authors.
Proof. cbv zeta. repeat split; by vm_compute. Qed.

Lemma media_badges (r : row) :
  let media_raw := Py.strip (get_or r "media" []) in
  (media_part r = [] <-> media_raw = []) /\
  media_part r =
    (if decide (media_raw = []) then []
     else ["<details class=`tool media`>"
           ++ "<summary class=`btn` aria-label=`Media coverage`>"
           ++ "<svg class=`i` viewBox=`0 0 24 24` fill=`none` stroke=`currentColor` stroke-width=`2` stroke-linecap=`round` stroke-linejoin=`round`><path d=`M19 21H5a2 2 0 0 1-2-2V7a2 2 0 0 1 2-2h10l6 6v8a2 2 0 0 1-2 2z`/></svg>"
           ++ "<span>Media</span></summary>"
           ++ "<div class=`dropdown`><div class=`media-list`>"
           ++ concat (render_badge <$> badges media_raw)
           ++ "</div></div></details>"]) /\
  links r = Py.join (nl :: "            ")
              ([("<div class=`links`>" : text)] ++ paper_part r ++ slides_part r
               ++ doi_part r ++ cite_part r ++ media_part r ++ [("</div>" : text)]) /\
  Py.join ";" (Py.split ";" media_raw) = media_raw /\
  Forall (fun item => ";"%char ∉ item) (Py.split ";" media_raw) /\
  (forall item,
     label_url item =
       (Py.strip (before_first "|" item), Py.strip (after_first "|" item))) /\
  badges "Talk|http://x.test;NoURL" =
    [Linked "Talk" "http://x.test"; Unlinked "NoURL"] /\
  pills_html "Talk|http://x.test;NoURL" =
    [("<a class=`media-pill` href=`http://x.test` rel=`noopener`>Talk</a>" : text);
     ("<span class=`media-pill`>NoURL</span>" : text)] /\
  badges "|http://x.test" = [] /\
  pills_html "|http://x.test" = [].
Proof.
  cbv zeta. unfold media_part. set (media_raw := Py.strip _).
  split_and!.
  - destruct (Py.truthy media_raw) eqn:E.
    + split; [done|]. intros ->. done.
    + split; [|done]. intros _. by apply truthy_nil.
  - destruct (decide (media_raw = [])) as [->|Hne]; [done|].
    apply truthy_cons in Hne. rewrite Hne.
    by rewrite join_empty_sep, pills_html_badges.
  - unfold links, media_part. by rewrite <- !app_assoc.
  - apply (split_join ";"%char).
  - apply split_no_sep.
  - apply label_url_spec.
  - by vm_compute.
  - by vm_compute.
  - by vm_compute.
  - by vm_compute.
Qed.

(** C8.  The media control is part of the links exactly when the media
    field is not empty after trimming.  Its badges are those of the items
    between the semicolons: an item is cut at its first bar into label and
    url, both trimmed; an item without a label gives nothing, one with a
    url a linked badge, one without a plain badge.  The two examples of
    the specification come out as it says.  Trimming cuts a run of
    whitespace characters at each end and leaves none there; a field or a
    label made of no-break spaces is empty after trimming. *)
Theorem C8_media_badges (r : row) :
  let media_raw := Py.strip (get_or r "media" []) in
  (media_part r = [] <-> media_raw = []) /\
  media_part r =
    (if decide (media_raw = []) then []
     else ["<details class=`tool media`>"
           ++ "<summary class=`btn` aria-label=`Media coverage`>"
           ++ "<svg class=`i` viewBox=`0 0 24 24` fill=`none` stroke=`currentColor` stroke-width=`2` stroke-linecap=`round` stroke-linejoin=`round`><path d=`M19 21H5a2 2 0 0 1-2-2V7a2 2 0 0 1 2-2h10l6 6v8a2 2 0 0 1-2 2z`/></svg>"
           ++ "<span>Media</span></summary>"
           ++ "<div class=`dropdown`><div class=`media-list`>"
           ++ concat (render_badge <$> badges media_raw)
           ++ "</div></div></details>"]) /\
  links r = Py.join (nl :: "            ")
              ([("<div class=`links`>" : text)] ++ paper_part r ++ slides_part r
               ++ doi_part r ++ cite_part r ++ media_part r ++ [("</div>" : text)]) /\
  Py.join ";" (Py.split ";" media_raw) = media_raw /\
  Forall (fun item => ";"%char ∉ item) (Py.split ";" media_raw) /\
  (forall item,
     label_url item =
       (Py.strip (before_first "|" item), Py.strip (after_first "|" item))) /\
  badges "Talk|http://x.test;NoURL" =
    [Linked "Talk" "http://x.test"; Unlinked "NoURL"] /\
  pills_html "Talk|http://x.test;NoURL" =
    [("<a class=`media-pill` href=`http://x.test` rel=`noopener`>Talk</a>" : text);
     ("<span class=`media-pill`>NoURL</span>" : text)] /\
  badges "|http://x.test" = [] /\
  pills_html "|http://x.test" = [] /\
  (exists a b : text, get_or r "media" [] = a ++ media_raw ++ b /\ blank a /\ blank b) /\
  no_space_at_ends media_raw /\
  (media_raw = [] <-> blank (get_or r "media" [])) /\
  (forall s : text,
     (exists a b : text, s = a ++ Py.strip s ++ b /\ blank a /\ blank b) /\
     no_space_at_ends (Py.strip s)) /\
  media_part {[ ("media" : text) := nbsp ++ " " ]} = [] /\
  pills_html (nbsp ++ "|http://x.test") = [] /\
  badges (" Talk" ++ nbsp ++ "| http://x.test" ++ ideographic_space ++ ";" ++ nbsp)
    = [Linked "Talk" "http://x.test"].
Proof.
  pose proof (media_badges r) as H. cbv zeta in H |- *.
  destruct H as (H1 & H2 & H3 & H4 & H5 & H6 & H7 & H8 & H9 & H10).
  destruct (strip_spec (get_or r "media" [])) as [Hcut Hends].
  split_and!;
    lazymatch goal with
    | |- _ <-> blank _ => apply strip_nil_iff
    | |- forall s : text, _ => first [assumption | apply strip_spec]
    | |- _ => first [assumption | vm_compute; reflexivity]
    end.
Qed.

(** C10.  Wherever the citation text holds the characters of the newline
    reference, the citation body holds the reference itself and not its
    escaped form: [esc] writes the ampersand as an escaped form and the
    replacement that follows takes that back. *)
Theorem C10_newline_reference_restored (a b : text) (r : row) :
  cite_body (a ++ "&#10;" ++ b) = cite_body a ++ "&#10;" ++ cite_body b /\
  esc "&#10;" = ("&amp;#10;" : text) /\
  cite_body "&#10;" = ("&#10;" : text) /\
  cite_part (<[("bibtex" : text) := a ++ "&#10;" ++ b]> r) =
    ["<details class=`tool cite`>"
     ++ "<summary class=`btn` aria-label=`Cite this paper`>"
     ++ "<svg class=`i` viewBox=`0 0 24 24` fill=`none` stroke=`currentColor` stroke-width=`2` stroke-linecap=`round` stroke-linejoin=`round`><path d=`M14 2H6a2 2 0 0 0-2 2v16l4-4h6a2 2 0 0 0 2-2V4a2 2 0 0 0-2-2z`/></svg>"
     ++ "<span>Cite</span></summary>"
     ++ "<div class=`dropdown cite-body`><pre><code>"
     ++ (cite_body a ++ "&#10;" ++ cite_body b)
     ++ "</code></pre></div>"
     ++ "</details>"].
Proof.
  assert (cite_body (a ++ "&#10;" ++ b) = cite_body a ++ "&#10;" ++ cite_body b) as H.
  { unfold cite_body. rewrite !esc_app.
    change (esc (lit "&#10;")) with ("&"%char :: lit "amp;#10;").
    change (lit "&amp;#10;") with ("&"%char :: lit "amp;#10;").
    apply replace_occurrence. compute_done. }
  split; [exact H|]. split; [by vm_compute|]. split; [by vm_compute|].
  unfold cite_part. rewrite lookup_insert_eq.
  assert (Py.truthy (a ++ "&#10;" ++ b) = true) as ->.
  { apply truthy_cons. intros [_ Hnil]%app_eq_nil. discriminate. }
  cbv zeta. by rewrite H.
Qed.

(** C6, as amended.  [fmt] makes four passes over the escaped text, each
    over the result of the one before: the double star, the double
    underscore, the lone star, the lone underscore; then the eight
    replacements.  A pass turns a span between double markers into a strong
    span and a span between lone markers into an emphasis span.  The group
    of a match is the shortest one: it ends at the first place where the
    closing markers stand.  In the text that a pass is applied to, a marker
    next to another one is never the opening or the closing marker of an
    emphasis span; a star that stood next to another star in the text given
    to [fmt] can be one, once the pass of the double star has taken its
    neighbours.  A span without special characters between markers is
    rendered with the tags and without the markers, and the example of the
    specification comes out as it says. *)
Theorem C6_emphasis_rules :
  fmt "**bold** and *it*" = ("<strong>bold</strong> and <em>it</em>" : text) /\
  (forall x, plain_span x ->
     fmt ("**" ++ x ++ "**") = "<strong>" ++ x ++ "</strong>" /\
     fmt ("__" ++ x ++ "__") = "<strong>" ++ x ++ "</strong>" /\
     fmt ("*" ++ x ++ "*") = "<em>" ++ x ++ "</em>" /\
     fmt ("_" ++ x ++ "_") = "<em>" ++ x ++ "</em>") /\
  (forall m prev s g len,
     Re.double_marker m prev s = Some (g, len) <->
     double_match m s g /\ len = length g + 4) /\
  (forall m prev s g len,
     Re.single_marker m prev s = Some (g, len) <->
     single_match m prev s g /\ len = length g + 2) /\
  (forall p repl prev c s g len,
     p prev (c :: s) = Some (g, len) -> 1 <= len ->
     Re.sub_from p repl 0 prev (c :: s) =
       repl g ++ Re.sub_from p repl 0 (before prev (take len (c :: s)))
                             (drop len (c :: s))) /\
  (forall p repl prev c s,
     p prev (c :: s) = None ->
     Re.sub_from p repl 0 prev (c :: s) = c :: Re.sub_from p repl 0 (Some c) s) /\
  (forall s,
     fmt s =
       whitelist_pass
         (Re.sub (Re.single_marker underscore) em_repl
           (Re.sub (Re.single_marker star) em_repl
             (Re.sub (Re.double_marker underscore) strong_repl
               (Re.sub (Re.double_marker star) strong_repl (esc s)))))) /\
  (forall m prev s g len,
     Re.single_marker m prev s = Some (g, len) ->
     prev <> Some m /\
     exists rest, s = [m] ++ g ++ [m] ++ rest /\
       head g <> Some m /\ last g <> Some m /\ head rest <> Some m) /\
  Re.sub (Re.double_marker star) strong_repl "***a***" = ("<strong>*a</strong>*" : text) /\
  Re.sub (Re.single_marker star) em_repl "<strong>*a</strong>*"
    = ("<strong><em>a</strong></em>" : text) /\
  fmt "***a***" = ("<strong><em>a</strong></em>" : text).
Proof.
  split_and!.
  - by vm_compute.
  - apply fmt_plain_span.
  - apply double_marker_spec.
  - apply single_marker_spec.
  - intros. by apply sub_cons_match.
  - intros. by apply sub_cons_nomatch.
  - intros s. unfold fmt, whitelist_pass. by rewrite or_nil.
  - intros m prev s g len [(rest & Hs & Hne & _ & Hopen & Hclose & _) _]%single_marker_spec.
    destruct Hopen as [Hprev (r1 & Hr1 & Hh1)].
    destruct Hclose as [Hlast (r2 & Hr2 & Hh2)].
    split; [done|]. exists rest. split; [done|].
    simplify_eq/=. split_and!; [|done..].
    destruct g; [done|]. exact Hh1.
  - by vm_compute.
  - by vm_compute.
  - by vm_compute.
Qed.

(** C6, as stated, fails: in [***a***] the third star stands next to
    another star, yet it is taken as the opening marker of an emphasis
    span, and the tags that come out are not nested. *)
Lemma C6_counterexample :
  ("***a***" : text) = "**" ++ "*" ++ "a" ++ "*" ++ "**" /\
  Re.single_marker star (Some ">"%char) ("*" ++ "a</strong>" ++ "*")
    = Some (("a</strong>" : text), 12) /\
  fmt "***a***" = ("<strong><em>a</strong></em>" : text).
Proof. split_and!; by vm_compute. Qed.

(** ** Reading the table *)

(** A dictionary of [csv.DictReader] without the key [None] and without a
    list as a value. *)
Definition plain_dict (d : list (option text * pyval)) : Prop :=
  Forall (fun kv => is_Some kv.1 /\ forall l, kv.2 <> VList l) d.

Lemma dict_set_plain k v (d : list (option text * pyval)) :
  plain_dict d -> is_Some k -> (forall l, v <> VList l) -> plain_dict (dict_set k v d).
Proof.
  intros Hd Hk Hv. induction Hd as [|[k' v'] d Hkv Hd IH]; simpl.
  - by repeat constructor.
  - destruct (decide (k' = k)); constructor; done.
Qed.

Lemma dict_set_None_in v (d : list (option text * pyval)) :
  exists v', (None, v') ∈ dict_set None v d.
Proof.
  induction d as [|[k' v'] d [w IH]]; simpl.
  - exists v. left.
  - destruct (decide (k' = None)) as [->|]; [exists v; left|exists w; by right].
Qed.

Lemma DictReader_row_plain fieldnames record :
  length record <= length fieldnames -> plain_dict (DictReader_row fieldnames record).
Proof.
  intros Hlen. unfold DictReader_row.
  assert (plain_dict (foldl (fun d kv => dict_set (Some kv.1) (VStr kv.2) d) []
                        (zip fieldnames record))) as Hd.
  { generalize (zip fieldnames record). intros l.
    assert (plain_dict []) as H0 by constructor. revert H0.
    generalize (@nil (option text * pyval)).
    induction l as [|kv l IH]; intros d Hd; [done|]. simpl. apply IH.
    apply dict_set_plain; [done|by eexists|done]. }
  rewrite (proj2 (Nat.ltb_ge _ _) Hlen).
  destruct (Nat.ltb (length record) (length fieldnames)); [|done].
  revert Hd. generalize (foldl (fun d kv => dict_set (Some kv.1) (VStr kv.2) d) []
                           (zip fieldnames record)).
  induction (drop (length record) fieldnames) as [|key l IH]; intros d Hd; [done|].
  simpl. apply IH. apply dict_set_plain; [done|by eexists|done].
Qed.

Lemma DictReader_row_long fieldnames record :
  length fieldnames < length record ->
  exists v, (None, v) ∈ DictReader_row fieldnames record.
Proof.
  intros Hlen. unfold DictReader_row.
  rewrite (proj2 (Nat.ltb_lt _ _) Hlen). apply dict_set_None_in.
Qed.

Lemma for_each_Ok {A B} (f : A -> result B) (l : list A) :
  (exists bs, for_each f l = Ok bs) <-> Forall (fun a => exists b, f a = Ok b) l.
Proof.
  induction l as [|a l IH]; simpl.
  - split; [constructor|by eexists].
  - split.
    + intros [bs H]. destruct (f a) as [b|e] eqn:Ea; [|done].
      destruct (for_each f l) as [bs'|e] eqn:El; [|done].
      constructor; [by eexists|]. apply IH. by eexists.
    + intros H. inversion H as [|? ? [b Hb] Hl]; subst.
      apply IH in Hl as [bs Hbs]. rewrite Hb, Hbs. by eexists.
Qed.

Lemma for_each_Raise {A B} (f : A -> result B) (l : list A) e :
  for_each f l = Raise e -> exists a, a ∈ l /\ f a = Raise e.
Proof.
  induction l as [|a l IH]; simpl; [done|].
  destruct (f a) as [b|e'] eqn:Ea.
  - destruct (for_each f l) as [bs'|e''] eqn:El; [done|].
    intros [= ->]. destruct (IH eq_refl) as (a' & Ha' & Hf).
    exists a'. split; [by right|done].
  - intros [= ->]. exists a. split; [left|done].
Qed.

Lemma strip_item_Ok kv :
  (exists p, strip_item kv = Ok p) <->
  is_Some kv.1 /\ forall c l, kv.2 <> VList (c :: l).
Proof.
  destruct kv as [[k|] v]; unfold strip_item; simpl.
  - destruct v as [|s|[|c l]]; split; try (by intros [? ?]);
      try (intros _; split; [by eexists|done]); try (intros _; by eexists).
    intros [_ H]. by destruct (H c l).
  - split; [by intros [? ?]|]. by intros [[? ?] _].
Qed.

Lemma strip_dict_Ok d :
  (exists r, strip_dict d = Ok r) <->
  Forall (fun kv => is_Some kv.1 /\ forall c l, kv.2 <> VList (c :: l)) d.
Proof.
  unfold strip_dict. rewrite <- (Forall_iff _ d _ strip_item_Ok), <- for_each_Ok.
  destruct (for_each strip_item d) as [items|e]; simpl.
  - split; intros _; eexists; reflexivity.
  - split; intros [? ?]; discriminate.
Qed.

Lemma strip_dict_only_AttributeError d e : strip_dict d = Raise e -> e = AttributeError.
Proof.
  unfold strip_dict. destruct (for_each strip_item d) as [items|e'] eqn:E; [done|].
  intros [= ->]. apply for_each_Raise in E as ([[k|] v] & _ & H); unfold strip_item in H;
    simpl in H; [|congruence].
  destruct v as [|s|[|c l]]; congruence.
Qed.

Lemma DictReader_rows table :
  DictReader table = DictReader_row (header table) <$> data_records table.
Proof. by destruct table. Qed.

(** [read_rows] returns exactly when no record has more cells than the
    header; otherwise it ends in [AttributeError]. *)
Lemma read_rows_Ok table :
  (exists rows, read_rows table = Ok rows) <->
  Forall (fun record => length record <= length (header table))
         (data_records table).
Proof.
  unfold read_rows. rewrite for_each_Ok, DictReader_rows, Forall_fmap.
  apply Forall_iff. intros record. simpl. rewrite strip_dict_Ok. split.
  - intros H. destruct (decide (length record <= length (header table)));
      [done|].
    destruct (DictReader_row_long (header table) record) as [v Hv]; [lia|].
    rewrite Forall_forall in H. destruct (H _ Hv) as [[? Hk] _]. done.
  - intros Hlen. eapply Forall_impl; [by apply DictReader_row_plain|].
    intros kv [Hk Hv]. split; [done|]. intros c l. apply Hv.
Qed.

Lemma read_rows_Raise table e : read_rows table = Raise e -> e = AttributeError.
Proof.
  unfold read_rows. intros (d & _ & H)%for_each_Raise.
  by apply strip_dict_only_AttributeError in H.
Qed.

(** ** The run *)

Lemma section_keys_cases (P : text -> Prop) :
  P "journal" -> P "working" -> P "conference" -> P "other" ->
  forall k, k ∈ section_keys -> P k.
Proof.
  intros HJ HW HC HO k Hk. unfold section_keys in Hk.
  repeat (apply elem_of_cons in Hk as [->|Hk]; [done|]). by apply elem_of_nil in Hk.
Qed.

Lemma count_items_spec (b : buckets) (f : text -> list text) :
  (forall k, b !! k = if decide (k ∈ section_keys) then Some (f k) else None) ->
  count_items b =
    length (f "journal") + length (f "working") + length (f "conference")
    + length (f "other").
Proof.
  intros Hb.
  rewrite (buckets_eq b (f "journal") (f "working") (f "conference") (f "other")).
  - apply count_items_four.
  - intros k. rewrite Hb. destruct (decide (k ∈ section_keys)) as [Hk|]; [|done].
    f_equal. revert k Hk. apply section_keys_cases; by vm_compute.
Qed.

Lemma fill_buckets_count rows b :
  fill_buckets rows = Ok b -> count_items b = length rows.
Proof.
  intros Hb. destruct (fill_buckets_spec rows) as (b' & Hb' & Hlook).
  assert (b' = b) as -> by congruence.
  rewrite (count_items_spec b _ Hlook), !length_reverse, !length_fmap.
  apply rows_of_partition.
Qed.

Lemma items_of_spec rows b k :
  fill_buckets rows = Ok b -> k ∈ section_keys ->
  items_of b k = Ok (section_items k rows).
Proof.
  intros Hb Hk. destruct (fill_buckets_spec rows) as (b' & Hb' & Hlook).
  assert (b' = b) as -> by congruence.
  unfold items_of. by rewrite Hlook, decide_True.
Qed.

Lemma fill_shell_spec rows b :
  fill_buckets rows = Ok b -> fill_shell b = Ok (page_of rows).
Proof.
  intros Hb. unfold fill_shell.
  rewrite !(items_of_spec rows b) by (first [done | compute_done]).
  simpl. by rewrite fill_page.
Qed.

(** What a run does when the table can be read. *)
Lemma main_rows HERE table rows out so se :
  read_rows table = Ok rows ->
  main HERE (World (Some table) out so se) =
    (World (Some table) (Some (page_of rows)) (so ++ summary HERE (length rows)) se,
     Returned).
Proof.
  intros Hrows. unfold main. simpl. rewrite Hrows.
  destruct (fill_buckets_spec rows) as (b & Hb & _). rewrite Hb.
  by rewrite (fill_shell_spec rows b Hb), (fill_buckets_count rows b Hb).
Qed.

Lemma main_raise HERE table e out so se :
  read_rows table = Raise e ->
  main HERE (World (Some table) out so se) = (World (Some table) out so se, Uncaught e).
Proof. intros Hrows. unfold main. simpl. by rewrite Hrows. Qed.

Lemma article_nonempty r : article r <> [].
Proof. unfold article. discriminate. Qed.

Lemma join_nonempty sep p ps : p <> [] -> Py.join sep (p :: ps) <> [].
Proof. destruct p; [done|]. by destruct ps. Qed.

Lemma section_items_cases k rows :
  section_items k rows =
    if decide (rows_of k rows = []) then [nl]
    else Py.join [nl] (reverse (article <$> rows_of k rows)).
Proof.
  unfold section_items. destruct (decide _) as [->|Hne]; [done|].
  destruct (reverse (article <$> rows_of k rows)) as [|p ps] eqn:E.
  - apply (f_equal length) in E. rewrite length_reverse, length_fmap in E.
    by destruct (rows_of k rows).
  - assert (p ∈ reverse (article <$> rows_of k rows)) as Hp by (rewrite E; left).
    rewrite elem_of_reverse in Hp. apply list_elem_of_fmap in Hp as (r & -> & _).
    unfold Py.or_. pose proof (join_nonempty [nl] (article r) ps (article_nonempty r)).
    by destruct (Py.join _ _).
Qed.

Lemma shown_clean (X W C O : text) :
  "{"%char ∉ X ->
  shown_journal X W C O = X /\ shown_working X C O = X /\ shown_conference X O = X.
Proof.
  intros HX. unfold shown_journal, shown_working, shown_conference.
  change (lit "{{OTHER_ITEMS}}") with ("{"%char :: lit "{OTHER_ITEMS}}").
  change (lit "{{CONF_ITEMS}}") with ("{"%char :: lit "{CONF_ITEMS}}").
  change (lit "{{WORKING_ITEMS}}") with ("{"%char :: lit "{WORKING_ITEMS}}").
  by rewrite !(replace_absent _ _ _ X).
Qed.

(** C3.  Each record goes to the bucket of its normalized section, which
    is one of the four; the buckets hold the fragments of their records and
    nothing else, so their sizes add up to the number of rows, and that
    number is the count of the summary line. *)
Theorem C3_partition_complete HERE table rows out so se :
  read_rows table = Ok rows ->
  exists b : buckets,
    fill_buckets rows = Ok b /\
    (forall k, b !! k =
       if decide (k ∈ section_keys)
       then Some (reverse (article <$> rows_of k rows)) else None) /\
    (forall r, section_of r ∈ section_keys) /\
    NoDup section_keys /\
    length (rows_of "journal" rows) + length (rows_of "working" rows)
      + length (rows_of "conference" rows) + length (rows_of "other" rows)
      = length rows /\
    count_items b = length rows /\
    stdout (main HERE (World (Some table) out so se)).1 =
      so ++ "Wrote " ++ OUT_FILE HERE ++ " (" ++ Py.str_of_nat (length rows)
         ++ " items)." ++ [nl].
Proof.
  intros Hrows. destruct (fill_buckets_spec rows) as (b & Hb & Hlook).
  exists b. split_and!; try done.
  - apply section_of_keys.
  - compute_done.
  - apply rows_of_partition.
  - by apply fill_buckets_count.
  - by rewrite (main_rows _ _ _ _ _ _ Hrows).
Qed.

Lemma example_read : read_rows example_table = Ok example_rows.
Proof. reflexivity. Qed.

Lemma C3_partition_complete_witness :
  exists b : buckets,
    fill_buckets example_rows = Ok b /\
    (forall k, b !! k =
       if decide (k ∈ section_keys)
       then Some (reverse (article <$> rows_of k example_rows)) else None) /\
    (forall r, section_of r ∈ section_keys) /\
    NoDup section_keys /\
    length (rows_of "journal" example_rows) + length (rows_of "working" example_rows)
      + length (rows_of "conference" example_rows) + length (rows_of "other" example_rows)
      = length example_rows /\
    count_items b = length example_rows /\
    stdout (main "/site" (World (Some example_table) None [] [])).1 =
      [] ++ "Wrote " ++ OUT_FILE "/site" ++ " (" ++ Py.str_of_nat (length example_rows)
         ++ " items)." ++ [nl].
Proof.
  apply (C3_partition_complete "/site" example_table example_rows None [] []).
  reflexivity.
Defined.

(** C4.  A bucket holds the fragments of its records in the order of the
    table, reversed once: the fragment of the last record comes first.
    Three records of one section, given in the order A, B, C, stand in the
    bucket and in the page in the order C, B, A. *)
Theorem C4_reverse_order (rows : list row) (s : text) (a b c : row) :
  (exists bk : buckets,
     fill_buckets rows = Ok bk /\
     Forall (fun k => bk !! k = Some (reverse (article <$> rows_of k rows)) /\
                      rows_of k rows `sublist_of` rows /\
                      items_of bk k = Ok (section_items k rows))
            section_keys) /\
  let A : row := <[("section" : text) := s]> a in
  let B : row := <[("section" : text) := s]> b in
  let C : row := <[("section" : text) := s]> c in
  exists bk : buckets,
    fill_buckets [A; B; C] = Ok bk /\
    bk !! normalize_section s = Some [article C; article B; article A] /\
    items_of bk (normalize_section s) =
      Ok (article C ++ [nl] ++ article B ++ [nl] ++ article A).
Proof.
  split.
  - destruct (fill_buckets_spec rows) as (bk & Hb & Hlook). exists bk.
    split; [done|]. apply Forall_forall. intros k Hk. split_and!.
    + by rewrite Hlook, decide_True.
    + apply sublist_filter.
    + by apply (items_of_spec rows).
  - cbv zeta.
    set (A := <[lit "section" := s]> a). set (B := <[lit "section" := s]> b).
    set (C := <[lit "section" := s]> c).
    destruct (fill_buckets_spec [A; B; C]) as (bk & Hb & Hlook). exists bk.
    assert (forall x : row, section_of (<[lit "section" := s]> x) = normalize_section s) as Hsec.
    { intros x. unfold section_of, getd. by rewrite lookup_insert_eq. }
    assert (rows_of (normalize_section s) [A; B; C] = [A; B; C]) as Hrows.
    { rewrite !rows_of_cons. subst A B C. by rewrite !Hsec, !decide_True. }
    assert (bk !! normalize_section s = Some [article C; article B; article A]) as Hbk.
    { rewrite Hlook, decide_True by apply normalize_section_keys. by rewrite Hrows. }
    split; [done|]. split; [done|].
    unfold items_of. rewrite Hbk.
    change (Py.join [nl] [article C; article B; article A])
      with (article C ++ [nl] ++ article B ++ [nl] ++ article A).
    unfold Py.or_. pose proof (article_nonempty C).
    by destruct (article C).
Qed.

(** C5: the code at the failing input, and around it.  Without the table
    the run writes its two lines to the error stream and exits with status
    1, the page left as it was.  With a table the run returns when no
    record has more cells than the header; a record with more cells ends
    the run in an uncaught [AttributeError], the page left as it was. *)
Theorem C5_missing_table_and_long_record HERE table out so se :
  main HERE (World None out so se) =
    (World None out so
       (se ++ ("ERROR: publications.csv not found next to build_publications.py" ++ [nl])
           ++ ("Create the CSV (see template) and run again." ++ [nl])),
     Exit 1) /\
  main HERE (World (Some [["title" : text; "section" : text];
                          ["a" : text; "b" : text; "c" : text]]) out so se) =
    (World (Some [["title" : text; "section" : text];
                  ["a" : text; "b" : text; "c" : text]]) out so se,
     Uncaught AttributeError) /\
  main HERE (World (Some table) out so se) =
    (if decide (Forall (fun record => length record <= length (header table))
                       (data_records table))
     then match read_rows table with
          | Ok rows =>
              (World (Some table) (Some (page_of rows))
                     (so ++ summary HERE (length rows)) se, Returned)
          | Raise _ => (World (Some table) out so se, Uncaught AttributeError)
          end
     else (World (Some table) out so se, Uncaught AttributeError)) /\
  (Forall (fun record => length record <= length (header table)) (data_records table)
   <-> exists rows, read_rows table = Ok rows).
Proof.
  split_and!.
  - unfold main. simpl. by rewrite <- app_assoc.
  - by apply main_raise.
  - destruct (read_rows table) as [rows|e] eqn:E.
    + rewrite decide_True; [by apply main_rows|]. apply read_rows_Ok. by eexists.
    + rewrite (read_rows_Raise _ _ E) in E. rewrite (main_raise _ _ _ _ _ _ E).
      by destruct (decide _).
  - symmetry. apply read_rows_Ok.
Qed.

(** C9.  The page that is written is the fixed page with its four sections
    in the order journal, conference, working, other, each with the content
    of its bucket between its opening and its closing; a bucket without
    record gives one line feed as content, the section stays. *)
Theorem C9_four_sections HERE table rows out so se :
  read_rows table = Ok rows ->
  let journal := section_items "journal" rows in
  let working := section_items "working" rows in
  let conference := section_items "conference" rows in
  let other := section_items "other" rows in
  out_file (main HERE (World (Some table) out so se)).1 =
    Some (page_head
          ++ journal_open ++ shown_journal journal working conference other
          ++ section_close ++ [nl; nl; nl]
          ++ conference_open ++ shown_conference conference other
          ++ section_close ++ [nl]
          ++ working_open ++ shown_working working conference other
          ++ section_close ++ [nl]
          ++ other_open ++ other ++ section_close ++ [nl]
          ++ page_tail) /\
  Forall (fun k => section_items k rows =
                     if decide (rows_of k rows = []) then [nl]
                     else Py.join [nl] (reverse (article <$> rows_of k rows)))
         section_keys /\
  (forall X W C O : text,
     "{"%char ∉ X ->
     shown_journal X W C O = X /\ shown_working X C O = X /\ shown_conference X O = X) /\
  SHELL = page "{{JOURNAL_ITEMS}}" "{{CONF_ITEMS}}" "{{WORKING_ITEMS}}" "{{OTHER_ITEMS}}".
Proof.
  intros Hrows. cbv zeta. split_and!.
  - by rewrite (main_rows _ _ _ _ _ _ Hrows).
  - apply Forall_forall. intros k _. apply section_items_cases.
  - apply shown_clean.
  - by rewrite page_template, SHELL_template.
Qed.

Lemma C9_four_sections_witness :
  let rows := example_rows in
  let journal := section_items "journal" rows in
  let working := section_items "working" rows in
  let conference := section_items "conference" rows in
  let other := section_items "other" rows in
  out_file (main "/site" (World (Some example_table) None [] [])).1 =
    Some (page_head
          ++ journal_open ++ shown_journal journal working conference other
          ++ section_close ++ [nl; nl; nl]
          ++ conference_open ++ shown_conference conference other
          ++ section_close ++ [nl]
          ++ working_open ++ shown_working working conference other
          ++ section_close ++ [nl]
          ++ other_open ++ other ++ section_close ++ [nl]
          ++ page_tail) /\
  Forall (fun k => section_items k rows =
                     if decide (rows_of k rows = []) then [nl]
                     else Py.join [nl] (reverse (article <$> rows_of k rows)))
         section_keys /\
  (forall X W C O : text,
     "{"%char ∉ X ->
     shown_journal X W C O = X /\ shown_working X C O = X /\ shown_conference X O = X) /\
  SHELL = page "{{JOURNAL_ITEMS}}" "{{CONF_ITEMS}}" "{{WORKING_ITEMS}}" "{{OTHER_ITEMS}}".
Proof.
  apply (C9_four_sections "/site" example_table example_rows None [] []).
  reflexivity.
Defined.

(** ** More about [esc] *)

Lemma escape_char_cases c :
  (c = "&"%char /\ escape_char c = "&amp;") \/
  (c = "<"%char /\ escape_char c = "&lt;") \/
  (c = ">"%char /\ escape_char c = "&gt;") \/
  (c = dquote /\ escape_char c = "&quot;") \/
  (c = "'"%char /\ escape_char c = "&#x27;") \/
  ((c ∉ ("&<>`'" : text)) /\ escape_char c = [c]).
Proof.
  unfold escape_char. repeat (case_decide; [tauto|]).
  do 5 right. split; [|done].
  change (lit "&<>`'") with ["&"; "<"; ">"; dquote; "'"]%char.
  rewrite !elem_of_cons, elem_of_nil. tauto.
Qed.

Lemma escape_char_inj_app c d X Y :
  escape_char c ++ X = escape_char d ++ Y -> c = d /\ X = Y.
Proof.
  assert (forall e : ascii, e ∉ ("&<>`'" : text) -> e <> "&"%char) as Hamp.
  { intros e He ->. apply He. compute_done. }
  destruct (escape_char_cases c) as [[-> ->]|[[-> ->]|[[-> ->]|[[-> ->]|[[-> ->]|[Hc ->]]]]]];
    destruct (escape_char_cases d) as [[-> ->]|[[-> ->]|[[-> ->]|[[-> ->]|[[-> ->]|[Hd ->]]]]]];
    intros H; vm_compute in H; try discriminate H;
    try (injection H as <-; done);
    try (injection H; intros; subst; by (apply Hamp in Hc || apply Hamp in Hd)).
Qed.

Lemma escape_char_nonempty c : escape_char c <> [].
Proof.
  destruct (escape_char_cases c) as [[_ ->]|[[_ ->]|[[_ ->]|[[_ ->]|[[_ ->]|[_ ->]]]]]];
    discriminate.
Qed.

Lemma esc_cons c s : esc (c :: s) = escape_char c ++ esc s.
Proof. by rewrite !esc_flat_map. Qed.

Lemma esc_length s : length s <= length (esc s).
Proof.
  induction s as [|c s IH]; [done|]. rewrite esc_cons, length_app. simpl.
  pose proof (escape_char_nonempty c). destruct (escape_char c); [done|simpl; lia].
Qed.

(** X1.  [esc] works character by character: the escaped form of a
    concatenation is the concatenation of the escaped forms, and the
    empty text (which stands for [None] as well) gives the empty text. *)
Theorem X1_esc_concatenation (a b : text) :
  esc (a ++ b) = esc a ++ esc b /\ esc [] = [] /\
  (forall c s, esc (c :: s) = escape_char c ++ esc s) /\
  length (a ++ b) <= length (esc (a ++ b)).
Proof.
  split_and!; [apply esc_app|done|apply esc_cons|apply esc_length].
Qed.

(** X2.  [esc] loses nothing: two texts with the same escaped form are the
    same text. *)
Theorem X2_esc_injective (a b : text) : esc a = esc b <-> a = b.
Proof.
  split; [|by intros ->]. revert b.
  induction a as [|c a IH]; intros [|d b]; rewrite ?esc_cons.
  - done.
  - change (esc []) with (@nil ascii). intros H. symmetry in H.
    apply app_eq_nil in H as [H _]. by apply escape_char_nonempty in H.
  - change (esc []) with (@nil ascii). intros H.
    apply app_eq_nil in H as [H _]. by apply escape_char_nonempty in H.
  - intros [-> H]%escape_char_inj_app. by rewrite (IH b H).
Qed.

(** X3.  The escaped form has none of the characters less-than,
    greater-than, double quote and apostrophe, and [esc] changes a text
    exactly when the text has one of the five characters it rewrites. *)
Theorem X3_esc_raw_characters (s : text) :
  Forall (fun c => c ∉ ("<>`'" : text)) (esc s) /\
  (esc s = s <-> Forall (fun c => c ∉ ("&<>`'" : text)) s).
Proof.
  split.
  - induction s as [|c s IH]; [constructor|]. rewrite esc_cons. apply Forall_app_2; [|done].
    destruct (escape_char_cases c) as [[_ ->]|[[_ ->]|[[_ ->]|[[_ ->]|[[_ ->]|[Hc ->]]]]]];
      try compute_done.
    constructor; [|constructor]. intros H. apply Hc. revert H.
    change (lit "&<>`'") with ["&"; "<"; ">"; dquote; "'"]%char.
    change (lit "<>`'") with ["<"; ">"; dquote; "'"]%char.
    rewrite !elem_of_cons. tauto.
  - split; [|apply esc_plain].
    induction s as [|c s IH]; [constructor|]. rewrite esc_cons. intros H.
    destruct (escape_char_cases c) as [[_ E]|[[_ E]|[[_ E]|[[_ E]|[[_ E]|[Hc E]]]]]];
      try (exfalso; apply (f_equal length) in H; rewrite length_app, E in H;
           pose proof (esc_length s);
           assert (2 <= length (escape_char c)) as Hlen by (rewrite E; vm_compute; lia);
           rewrite E in Hlen; simpl in H; lia).
    rewrite E in H.
    injection H as H. constructor; [done|by apply IH].
Qed.

(** ** More about [fmt] *)

Lemma fmt_whitelist_pass s :
  fmt s =
    whitelist_pass
      (Re.sub (Re.single_marker underscore) em_repl
        (Re.sub (Re.single_marker star) em_repl
          (Re.sub (Re.double_marker underscore) strong_repl
            (Re.sub (Re.double_marker star) strong_repl (esc (Py.or_ s [])))))).
Proof. reflexivity. Qed.

Lemma plain_text_not (x : text) (m : ascii) :
  plain_text x -> m ∈ ("*_&<>`'" : text) -> m ∉ x.
Proof.
  intros Hx Hm Hin. unfold plain_text in Hx. rewrite Forall_forall in Hx.
  by apply (Hx _ Hin).
Qed.

Lemma plain_text_esc x : plain_text x -> esc x = x.
Proof.
  intros Hx. apply esc_plain. eapply Forall_impl; [exact Hx|].
  intros c Hc Hin. apply Hc. revert Hin.
  change (lit "&<>`'") with ["&"; "<"; ">"; dquote; "'"]%char.
  change (lit "*_&<>`'") with ["*"; "_"; "&"; "<"; ">"; dquote; "'"]%char.
  rewrite !elem_of_cons. tauto.
Qed.

Lemma subs_absent (t : text) :
  star ∉ t -> underscore ∉ t ->
  Re.sub (Re.single_marker underscore) em_repl
    (Re.sub (Re.single_marker star) em_repl
      (Re.sub (Re.double_marker underscore) strong_repl
        (Re.sub (Re.double_marker star) strong_repl t))) = t.
Proof.
  intros Hs Hu. unfold Re.sub.
  rewrite (sub_absent _ _ star (double_marker_pattern _)) by done.
  rewrite (sub_absent _ _ underscore (double_marker_pattern _)) by done.
  rewrite (sub_absent _ _ star (single_marker_pattern _)) by done.
  by rewrite (sub_absent _ _ underscore (single_marker_pattern _)) by done.
Qed.

(** X4.  [fmt] leaves a text as it is when the text has no marker and no
    character that [html.escape] rewrites; line feeds and all other
    characters are kept. *)
Theorem X4_fmt_plain_text (x : text) : plain_text x -> fmt x = x.
Proof.
  intros Hx. rewrite fmt_whitelist_pass, or_nil, (plain_text_esc x Hx).
  rewrite subs_absent by (apply plain_text_not; [done|compute_done]).
  apply whitelist_absent. apply plain_text_not; [done|compute_done].
Qed.

Lemma X4_fmt_plain_text_witness : fmt "plain text, two
lines" = ("plain text, two
lines" : text).
Proof.
  apply (X4_fmt_plain_text "plain text, two
lines"). unfold plain_text. apply (bool_decide_unpack _). vm_compute. exact I.
Defined.

Lemma differs_startswith p s r : differs p s = true -> Py.startswith p (s ++ r) = false.
Proof.
  revert s. induction p as [|a p IH]; intros [|b s]; simpl; try done.
  intros [H|H]%orb_true_iff.
  - apply negb_true_iff in H. by rewrite H.
  - rewrite (IH _ H). apply andb_false_r.
Qed.

Lemma differs_startswith_nil p s : differs p s = true -> Py.startswith p s = false.
Proof. intros H. rewrite <- (app_nil_r s). by apply differs_startswith. Qed.

Lemma safe_cut_drop old A k : safe_cut old A = true -> safe_cut old (drop k A) = true.
Proof.
  revert A. induction k as [|k IH]; intros [|c A]; simpl; try done.
  intros [_ H]%andb_true_iff. by apply IH.
Qed.

(** The occurrences of [old] that begin in [A] are the same whatever
    follows [A]. *)
Lemma replace_safe_cut old new A R :
  old <> [] -> safe_cut old A = true ->
  Py.replace old new (A ++ R) = Py.replace old new A ++ Py.replace old new R.
Proof.
  intros Hold. remember (length A) as n eqn:Hn. revert A Hn.
  induction n as [n IH] using lt_wf_ind. intros A -> HA.
  destruct A as [|c A]; [done|].
  simpl in HA. apply andb_true_iff in HA as [H0 HA].
  change ((c :: A) ++ R) with (c :: (A ++ R)). rewrite !replace_cons by done.
  apply orb_true_iff in H0 as [H0|H0].
  - rewrite H0. pose proof H0 as [r Hr]%startswith_prefix.
    change (c :: A ++ R) with ((c :: A) ++ R). rewrite Hr, <- app_assoc.
    rewrite startswith_app, !drop_app_length, <- app_assoc. f_equal.
    eapply IH; [|done|].
    + rewrite Hr, length_app. destruct old; [done|simpl; lia].
    + assert (r = drop (length old) (c :: A)) as -> by (by rewrite Hr, drop_app_length).
      apply safe_cut_drop. simpl. rewrite H0, HA. done.
  - change (c :: A ++ R) with ((c :: A) ++ R).
    rewrite (differs_startswith _ _ _ H0), (differs_startswith_nil _ _ H0).
    simpl. f_equal. eapply IH; [|done..]. simpl; lia.
Qed.

Lemma replace_tagged h old new (A x B : text) :
  safe_cut (h :: old) A = true -> h ∉ x ->
  Py.replace (h :: old) new (A ++ x ++ B) =
    Py.replace (h :: old) new A ++ x ++ Py.replace (h :: old) new B.
Proof.
  intros HA Hx. rewrite replace_safe_cut by done. by rewrite replace_skip.
Qed.

Lemma whitelist_pass_tagged (A x B : text) :
  "&"%char ∉ x ->
  safe_cut "&lt;em&gt;" A = true ->
  safe_cut "&lt;/em&gt;" (Py.replace "&lt;em&gt;" "<em>" A) = true ->
  safe_cut "&lt;i&gt;"
    (Py.replace "&lt;/em&gt;" "</em>" (Py.replace "&lt;em&gt;" "<em>" A)) = true ->
  safe_cut "&lt;/i&gt;"
    (Py.replace "&lt;i&gt;" "<em>"
      (Py.replace "&lt;/em&gt;" "</em>" (Py.replace "&lt;em&gt;" "<em>" A))) = true ->
  safe_cut "&lt;strong&gt;"
    (Py.replace "&lt;/i&gt;" "</em>"
      (Py.replace "&lt;i&gt;" "<em>"
        (Py.replace "&lt;/em&gt;" "</em>" (Py.replace "&lt;em&gt;" "<em>" A)))) = true ->
  safe_cut "&lt;/strong&gt;"
    (Py.replace "&lt;strong&gt;" "<strong>"
      (Py.replace "&lt;/i&gt;" "</em>"
        (Py.replace "&lt;i&gt;" "<em>"
          (Py.replace "&lt;/em&gt;" "</em>" (Py.replace "&lt;em&gt;" "<em>" A))))) = true ->
  safe_cut "&lt;b&gt;"
    (Py.replace "&lt;/strong&gt;" "</strong>"
      (Py.replace "&lt;strong&gt;" "<strong>"
        (Py.replace "&lt;/i&gt;" "</em>"
          (Py.replace "&lt;i&gt;" "<em>"
            (Py.replace "&lt;/em&gt;" "</em>" (Py.replace "&lt;em&gt;" "<em>" A)))))) = true ->
  safe_cut "&lt;/b&gt;"
    (Py.replace "&lt;b&gt;" "<strong>"
      (Py.replace "&lt;/strong&gt;" "</strong>"
        (Py.replace "&lt;strong&gt;" "<strong>"
          (Py.replace "&lt;/i&gt;" "</em>"
            (Py.replace "&lt;i&gt;" "<em>"
              (Py.replace "&lt;/em&gt;" "</em>" (Py.replace "&lt;em&gt;" "<em>" A))))))) = true ->
  whitelist_pass (A ++ x ++ B) = whitelist_pass A ++ x ++ whitelist_pass B.
Proof.
  intros Hx H1 H2 H3 H4 H5 H6 H7 H8. unfold whitelist_pass.
  change (lit "&lt;em&gt;") with ("&"%char :: lit "lt;em&gt;") in *.
  change (lit "&lt;/em&gt;") with ("&"%char :: lit "lt;/em&gt;") in *.
  change (lit "&lt;i&gt;") with ("&"%char :: lit "lt;i&gt;") in *.
  change (lit "&lt;/i&gt;") with ("&"%char :: lit "lt;/i&gt;") in *.
  change (lit "&lt;strong&gt;") with ("&"%char :: lit "lt;strong&gt;") in *.
  change (lit "&lt;/strong&gt;") with ("&"%char :: lit "lt;/strong&gt;") in *.
  change (lit "&lt;b&gt;") with ("&"%char :: lit "lt;b&gt;") in *.
  change (lit "&lt;/b&gt;") with ("&"%char :: lit "lt;/b&gt;") in *.
  rewrite (replace_tagged _ _ _ _ _ _ H1 Hx), (replace_tagged _ _ _ _ _ _ H2 Hx),
    (replace_tagged _ _ _ _ _ _ H3 Hx), (replace_tagged _ _ _ _ _ _ H4 Hx),
    (replace_tagged _ _ _ _ _ _ H5 Hx), (replace_tagged _ _ _ _ _ _ H6 Hx),
    (replace_tagged _ _ _ _ _ _ H7 Hx), (replace_tagged _ _ _ _ _ _ H8 Hx).
  reflexivity.
Qed.

Lemma fmt_tagged (open close : text) (x : text) :
  plain_text x ->
  bool_decide (star ∉ esc open ++ esc close) = true ->
  bool_decide (underscore ∉ esc open ++ esc close) = true ->
  fmt (open ++ x ++ close) = whitelist_pass (esc open ++ x ++ esc close).
Proof.
  intros Hx Hs%bool_decide_eq_true Hu%bool_decide_eq_true.
  rewrite fmt_whitelist_pass, or_nil, !esc_app, (plain_text_esc x Hx).
  rewrite subs_absent; [done|..].
  - rewrite !elem_of_app in *. intros [?|[?|?]]; [tauto| |tauto].
    by apply (plain_text_not x star Hx); [compute_done|].
  - rewrite !elem_of_app in *. intros [?|[?|?]]; [tauto| |tauto].
    by apply (plain_text_not x underscore Hx); [compute_done|].
Qed.

(** X5.  The four tags a user may type come out as tags: around a text
    without markers and special characters, [<em>] and [<i>] give an
    emphasis span, [<strong>] and [<b>] a strong span; a tag outside the
    whitelist stays escaped. *)
Theorem X5_fmt_whitelisted_tags (x : text) :
  plain_text x ->
  fmt ("<em>" ++ x ++ "</em>") = "<em>" ++ x ++ "</em>" /\
  fmt ("<i>" ++ x ++ "</i>") = "<em>" ++ x ++ "</em>" /\
  fmt ("<strong>" ++ x ++ "</strong>") = "<strong>" ++ x ++ "</strong>" /\
  fmt ("<b>" ++ x ++ "</b>") = "<strong>" ++ x ++ "</strong>" /\
  fmt ("<u>" ++ x ++ "</u>") = "&lt;u&gt;" ++ x ++ "&lt;/u&gt;".
Proof.
  intros Hx.
  assert ("&"%char ∉ x) as Ha by (apply plain_text_not; [done|compute_done]).
  assert (forall a a' b b' : text, a = a' -> b = b' -> a ++ x ++ b = a' ++ x ++ b') as Heq
    by (by intros ? ? ? ? -> ->).
  split_and!; rewrite fmt_tagged by (first [done | vm_compute; reflexivity]);
    rewrite whitelist_pass_tagged by (first [done | vm_compute; reflexivity]);
    apply Heq; vm_compute; reflexivity.
Qed.

Lemma X5_fmt_whitelisted_tags_witness :
  fmt ("<em>" ++ "so" ++ "</em>") = "<em>" ++ "so" ++ "</em>" /\
  fmt ("<i>" ++ "so" ++ "</i>") = "<em>" ++ "so" ++ "</em>" /\
  fmt ("<strong>" ++ "so" ++ "</strong>") = "<strong>" ++ "so" ++ "</strong>" /\
  fmt ("<b>" ++ "so" ++ "</b>") = "<strong>" ++ "so" ++ "</strong>" /\
  fmt ("<u>" ++ "so" ++ "</u>") = "&lt;u&gt;" ++ "so" ++ "&lt;/u&gt;".
Proof.
  apply (X5_fmt_whitelisted_tags "so").
  unfold plain_text. apply (bool_decide_unpack _). vm_compute. exact I.
Defined.

(** ** More about the citation body *)

Lemma prefix_of_replace h old new (t s : text) :
  h ∉ t -> t `prefix_of` Py.replace (h :: old) (h :: new) s -> t `prefix_of` s.
Proof.
  revert s. induction t as [|c t IH]; intros s Ht Hp; [apply prefix_nil|].
  apply not_elem_of_cons in Ht as [Hc Ht].
  destruct s as [|d s].
  - rewrite replace_nil in Hp. by apply prefix_nil_not in Hp.
  - rewrite replace_cons in Hp by done.
    destruct (Py.startswith (h :: old) (d :: s)).
    + destruct Hp as [k Hk]. simplify_eq/=.
    + destruct Hp as [k Hk]. simplify_eq/=. apply prefix_cons, IH; [done|].
      by exists k.
Qed.

Lemma occurs_false_iff p s :
  occurs p s = false <-> forall a b, s <> a ++ p ++ b.
Proof.
  induction s as [|c s IH]; simpl.
  - rewrite orb_false_r. split.
    + intros H a b Heq. symmetry in Heq.
      apply app_eq_nil in Heq as [-> [-> _]%app_eq_nil]. done.
    + intros H. destruct p; [by destruct (H [] [])|done].
  - rewrite orb_false_iff, IH. split.
    + intros [H0 H] [|a0 a] b Heq.
      * assert (Py.startswith p (c :: s) = true); [|congruence].
        apply startswith_prefix. exists b. by rewrite Heq.
      * simplify_eq/=. by apply (H a b).
    + intros H. split.
      * destruct (Py.startswith p (c :: s)) eqn:E; [|done].
        apply startswith_prefix in E as [b Hb]. by destruct (H [] b).
      * intros a b ->. by apply (H (c :: a) b).
Qed.

(** After the replacement no escaped newline reference is left. *)
Lemma replace_newline_complete s :
  occurs "&amp;#10;" (Py.replace "&amp;#10;" "&#10;" s) = false.
Proof.
  change (lit "&amp;#10;") with ("&"%char :: lit "amp;#10;").
  change (lit "&#10;") with ("&"%char :: lit "#10;").
  remember (length s) as n eqn:Hn. revert s Hn.
  induction n as [n IH] using lt_wf_ind. intros s ->.
  destruct s as [|c s]; [done|]. rewrite replace_cons by done.
  destruct (Py.startswith _ (c :: s)) eqn:E.
  - pose proof E as [r Hr]%startswith_prefix. pose proof Hr as Hlen.
    apply (f_equal length) in Hlen. rewrite length_app in Hlen.
    assert (occurs ("&"%char :: lit "amp;#10;")
              (Py.replace ("&"%char :: lit "amp;#10;") ("&"%char :: lit "#10;")
                 (drop (length ("&"%char :: lit "amp;#10;")) (c :: s))) = false) as H.
    { eapply IH; [|done]. rewrite length_drop. simpl in *. lia. }
    revert H. generalize (Py.replace ("&"%char :: lit "amp;#10;") ("&"%char :: lit "#10;")
                 (drop (length ("&"%char :: lit "amp;#10;")) (c :: s))).
    intros R HR. change (occurs ("&"%char :: lit "amp;#10;") (("&"%char :: lit "#10;") ++ R))
      with (occurs ("&"%char :: lit "amp;#10;") R). exact HR.
  - change (occurs ?p (c :: ?t)) with (Py.startswith p (c :: t) || occurs p t).
    rewrite (IH (length s)) by (simpl; lia || done). rewrite orb_false_r.
    destruct (Py.startswith _ (c :: Py.replace _ _ s)) eqn:E'; [|done].
    apply startswith_prefix in E' as [k Hk].
    injection Hk as -> Hk.
    assert (lit "amp;#10;" `prefix_of` s) as [k' ->].
    { apply (prefix_of_replace "&"%char (lit "amp;#10;") (lit "#10;")); [compute_done|].
      by exists k. }
    assert (Py.startswith ("&"%char :: lit "amp;#10;")
              ("&"%char :: lit "amp;#10;" ++ k') = true) as E2
      by (apply startswith_prefix; by exists k').
    congruence.
Qed.

(** X6.  The citation body never holds the escaped newline reference:
    every one that [esc] writes is taken back, also where several follow
    one another, and the replacement makes no new one. *)
Theorem X6_cite_body_no_escaped_newline (bibtex : text) :
  occurs "&amp;#10;" (cite_body bibtex) = false /\
  (forall a b : text, cite_body bibtex <> a ++ "&amp;#10;" ++ b).
Proof.
  assert (occurs "&amp;#10;" (cite_body bibtex) = false) as H
    by apply replace_newline_complete.
  split; [done|]. by apply occurs_false_iff.
Qed.


(** ** More about [read_rows] *)

Lemma for_each_Forall2 {A B} (f : A -> result B) (l : list A) bs :
  for_each f l = Ok bs <-> Forall2 (fun a b => f a = Ok b) l bs.
Proof.
  revert bs. induction l as [|a l IH]; intros bs; simpl.
  - split; [by intros [= <-]; constructor|by inversion 1].
  - destruct (f a) as [b|e] eqn:Ea.
    + destruct (for_each f l) as [bs'|e] eqn:El; simpl.
      * split.
        -- intros [= <-]. constructor; [done|]. by apply IH.
        -- intros H. inversion H as [|? b' ? bs'' Hb Hl]; subst.
           apply IH in Hl. rewrite Ea in Hb. congruence.
      * split; [done|]. intros H. inversion H as [|? b' ? bs'' Hb Hl]; subst.
        apply IH in Hl. done.
    + split; [done|]. intros H. inversion H; subst. congruence.
Qed.

Lemma foldl_insert_lookup (items : list (text * text)) (m : row) k v :
  foldl (fun (m : row) kv => <[kv.1 := kv.2]> m) m items !! k = Some v ->
  (k, v) ∈ items \/ m !! k = Some v.
Proof.
  revert m. induction items as [|[k' v'] items IH]; intros m; simpl; [by right|].
  intros [H|H]%IH; [left; by apply list_elem_of_further|].
  destruct (decide (k' = k)) as [->|Hne].
  - rewrite lookup_insert_eq in H. injection H as ->. left. apply list_elem_of_here.
  - rewrite lookup_insert_ne in H by done. by right.
Qed.

Lemma foldl_insert_keys (items : list (text * text)) (m : row) k :
  is_Some (foldl (fun (m : row) kv => <[kv.1 := kv.2]> m) m items !! k) <->
  k ∈ items.*1 \/ is_Some (m !! k).
Proof.
  revert m. induction items as [|[k' v'] items IH]; intros m; simpl.
  - rewrite elem_of_nil. tauto.
  - rewrite IH, elem_of_cons. simpl.
    destruct (decide (k' = k)) as [->|Hne].
    + rewrite lookup_insert_eq. split; [intros _; by left; left|].
      intros _. right. by eexists.
    + rewrite lookup_insert_ne by done. split; [tauto|].
      intros [[?|?]|?]; [congruence|tauto..].
Qed.

Lemma strip_item_inv kv k v :
  strip_item kv = Ok (k, v) ->
  exists k0 v0, kv.1 = Some k0 /\ k = Py.strip k0 /\ v = Py.strip v0.
Proof.
  destruct kv as [[k0|] w]; unfold strip_item; simpl; [|done].
  destruct w as [|s|[|c l]]; intros [= <- <-]; eexists _, _; done.
Qed.

Lemma strip_dict_inv (d : list (option text * pyval)) (r : row) :
  strip_dict d = Ok r ->
  exists items,
    Forall2 (fun kv item => strip_item kv = Ok item) d items /\
    r = foldl (fun (m : row) kv => <[kv.1 := kv.2]> m) ∅ items.
Proof.
  unfold strip_dict. destruct (for_each strip_item d) as [items|e] eqn:E; [|done].
  intros [= <-]. exists items. split; [by apply for_each_Forall2|done].
Qed.

Lemma read_rows_inv table rows :
  read_rows table = Ok rows ->
  Forall2 (fun record r =>
             length record <= length (header table) /\
             strip_dict (DictReader_row (header table) record) = Ok r)
          (data_records table) rows.
Proof.
  intros Hrows.
  assert (Forall (fun record => length record <= length (header table))
            (data_records table)) as Hlen by (apply read_rows_Ok; by eexists).
  unfold read_rows in Hrows. rewrite DictReader_rows in Hrows.
  apply for_each_Forall2 in Hrows. apply Forall2_fmap_l in Hrows.
  revert Hlen. induction Hrows; intros Hlen; [constructor|].
  inversion Hlen; subst. constructor; [done|]. by apply IHHrows.
Qed.

Lemma row_values_trimmed (d : list (option text * pyval)) (r : row) k v :
  strip_dict d = Ok r -> r !! k = Some v -> trimmed k /\ trimmed v.
Proof.
  intros (items & Hitems & ->)%strip_dict_inv Hk.
  apply foldl_insert_lookup in Hk as [Hin|Hk]; [|by rewrite lookup_empty in Hk].
  apply list_elem_of_lookup in Hin as [i Hi].
  destruct (Forall2_lookup_r _ _ _ _ _ Hitems Hi) as (kv & _ & Hkv).
  apply strip_item_inv in Hkv as (k0 & v0 & _ & -> & ->).
  split; apply strip_trimmed.
Qed.

(** X7.  Every row that [read_rows] returns has trimmed column names and
    trimmed values: [strip] leaves them as they are, and none begins or
    ends with a whitespace character, of ASCII or not. *)
Theorem X7_read_rows_trimmed (table : list (list text)) (rows : list row) :
  read_rows table = Ok rows ->
  Forall (fun r : row => forall k v, r !! k = Some v ->
            Py.strip k = k /\ Py.strip v = v /\
            no_space_at_ends k /\ no_space_at_ends v) rows.
Proof.
  intros Hrows%read_rows_inv. apply Forall_forall. intros r Hr.
  apply list_elem_of_lookup in Hr as [i Hi].
  destruct (Forall2_lookup_r _ _ _ _ _ Hrows Hi) as (record & _ & _ & Hd).
  intros k v Hk. destruct (row_values_trimmed _ _ _ _ Hd Hk) as [Hkt Hvt].
  split_and!; [done|done|by apply trimmed_iff..].
Qed.

Lemma X7_read_rows_trimmed_witness :
  Forall (fun r : row => forall k v, r !! k = Some v ->
            Py.strip k = k /\ Py.strip v = v /\
            no_space_at_ends k /\ no_space_at_ends v) spaced_rows.
Proof. apply (X7_read_rows_trimmed spaced_table spaced_rows). reflexivity. Defined.

(** X8.  [read_rows] gives one row for each record after the header that
    is not empty; the header and the empty records (blank lines) give
    none, so a table that is empty or has its header only gives no row.
    The number that [main] prints is this number of records. *)
Theorem X8_read_rows_count (HERE : text) (table : list (list text)) (rows : list row)
    (out : option text) (so se : text) :
  read_rows table = Ok rows ->
  length rows = length (data_records table) /\
  stdout (main HERE (World (Some table) out so se)).1 =
    so ++ "Wrote " ++ OUT_FILE HERE ++ " ("
       ++ Py.str_of_nat (length (data_records table)) ++ " items)." ++ [nl] /\
  read_rows [] = Ok [] /\
  (forall fieldnames, read_rows [fieldnames] = Ok []) /\
  (forall fieldnames records,
     data_records (fieldnames :: [] :: records) = data_records (fieldnames :: records)).
Proof.
  intros Hrows. pose proof (read_rows_inv _ _ Hrows) as Hinv.
  assert (length rows = length (data_records table)) as Hlen
    by (symmetry; by eapply Forall2_length).
  split_and!; [done| |done|done|].
  - rewrite (main_rows HERE table rows out so se Hrows). simpl.
    unfold summary. by rewrite Hlen.
  - intros fieldnames records. unfold data_records. simpl.
    by rewrite filter_cons_False by (intros H; by apply H).
Qed.

Lemma X8_read_rows_count_witness :
  length example_rows = length (data_records example_table) /\
  stdout (main "/site" (World (Some example_table) None [] [])).1 =
    [] ++ "Wrote " ++ OUT_FILE "/site" ++ " ("
       ++ Py.str_of_nat (length (data_records example_table)) ++ " items)." ++ [nl] /\
  read_rows [] = Ok [] /\
  (forall fieldnames, read_rows [fieldnames] = Ok []) /\
  (forall fieldnames records,
     data_records (fieldnames :: [] :: records) = data_records (fieldnames :: records)).
Proof.
  apply (X8_read_rows_count "/site" example_table example_rows None [] []). reflexivity.
Defined.

Lemma dict_set_keys {V} (k k' : option text) (v : V) d :
  k' ∈ (dict_set k v d).*1 <-> k' = k \/ k' ∈ d.*1.
Proof.
  induction d as [|[k0 v0] d IH]; simpl.
  - rewrite elem_of_cons, elem_of_nil. tauto.
  - destruct (decide (k0 = k)) as [->|Hne]; simpl; rewrite !elem_of_cons.
    + tauto.
    + rewrite IH. tauto.
Qed.

Lemma foldl_dict_set_keys {A} (f : A -> option text) (g : A -> pyval) l d k :
  k ∈ (foldl (fun d a => dict_set (f a) (g a) d) d l).*1 <->
  k ∈ d.*1 \/ k ∈ f <$> l.
Proof.
  revert d. induction l as [|a l IH]; intros d; simpl.
  - rewrite elem_of_nil. tauto.
  - rewrite IH, dict_set_keys, elem_of_cons. tauto.
Qed.

Lemma zip_take_l {A B} (l : list A) (k : list B) :
  zip l k = zip (take (length k) l) k.
Proof.
  revert k. induction l as [|a l IH]; intros [|b k]; simpl; [done..|].
  by rewrite <- IH.
Qed.

Lemma DictReader_row_keys fieldnames record k :
  length record <= length fieldnames ->
  k ∈ (DictReader_row fieldnames record).*1 <-> k ∈ Some <$> fieldnames.
Proof.
  intros Hlen. unfold DictReader_row. rewrite (proj2 (Nat.ltb_ge _ _) Hlen).
  assert (forall k, k ∈ (foldl (fun d kv => dict_set (Some kv.1) (VStr kv.2) d) []
                        (zip fieldnames record)).*1
                    <-> k ∈ Some <$> take (length record) fieldnames) as Hzip.
  { intros k0.
    rewrite (foldl_dict_set_keys (fun kv : text * text => Some kv.1)
               (fun kv => VStr kv.2)).
    simpl. rewrite elem_of_nil.
    assert ((fun kv : text * text => Some kv.1) <$> zip fieldnames record
            = Some <$> take (length record) fieldnames) as ->; [|tauto].
    rewrite (zip_take_l fieldnames record).
    rewrite <- (fst_zip (take (length record) fieldnames) record) at 2
      by (rewrite length_take; lia).
    by rewrite <- list_fmap_compose. }
  destruct (Nat.ltb (length record) (length fieldnames)) eqn:E.
  - rewrite (foldl_dict_set_keys (fun key : text => Some key) (fun _ => VNone)).
    rewrite Hzip. rewrite <- (take_drop (length record) fieldnames) at 3.
    rewrite fmap_app, elem_of_app. done.
  - apply Nat.ltb_ge in E. rewrite Hzip, take_ge by lia. done.
Qed.

(** X9.  The keys of every row are exactly the trimmed column names of
    the header, also for a record with fewer cells than the header: a
    column that the header names is never missing from a row. *)
Theorem X9_read_rows_keys (table : list (list text)) (rows : list row) :
  read_rows table = Ok rows ->
  Forall (fun r : row => forall k, is_Some (r !! k) <-> k ∈ Py.strip <$> header table)
         rows.
Proof.
  intros Hrows%read_rows_inv. apply Forall_forall. intros r Hr.
  apply list_elem_of_lookup in Hr as [i Hi].
  destruct (Forall2_lookup_r _ _ _ _ _ Hrows Hi) as (record & _ & Hlen & Hd).
  apply strip_dict_inv in Hd as (items & Hitems & ->).
  intros k. rewrite foldl_insert_keys, lookup_empty.
  assert (k ∈ items.*1 <-> k ∈ Py.strip <$> header table) as <-; [|split; [|tauto]].
  2:{ intros [?|[? ?]]; done. }
  assert (forall k0 : option text, k0 ∈ (DictReader_row (header table) record).*1
                     <-> k0 ∈ Some <$> header table) as Hkeys
    by (intros; by apply DictReader_row_keys).
  split.
  - intros ([k' v] & -> & Hin)%list_elem_of_fmap. simpl.
    apply list_elem_of_lookup in Hin as [j Hj].
    destruct (Forall2_lookup_r _ _ _ _ _ Hitems Hj) as (kv & Hkv & Hs).
    apply strip_item_inv in Hs as (k0 & v0 & Hk0 & -> & _).
    assert (Some k0 ∈ Some <$> header table) as Hin.
    { apply Hkeys. rewrite <- Hk0. apply list_elem_of_fmap. exists kv.
      split; [done|]. by eapply list_elem_of_lookup_2. }
    apply list_elem_of_fmap in Hin as (h & [= ->] & Hh).
    apply list_elem_of_fmap. by exists h.
  - intros (h & -> & Hh)%list_elem_of_fmap.
    assert (Some h ∈ (DictReader_row (header table) record).*1) as Hin.
    { apply Hkeys. apply list_elem_of_fmap. by exists h. }
    apply list_elem_of_fmap in Hin as ([k0 v0] & Hk0 & Hin). simpl in Hk0. subst k0.
    apply list_elem_of_lookup in Hin as [j Hj].
    destruct (Forall2_lookup_l _ _ _ _ _ Hitems Hj) as ([k' v'] & Hit & Hs).
    apply strip_item_inv in Hs as (k0 & v1 & [= <-] & -> & _).
    apply list_elem_of_fmap. exists (Py.strip h, v'). split; [done|].
    by eapply list_elem_of_lookup_2.
Qed.

Lemma X9_read_rows_keys_witness :
  Forall (fun r : row => forall k, is_Some (r !! k) <-> k ∈ Py.strip <$> header spaced_table)
         spaced_rows.
Proof. apply (X9_read_rows_keys spaced_table spaced_rows). reflexivity. Defined.

(** ** More about [main] *)

Lemma main_cases HERE w :
  (csv_file w = None /\ (main HERE w).2 = Exit 1 /\
   (main HERE w).1 =
     World None (out_file w) (stdout w)
       (stderr w
        ++ ("ERROR: publications.csv not found next to build_publications.py" ++ [nl])
        ++ ("Create the CSV (see template) and run again." ++ [nl]))) \/
  (exists table, csv_file w = Some table /\ read_rows table = Raise AttributeError /\
     main HERE w = (w, Uncaught AttributeError)) \/
  (exists table rows, csv_file w = Some table /\ read_rows table = Ok rows /\
     main HERE w =
       (World (Some table) (Some (page_of rows))
              (stdout w ++ summary HERE (length rows)) (stderr w), Returned)).
Proof.
  destruct w as [[table|] out so se]; simpl.
  - right. destruct (read_rows table) as [rows|e] eqn:E.
    + right. exists table, rows. split_and!; [done..|]. by apply main_rows.
    + left. exists table. pose proof (read_rows_Raise _ _ E) as ->.
      split_and!; [done..|]. by apply main_raise.
  - left. split_and!; [done..|]. unfold main. simpl. by rewrite <- !app_assoc.
Qed.

(** X11.  A run never touches the table.  A run that does not return
    leaves the output file and the standard output as they were: the page
    is written only by a run that returns, and such a run writes nothing to
    the standard error.  [sys.exit] is called with status 1 only, for a
    missing table; a run that an exception ends leaves everything as it
    was. *)
Theorem X11_main_failure_writes_nothing (HERE : text) (w : world) :
  csv_file (main HERE w).1 = csv_file w /\
  ((main HERE w).2 <> Returned ->
     out_file (main HERE w).1 = out_file w /\ stdout (main HERE w).1 = stdout w) /\
  ((main HERE w).2 = Returned ->
     is_Some (out_file (main HERE w).1) /\ stderr (main HERE w).1 = stderr w) /\
  (forall e, (main HERE w).2 = Uncaught e -> (main HERE w).1 = w) /\
  (forall n, (main HERE w).2 = Exit n -> n = 1 /\ csv_file w = None).
Proof.
  destruct (main_cases HERE w) as [(Hc & Ho & Hw)|[(t & Hc & Hr & Hm)|(t & rows & Hc & Hr & Hm)]].
  - rewrite Ho, Hw. simpl. split_and!; try done.
    by intros n [= <-].
  - rewrite Hm. simpl. split_and!; done.
  - rewrite Hm. simpl. split_and!; try done.
Qed.

(** X12.  The page and the way a run ends depend on the table alone, not
    on what the output file held before; so a second run on the same table
    ends the same way and writes the same page again. *)
Theorem X12_main_regenerates (HERE : text) (w w' : world) :
  (csv_file w = csv_file w' ->
     (main HERE w).2 = (main HERE w').2 /\
     ((main HERE w).2 = Returned ->
        out_file (main HERE w).1 = out_file (main HERE w').1)) /\
  (main HERE (main HERE w).1).2 = (main HERE w).2 /\
  out_file (main HERE (main HERE w).1).1 = out_file (main HERE w).1.
Proof.
  assert (forall v v', csv_file v = csv_file v' ->
            (main HERE v).2 = (main HERE v').2 /\
            ((main HERE v).2 = Returned ->
               out_file (main HERE v).1 = out_file (main HERE v').1)) as Hdep.
  { intros v v' Heq.
    destruct (main_cases HERE v)
      as [(Hc & Ho & Hw)|[(t & Hc & Hr & Hm)|(t & rows & Hc & Hr & Hm)]];
      destruct (main_cases HERE v')
      as [(Hc' & Ho' & Hw')|[(t' & Hc' & Hr' & Hm')|(t' & rows' & Hc' & Hr' & Hm')]];
      rewrite Hc, Hc' in Heq; simplify_eq;
      rewrite ?Ho, ?Ho', ?Hm, ?Hm'; simpl; try done;
      first [congruence | split; [done|intros _; congruence]]. }
  split; [apply Hdep|].
  destruct (main_cases HERE w)
    as [(Hc & Ho & Hw)|[(t & Hc & Hr & Hm)|(t & rows & Hc & Hr & Hm)]].
  - rewrite Hw, Ho. done.
  - rewrite Hm. simpl. by rewrite Hm.
  - rewrite Hm. simpl. by rewrite (main_rows HERE t rows _ _ _ Hr).
Qed.

(** X13.  The table and the page are two different files of the
    directory of the script: the two paths are [HERE] followed by the file
    name, and they differ, so that writing the page never overwrites the
    table. *)
Theorem X13_paths_apart (HERE : text) :
  CSV_FILE HERE <> OUT_FILE HERE /\
  HERE `prefix_of` CSV_FILE HERE /\ HERE `prefix_of` OUT_FILE HERE /\
  ("publications.csv" : text) `suffix_of` CSV_FILE HERE /\
  ("publications.html" : text) `suffix_of` OUT_FILE HERE.
Proof.
  unfold CSV_FILE, OUT_FILE, path_join.
  destruct (last HERE) as [c|] eqn:E.
  - destruct (Ascii.eqb c "/"); split_and!.
    + by intros ?%app_inv_head.
    + by eexists.
    + by eexists.
    + by eexists.
    + by eexists.
    + by intros ?%app_inv_head.
    + by eexists.
    + by eexists.
    + exists (HERE ++ "/"). by rewrite <- app_assoc.
    + exists (HERE ++ "/"). by rewrite <- app_assoc.
  - apply last_None in E as ->. split_and!; [done|by eexists|by eexists|by exists []|by exists []].
Qed.

(** ** The button cluster *)

Lemma links_eq r :
  links r = Py.join (nl :: "            ")
              (("<div class=`links`>" : text) :: links_parts r ++ [("</div>" : text)]).
Proof. unfold links, links_parts. simpl. by rewrite <- !app_assoc. Qed.

Lemma join_cons_length sep p ps :
  length (Py.join sep (p :: ps)) =
    length p + sum_list_with (fun q => length sep + length q) ps.
Proof.
  revert p. induction ps as [|q ps IH]; intros p; simpl; [lia|].
  rewrite length_app, length_app. specialize (IH q). simpl in IH. rewrite IH. lia.
Qed.

Lemma url_part_nil (r : row) k (f : text -> list text) :
  (forall url, f url <> []) ->
  match r !! k with
  | Some url => if Py.truthy url then f url else []
  | None => []
  end = [] <-> get_or r k [] = [].
Proof.
  intros Hf. unfold get_or. destruct (r !! k) as [[|c url]|]; simpl; try done.
  split; [by intros ?%Hf|done].
Qed.

Lemma links_bare (r : row) :
  links r = "<div class=`links`>" ++ (nl :: "            ") ++ "</div>" <->
  get_or r "paper_url" [] = [] /\ get_or r "slides_url" [] = [] /\
  get_or r "doi_url" [] = [] /\ get_or r "bibtex" [] = [] /\
  Py.strip (get_or r "media" []) = [].
Proof.
  assert (links_parts r = [] <->
          get_or r "paper_url" [] = [] /\ get_or r "slides_url" [] = [] /\
          get_or r "doi_url" [] = [] /\ get_or r "bibtex" [] = [] /\
          Py.strip (get_or r "media" []) = []) as <-.
  { unfold links_parts. rewrite !app_nil.
    unfold paper_part, slides_part, doi_part, cite_part.
    rewrite !url_part_nil by done.
    unfold media_part. destruct (Py.strip (get_or r "media" [])); simpl; [tauto|].
    split; intros H; decompose [and] H; done. }
  rewrite links_eq. split.
  - intros H. apply (f_equal length) in H. rewrite join_cons_length in H.
    destruct (links_parts r) as [|p ps]; [done|]. exfalso.
    rewrite sum_list_with_app in H.
    simpl in H. lia.
  - by intros ->.
Qed.

(** X14.  The button cluster is the bare division, with nothing between
    its two tags but the line break of the join, exactly when the record
    has no paper URL, no slides URL, no DOI URL, no BibTeX entry and its
    media field is blank, that is, made of whitespace characters only. *)
Theorem X14_links_bare (r : row) :
  (links r = "<div class=`links`>" ++ (nl :: "            ") ++ "</div>" <->
   get_or r "paper_url" [] = [] /\ get_or r "slides_url" [] = [] /\
   get_or r "doi_url" [] = [] /\ get_or r "bibtex" [] = [] /\
   Py.strip (get_or r "media" []) = []) /\
  (Py.strip (get_or r "media" []) = [] <-> blank (get_or r "media" [])) /\
  links {[ ("media" : text) := nbsp ++ " " ++ ideographic_space ]}
    = "<div class=`links`>" ++ (nl :: "            ") ++ "</div>".
Proof.
  split_and!; [apply links_bare|apply strip_nil_iff|vm_compute; reflexivity].
Qed.

(** X15.  When the record has a paper URL, the button carries the
    trimmed [paper_label]; it carries "Paper" when the label is missing,
    empty or made of whitespace only, so the button is never without a
    text. *)
Theorem X15_paper_label_default (r : row) (url : text) :
  r !! ("paper_url" : text) = Some url -> url <> [] ->
  let label := Py.strip (getd r "paper_label" []) in
  let shown := if decide (label = []) then ("Paper" : text) else label in
  paper_part r =
    ["<a class=`btn` href=`" ++ esc url ++ "` itemprop=`url`>" ++ esc shown ++ "</a>"] /\
  shown <> [] /\ esc shown <> [] /\
  (label = [] <-> blank (getd r "paper_label" [])) /\ no_space_at_ends label.
Proof.
  intros Hurl Hne label shown.
  assert (Py.or_ (Py.strip (get_or r "paper_label" "Paper")) "Paper" = shown) as Hshown.
  { unfold shown, label, get_or, getd.
    destruct (r !! ("paper_label" : text)) as [[|c v]|]; simpl; [done| |done].
    change (Py.or_ (c :: v) "Paper") with (c :: v).
    destruct (decide (Py.strip (c :: v) = [])) as [->|Hv]; [done|].
    by destruct (Py.strip (c :: v)). }
  assert (shown <> []) as Hs.
  { unfold shown. by destruct (decide (label = [])). }
  split_and!; [|done| |apply strip_nil_iff|apply strip_spec].
  - unfold paper_part. rewrite Hurl. destruct url; [done|]. simpl Py.truthy. cbv iota.
    by rewrite Hshown.
  - destruct shown as [|c s]; [done|]. rewrite esc_cons.
    pose proof (escape_char_nonempty c). by destruct (escape_char c).
Qed.

Lemma X15_paper_label_default_witness :
  let r : row := {[ ("paper_url" : text) := ("p.pdf" : text);
                    ("paper_label" : text) := " " ++ nbsp ]} in
  let label := Py.strip (getd r "paper_label" []) in
  let shown := if decide (label = []) then ("Paper" : text) else label in
  paper_part r =
    ["<a class=`btn` href=`" ++ esc "p.pdf" ++ "` itemprop=`url`>" ++ esc shown ++ "</a>"] /\
  shown <> [] /\ esc shown <> [] /\
  (label = [] <-> blank (getd r "paper_label" [])) /\ no_space_at_ends label.
Proof.
  apply (X15_paper_label_default
           {[ ("paper_url" : text) := ("p.pdf" : text);
              ("paper_label" : text) := " " ++ nbsp ]} "p.pdf").
  - reflexivity.
  - discriminate.
Defined.

Lemma optional_parts_omitted (r : row) (status year venue : text) :
  (comment_html r = [] <-> Py.strip (get_or r "comment" []) = []) /\
  (abstract_html r = [] <->
     Py.strip (Py.replace [cr; nl] [nl] (get_or r "abstract" [])) = []) /\
  (pills status year venue = [] <-> status = [] /\ year = [] /\ venue = []) /\
  (cite_part r = [] <-> get_or r "bibtex" [] = []) /\
  (slides_part r = [] <-> get_or r "slides_url" [] = []) /\
  (doi_part r = [] <-> get_or r "doi_url" [] = []) /\
  (paper_part r = [] <-> get_or r "paper_url" [] = []).
Proof.
  split_and!.
  - unfold comment_html. by destruct (Py.strip (get_or r "comment" [])).
  - unfold abstract_html.
    by destruct (Py.strip (Py.replace [cr; nl] [nl] (get_or r "abstract" []))).
  - unfold pills. destruct status, year, venue; simpl; split; try done;
      intros H; decompose [and] H; done.
  - unfold cite_part. by apply url_part_nil.
  - unfold slides_part. by apply url_part_nil.
  - unfold doi_part. by apply url_part_nil.
  - unfold paper_part. by apply url_part_nil.
Qed.

(** X16.  The optional parts of a fragment are left out exactly when
    their field is blank: no comment line for a comment that is missing or
    made of whitespace, no abstract for an abstract that is blank once its
    line ends are normalised, no badge for an empty status, year or venue;
    and a field that is not blank always leaves text.  Blank is what
    [strip] empties: the texts made of whitespace characters only, of ASCII
    or not. *)
Theorem X16_optional_parts_omitted (r : row) (status year venue : text) :
  (comment_html r = [] <-> Py.strip (get_or r "comment" []) = []) /\
  (abstract_html r = [] <->
     Py.strip (Py.replace [cr; nl] [nl] (get_or r "abstract" [])) = []) /\
  (pills status year venue = [] <-> status = [] /\ year = [] /\ venue = []) /\
  (cite_part r = [] <-> get_or r "bibtex" [] = []) /\
  (slides_part r = [] <-> get_or r "slides_url" [] = []) /\
  (doi_part r = [] <-> get_or r "doi_url" [] = []) /\
  (paper_part r = [] <-> get_or r "paper_url" [] = []) /\
  (forall s, Py.strip s = [] <-> blank s) /\
  comment_html {[ ("comment" : text) := nbsp ++ " " ]} = [] /\
  abstract_html {[ ("abstract" : text) := [cr; nl] ++ ideographic_space ]} = [].
Proof.
  pose proof (optional_parts_omitted r status year venue) as H.
  destruct H as (H1 & H2 & H3 & H4 & H5 & H6 & H7).
  split_and!;
    lazymatch goal with
    | |- forall s : text, _ => apply strip_nil_iff
    | |- _ => first [assumption | vm_compute; reflexivity]
    end.
Qed.

(** ** The cells of a row *)

Lemma dict_set_fst {V} (k : option text) (v : V) d :
  k ∉ d.*1 -> (dict_set k v d).*1 = d.*1 ++ [k].
Proof.
  induction d as [|[k0 v0] d IH]; csimpl; [done|].
  intros [Hne Hd]%not_elem_of_cons.
  destruct (decide (k0 = k)) as [->|_]; [done|]. csimpl. by rewrite IH.
Qed.

Lemma dict_set_elem {V} (k : option text) (v : V) d : (k, v) ∈ dict_set k v d.
Proof.
  induction d as [|[k0 v0] d IH]; simpl; [apply list_elem_of_here|].
  destruct (decide (k0 = k)); [apply list_elem_of_here|by apply list_elem_of_further].
Qed.

Lemma dict_set_elem_ne {V} (k k' : option text) (v v' : V) d :
  (k', v') ∈ d -> k' <> k -> (k', v') ∈ dict_set k v d.
Proof.
  intros Hin Hne. induction d as [|[k0 v0] d IH]; simpl; [by apply elem_of_nil in Hin|].
  apply elem_of_cons in Hin as [[= <- <-]|Hin].
  - destruct (decide (k' = k)); [done|apply list_elem_of_here].
  - destruct (decide (k0 = k)) as [->|_].
    + by apply list_elem_of_further.
    + apply list_elem_of_further. by apply IH.
Qed.

Lemma foldl_dict_set_NoDup {A} (f : A -> option text) (g : A -> pyval) l d :
  NoDup (d.*1 ++ (f <$> l)) ->
  let d' := foldl (fun d a => dict_set (f a) (g a) d) d l in
  d'.*1 = d.*1 ++ (f <$> l) /\
  (forall kv, kv ∈ d -> kv ∈ d') /\
  (forall a, a ∈ l -> (f a, g a) ∈ d').
Proof.
  revert d. induction l as [|a l IH]; intros d Hnd; simpl.
  - rewrite app_nil_r. split_and!; [done..|]. by intros a ?%elem_of_nil.
  - assert (f a ∉ d.*1) as Hfa.
    { apply NoDup_app in Hnd as (_ & Hd & _). intros Hin. apply (Hd _ Hin). left. }
    assert (NoDup ((dict_set (f a) (g a) d).*1 ++ (f <$> l))) as Hnd'.
    { rewrite dict_set_fst by done. by rewrite <- app_assoc. }
    destruct (IH _ Hnd') as (Hk & Hold & Hnew). split_and!.
    + rewrite Hk, dict_set_fst by done. by rewrite <- app_assoc.
    + intros [k v] Hin. apply Hold. apply dict_set_elem_ne; [done|].
      intros ->. apply Hfa. apply list_elem_of_fmap. by exists (f a, v).
    + intros a' [->|Hin]%elem_of_cons; [|by apply Hnew].
      apply Hold. apply dict_set_elem.
Qed.

Lemma DictReader_row_short fieldnames record :
  length record <= length fieldnames ->
  DictReader_row fieldnames record =
    foldl (fun d key => dict_set (Some key) VNone d)
      (foldl (fun d kv => dict_set (Some kv.1) (VStr kv.2) d) [] (zip fieldnames record))
      (drop (length record) fieldnames).
Proof.
  intros Hlen. unfold DictReader_row. rewrite (proj2 (Nat.ltb_ge _ _) Hlen).
  destruct (Nat.ltb (length record) (length fieldnames)) eqn:E; [done|].
  apply Nat.ltb_ge in E. by rewrite drop_ge by lia.
Qed.

Lemma DictReader_row_cells fieldnames record :
  NoDup fieldnames -> length record <= length fieldnames ->
  (DictReader_row fieldnames record).*1 = Some <$> fieldnames /\
  forall i h, fieldnames !! i = Some h ->
    (Some h, cell record i) ∈ DictReader_row fieldnames record.
Proof.
  intros Hnd Hlen. rewrite DictReader_row_short by done.
  assert ((fun kv : text * text => Some kv.1) <$> zip fieldnames record
          = Some <$> take (length record) fieldnames) as Hz.
  { rewrite (zip_take_l fieldnames record).
    rewrite <- (fst_zip (take (length record) fieldnames) record) at 2
      by (rewrite length_take; lia).
    by rewrite <- list_fmap_compose. }
  assert (NoDup (Some <$> take (length record) fieldnames
                 ++ drop (length record) fieldnames)) as Hnd'.
  { rewrite take_drop. apply (NoDup_fmap_2 _). done. }
  rewrite fmap_app in Hnd'.
  destruct (foldl_dict_set_NoDup (fun kv : text * text => Some kv.1)
              (fun kv => VStr kv.2) (zip fieldnames record) [])
    as (Hk1 & _ & Hnew1).
  { simpl. rewrite Hz. by apply NoDup_app in Hnd' as (? & _ & _). }
  simpl in Hk1. rewrite Hz in Hk1.
  destruct (foldl_dict_set_NoDup (fun key : text => Some key) (fun _ => VNone)
              (drop (length record) fieldnames)
              (foldl (fun d kv => dict_set (Some kv.1) (VStr kv.2) d) []
                     (zip fieldnames record)))
    as (Hk2 & Hold2 & Hnew2).
  { by rewrite Hk1. }
  split.
  - rewrite Hk2, Hk1, <- fmap_app. by rewrite take_drop.
  - intros i h Hi. unfold cell. destruct (record !! i) as [c|] eqn:Hc.
    + apply Hold2.
      apply (Hnew1 (h, c)). apply list_elem_of_lookup. exists i.
      by rewrite lookup_zip_with, Hi; simpl; rewrite Hc.
    + apply lookup_ge_None in Hc. apply (Hnew2 h).
      apply list_elem_of_lookup. exists (i - length record).
      rewrite lookup_drop. by replace (length record + (i - length record)) with i by lia.
Qed.

Lemma strip_items_fst (d : list (option text * pyval)) items fieldnames :
  Forall2 (fun kv item => strip_item kv = Ok item) d items ->
  d.*1 = Some <$> fieldnames -> items.*1 = Py.strip <$> fieldnames.
Proof.
  intros H. revert fieldnames.
  induction H as [|kv it d items Hit _ IH]; intros [|h fn]; simpl; try done.
  intros [= Hkv Hd]. destruct it as [k v].
  apply strip_item_inv in Hit as (k0 & v0 & Hk0 & -> & _).
  rewrite Hkv in Hk0. injection Hk0 as <-. simpl. f_equal. by apply IH.
Qed.

Lemma NoDup_fst_functional {K V} (l : list (K * V)) k v v' :
  NoDup l.*1 -> (k, v) ∈ l -> (k, v') ∈ l -> v = v'.
Proof.
  induction l as [|[k0 v0] l IH]; csimpl; [by intros _ ?%elem_of_nil|].
  intros [Hk0 Hnd]%NoDup_cons H1 H2.
  assert (forall w, (k0, w) ∈ l -> False) as Hno.
  { intros w Hw. apply Hk0. apply list_elem_of_fmap. by exists (k0, w). }
  apply elem_of_cons in H1 as [H1|H1]; apply elem_of_cons in H2 as [H2|H2];
    simplify_eq; try done.
  - by destruct (Hno v').
  - by destruct (Hno v).
  - by apply IH.
Qed.

Lemma foldl_insert_NoDup (items : list (text * text)) k v :
  NoDup items.*1 -> (k, v) ∈ items ->
  foldl (fun (m : row) kv => <[kv.1 := kv.2]> m) ∅ items !! k = Some v.
Proof.
  intros Hnd Hin.
  assert (is_Some (foldl (fun (m : row) kv => <[kv.1 := kv.2]> m) ∅ items !! k))
    as [v' Hv'].
  { apply foldl_insert_keys. left. apply list_elem_of_fmap. by exists (k, v). }
  rewrite Hv'. f_equal.
  apply foldl_insert_lookup in Hv' as [Hv'|Hv']; [|by rewrite lookup_empty in Hv'].
  by apply (NoDup_fst_functional items k).
Qed.


(** X17.  When the column names of the header are distinct after
    trimming, a row maps each trimmed column name to the trimmed cell of
    its column, and to the empty text where the record has no cell for the
    column; so every column of the header is present in every row. *)
Theorem X17_read_rows_cells (table : list (list text)) (rows : list row) :
  read_rows table = Ok rows ->
  NoDup (Py.strip <$> header table) ->
  Forall2 (fun record (r : row) =>
             forall i h, header table !! i = Some h ->
               r !! Py.strip h = Some (Py.strip (default [] (record !! i))))
          (data_records table) rows.
Proof.
  intros Hrows%read_rows_inv Hnd.
  eapply Forall2_impl; [exact Hrows|]. clear Hrows.
  intros record r [Hlen Hd] i h Hi.
  apply strip_dict_inv in Hd as (items & Hitems & ->).
  destruct (DictReader_row_cells (header table) record) as [Hkeys Hcells];
    [by eapply NoDup_fmap_1|done|].
  apply foldl_insert_NoDup.
  - by rewrite (strip_items_fst _ _ _ Hitems Hkeys).
  - specialize (Hcells i h Hi). apply list_elem_of_lookup in Hcells as [j Hj].
    destruct (Forall2_lookup_l _ _ _ _ _ Hitems Hj) as ([k v] & Hit & Hs).
    apply list_elem_of_lookup. exists j. rewrite Hit. f_equal.
    unfold strip_item, cell in Hs. simpl in Hs.
    destruct (record !! i) as [c|]; simpl in *; injection Hs as <- <-;
      by rewrite ?or_nil.
Qed.

Lemma X17_read_rows_cells_witness :
  Forall2 (fun record (r : row) =>
             forall i h, header spaced_table !! i = Some h ->
               r !! Py.strip h = Some (Py.strip (default [] (record !! i))))
          (data_records spaced_table) spaced_rows.
Proof.
  apply (X17_read_rows_cells spaced_table spaced_rows).
  - reflexivity.
  - apply (bool_decide_unpack _). vm_compute. exact I.
Defined.

(** ** The characters of a fragment

    Each function of the program that builds text keeps a class of
    characters: what it returns is made of characters of its arguments and
    of characters of its own literals. *)

Section Alphabet.

Variable P : ascii -> Prop.

Lemma replace_Forall old new s :
  Forall P new -> Forall P s -> Forall P (Py.replace old new s).
Proof.
  intros Hnew. unfold Py.replace. generalize 0.
  induction s as [|c s IH]; intros k Hs; simpl; [done|].
  apply Forall_cons in Hs as [Hc Hs].
  destruct k; [|by apply IH].
  destruct (Py.startswith old (c :: s)).
  - apply Forall_app_2; [done|by apply IH].
  - apply Forall_cons_2; [done|by apply IH].
Qed.

Lemma lazy_group_Forall closes s g :
  Re.lazy_group closes s = Some g -> Forall P s -> Forall P g.
Proof.
  intros (rest & -> & _)%lazy_group_sound H. by apply Forall_app in H as [? _].
Qed.

Lemma double_marker_Forall m prev s g len :
  Re.double_marker m prev s = Some (g, len) -> Forall P s -> Forall P g.
Proof.
  unfold Re.double_marker. destruct s as [|a [|b rest]]; [done..|].
  destruct (Ascii.eqb a m && Ascii.eqb b m); [|done].
  destruct (Re.lazy_group _ rest) as [g'|] eqn:E; [|done].
  intros [= <- _] H. apply (lazy_group_Forall _ _ _ E).
  by apply Forall_cons in H as [_ [_ ?]%Forall_cons].
Qed.

Lemma single_marker_Forall m prev s g len :
  Re.single_marker m prev s = Some (g, len) -> Forall P s -> Forall P g.
Proof.
  unfold Re.single_marker. destruct s as [|a rest]; [done|].
  destruct (_ && _); [|done].
  destruct (Re.lazy_group _ rest) as [g'|] eqn:E; [|done].
  intros [= <- _] H. apply (lazy_group_Forall _ _ _ E).
  by apply Forall_cons in H as [_ ?].
Qed.

Lemma sub_Forall (p : Re.matcher) repl s :
  (forall prev s g len, p prev s = Some (g, len) -> Forall P s -> Forall P g) ->
  (forall g, Forall P g -> Forall P (repl g)) ->
  Forall P s -> Forall P (Re.sub p repl s).
Proof.
  intros Hp Hrepl. unfold Re.sub. generalize 0. generalize (@None ascii).
  induction s as [|c s IH]; intros prev k Hs; simpl; [done|].
  pose proof Hs as [Hc Hs']%Forall_cons.
  destruct k; [|by apply IH].
  destruct (p prev (c :: s)) as [[g len]|] eqn:E.
  - apply Forall_app_2; [|by apply IH]. apply Hrepl. by apply (Hp _ _ _ _ E).
  - apply Forall_cons_2; [done|by apply IH].
Qed.

Lemma join_Forall sep parts :
  Forall P sep -> Forall (Forall P) parts -> Forall P (Py.join sep parts).
Proof.
  intros Hsep. induction 1 as [|p ps Hp Hps IH]; simpl; [done|].
  destruct ps; [done|]. apply Forall_app_2; [done|]. by apply Forall_app_2.
Qed.

Lemma split_Forall sep s : Forall P s -> Forall (Forall P) (Py.split sep s).
Proof.
  induction 1 as [|c s Hc Hs IH]; simpl; [by repeat constructor|].
  destruct (Ascii.eqb c sep); [by constructor|].
  destruct (Py.split sep s) as [|p ps]; [by repeat constructor|].
  apply Forall_cons in IH as [Hp Hps]. constructor; [by constructor|done].
Qed.

Lemma before_first_Forall sep s : Forall P s -> Forall P (before_first sep s).
Proof.
  induction 1 as [|c s Hc Hs IH]; simpl; [done|].
  destruct (decide (c = sep)); [done|by constructor].
Qed.

Lemma after_first_Forall sep s : Forall P s -> Forall P (after_first sep s).
Proof.
  induction 1 as [|c s Hc Hs IH]; simpl; [done|]. by destruct (decide (c = sep)).
Qed.

Lemma esc_Forall s :
  Forall P ("&amp;&lt;&gt;&quot;&#x27;" : text) -> Forall P s -> Forall P (esc s).
Proof.
  intros Hent. rewrite esc_flat_map. induction 1 as [|c s Hc Hs IH]; simpl; [done|].
  apply Forall_app_2; [|done].
  assert (forall e : text,
            (exists a b : text, ("&amp;&lt;&gt;&quot;&#x27;" : text) = a ++ e ++ b) ->
            Forall P e) as Hsub.
  { intros e (a & b & Heq). rewrite Heq in Hent.
    by apply Forall_app in Hent as [_ [? _]%Forall_app]. }
  destruct (escape_char_cases c) as [[_ ->]|[[_ ->]|[[_ ->]|[[_ ->]|[[_ ->]|[_ ->]]]]]].
  - apply Hsub. by exists [], ("&lt;&gt;&quot;&#x27;" : text).
  - apply Hsub. by exists ("&amp;" : text), ("&gt;&quot;&#x27;" : text).
  - apply Hsub. by exists ("&amp;&lt;" : text), ("&quot;&#x27;" : text).
  - apply Hsub. by exists ("&amp;&lt;&gt;" : text), ("&#x27;" : text).
  - apply Hsub. by exists ("&amp;&lt;&gt;&quot;" : text), [].
  - by constructor.
Qed.

End Alphabet.

(** ** Text without braces *)

Lemma brace_free_lit (s : text) :
  forallb (fun c => negb (Ascii.eqb c "{")) s = true -> brace_free s.
Proof.
  intros H. apply Forall_forall. intros c Hc%list_elem_of_In.
  rewrite forallb_forall in H. specialize (H c Hc).
  intros ->. by rewrite Ascii.eqb_refl in H.
Qed.

Lemma brace_free_not_in s : brace_free s <-> "{"%char ∉ s.
Proof.
  unfold brace_free. rewrite Forall_forall. split.
  - intros H Hin. by apply (H _ Hin).
  - intros H c Hc ->. done.
Qed.

Ltac brace_lit :=
  lazymatch goal with
  | |- _ (lit _) => idtac
  | |- _ (_ :: lit _) => idtac
  | |- _ [nl] => idtac
  | |- _ ICON_COMMENT => idtac
  | |- _ ICON_STATUS => idtac
  | |- _ ICON_YEAR => idtac
  end;
  apply brace_free_lit; vm_compute; reflexivity.

Ltac brace_parts :=
  repeat match goal with
         | |- brace_free (_ ++ _) => apply Forall_app_2
         | |- Forall _ (_ ++ _) => apply Forall_app_2
         end.

Lemma esc_brace s : brace_free s -> brace_free (esc s).
Proof. apply esc_Forall. brace_lit. Qed.

Lemma strip_brace s : brace_free s -> brace_free (Py.strip s).
Proof. apply (strip_Forall (fun c => c <> "{"%char)). Qed.

Lemma fmt_brace s : brace_free s -> brace_free (fmt s).
Proof.
  intros H. unfold fmt. rewrite or_nil.
  repeat (apply replace_Forall; [brace_lit|]).
  apply sub_Forall; [apply single_marker_Forall| |].
  { intros g Hg. unfold em_repl. brace_parts; [brace_lit|done|brace_lit]. }
  apply sub_Forall; [apply single_marker_Forall| |].
  { intros g Hg. unfold em_repl. brace_parts; [brace_lit|done|brace_lit]. }
  apply sub_Forall; [apply double_marker_Forall| |].
  { intros g Hg. unfold strong_repl. brace_parts; [brace_lit|done|brace_lit]. }
  apply sub_Forall; [apply double_marker_Forall| |].
  { intros g Hg. unfold strong_repl. brace_parts; [brace_lit|done|brace_lit]. }
  by apply esc_brace.
Qed.

Lemma cite_body_brace s : brace_free s -> brace_free (cite_body s).
Proof. intros H. apply replace_Forall; [brace_lit|by apply esc_brace]. Qed.

Section Fragment.

Variable r : row.
Hypothesis Hr : forall k v, r !! k = Some v -> brace_free v.

Lemma getd_brace k : brace_free (getd r k []).
Proof.
  unfold getd. destruct (r !! k) as [v|] eqn:E; simpl; [by eapply Hr|constructor].
Qed.

Lemma get_or_brace k d : brace_free d -> brace_free (get_or r k d).
Proof.
  intros Hd. unfold get_or. destruct (r !! k) as [v|] eqn:E; [|done].
  unfold Py.or_. destruct (Py.truthy v); [by eapply Hr|done].
Qed.

Lemma paper_part_brace : Forall brace_free (paper_part r).
Proof.
  unfold paper_part. destruct (r !! lit "paper_url") as [url|] eqn:E; [|constructor].
  destruct (Py.truthy url); constructor; [|constructor].
  brace_parts; try brace_lit.
  - apply esc_brace. by eapply Hr.
  - apply esc_brace. unfold Py.or_.
    destruct (Py.truthy (Py.strip (get_or r "paper_label" "Paper"))); [|brace_lit].
    apply strip_brace, get_or_brace. brace_lit.
Qed.

Lemma slides_part_brace : Forall brace_free (slides_part r).
Proof.
  unfold slides_part. destruct (r !! lit "slides_url") as [url|] eqn:E; [|constructor].
  destruct (Py.truthy url); constructor; [|constructor].
  brace_parts; try brace_lit. apply esc_brace. by eapply Hr.
Qed.

Lemma doi_part_brace : Forall brace_free (doi_part r).
Proof.
  unfold doi_part. destruct (r !! lit "doi_url") as [url|] eqn:E; [|constructor].
  destruct (Py.truthy url); constructor; [|constructor].
  brace_parts; try brace_lit. apply esc_brace. by eapply Hr.
Qed.

Lemma cite_part_brace : Forall brace_free (cite_part r).
Proof.
  unfold cite_part. destruct (r !! lit "bibtex") as [bibtex|] eqn:E; [|constructor].
  destruct (Py.truthy bibtex); constructor; [|constructor].
  brace_parts; try brace_lit. apply cite_body_brace. by eapply Hr.
Qed.

Lemma media_pill_brace item : brace_free item -> Forall brace_free (media_pill item).
Proof.
  intros Hitem. unfold media_pill. rewrite label_url_spec.
  assert (brace_free (Py.strip (before_first "|" item))) as Hl
    by by apply strip_brace, before_first_Forall.
  assert (brace_free (Py.strip (after_first "|" item))) as Hu
    by by apply strip_brace, after_first_Forall.
  destruct (negb _); [constructor|].
  destruct (Py.truthy _); (constructor; [|constructor]);
    brace_parts; try brace_lit; by apply esc_brace.
Qed.

Lemma media_part_brace : Forall brace_free (media_part r).
Proof.
  unfold media_part.
  assert (brace_free (Py.strip (get_or r "media" []))) as Hm
    by (apply strip_brace, get_or_brace; constructor).
  destruct (Py.truthy _); constructor; [|constructor].
  brace_parts; try brace_lit.
  apply join_Forall; [constructor|]. unfold pills_html.
  pose proof (split_Forall _ ";" _ Hm) as Hs. revert Hs.
  generalize (Py.split ";" (Py.strip (get_or r "media" []))).
  induction 1 as [|item items Hi _ IH]; simpl; [constructor|].
  apply Forall_app_2; [by apply media_pill_brace|done].
Qed.

Lemma links_brace : brace_free (links r).
Proof.
  unfold links. apply join_Forall; [brace_lit|].
  repeat apply Forall_app_2;
    auto using paper_part_brace, slides_part_brace, doi_part_brace, cite_part_brace,
      media_part_brace.
  - constructor; [brace_lit|constructor].
  - constructor; [brace_lit|constructor].
Qed.

Lemma pills_brace : brace_free (pills (getd r "status" []) (getd r "year" []) (getd r "venue" [])).
Proof.
  pose proof (getd_brace "status"). pose proof (getd_brace "year").
  pose proof (getd_brace "venue").
  unfold pills. apply join_Forall; [brace_lit|].
  destruct (Py.truthy (getd r "status" [])), (Py.truthy (getd r "year" [])),
    (Py.truthy (getd r "venue" [])); cbv beta iota zeta;
    repeat match goal with
           | |- Forall (Forall _) (_ ++ _) => apply Forall_app_2
           | |- Forall (Forall _) [] => apply Forall_nil_2
           | |- Forall (Forall _) [_] => apply Forall_cons_2; [|apply Forall_nil_2]
           end;
    brace_parts; try brace_lit; by apply esc_brace.
Qed.

Lemma authors_brace : brace_free (authors_html r).
Proof.
  unfold authors_html. destruct (_ || _); [brace_lit|].
  brace_parts; [brace_lit|]. apply esc_brace, strip_brace, get_or_brace. constructor.
Qed.

Lemma comment_brace : brace_free (comment_html r).
Proof.
  unfold comment_html. destruct (Py.truthy _); [|constructor].
  brace_parts; try brace_lit. apply esc_brace, strip_brace, get_or_brace. constructor.
Qed.

Lemma abstract_brace : brace_free (abstract_html r).
Proof.
  unfold abstract_html. destruct (Py.truthy _); [|constructor].
  brace_parts; try brace_lit. apply fmt_brace, strip_brace.
  apply replace_Forall; [brace_lit|]. apply get_or_brace. constructor.
Qed.

Lemma article_brace : brace_free (article r).
Proof.
  unfold article. brace_parts; try brace_lit.
  - apply esc_brace, getd_brace.
  - apply links_brace.
  - apply pills_brace.
  - apply authors_brace.
  - apply comment_brace.
  - apply abstract_brace.
Qed.

End Fragment.

Lemma section_items_brace k rows :
  Forall (fun r : row => forall k v, r !! k = Some v -> brace_free v) rows ->
  brace_free (section_items k rows).
Proof.
  intros Hrows. unfold section_items, Py.or_.
  destruct (Py.truthy _); [|brace_lit].
  apply join_Forall; [brace_lit|]. apply Forall_reverse, Forall_fmap.
  unfold rows_of. apply Forall_forall. intros r [_ Hr]%list_elem_of_filter. simpl.
  apply article_brace. by apply (proj1 (Forall_forall _ _) Hrows).
Qed.

Lemma page_of_brace_free rows :
  Forall (fun r : row => forall k v, r !! k = Some v -> brace_free v) rows ->
  page_of rows =
    page (section_items "journal" rows) (section_items "conference" rows)
         (section_items "working" rows) (section_items "other" rows).
Proof.
  intros Hrows. unfold page_of.
  pose proof (proj1 (brace_free_not_in _) (section_items_brace "journal" rows Hrows)) as HJ.
  pose proof (proj1 (brace_free_not_in _) (section_items_brace "working" rows Hrows)) as HW.
  pose proof (proj1 (brace_free_not_in _) (section_items_brace "conference" rows Hrows)) as HC.
  destruct (shown_clean (section_items "journal" rows) (section_items "working" rows)
              (section_items "conference" rows) (section_items "other" rows) HJ)
    as (-> & _ & _).
  destruct (shown_clean (section_items "working" rows) (section_items "working" rows)
              (section_items "conference" rows) (section_items "other" rows) HW)
    as (_ & -> & _).
  destruct (shown_clean (section_items "conference" rows) (section_items "working" rows)
              (section_items "conference" rows) (section_items "other" rows) HC)
    as (_ & _ & ->).
  done.
Qed.

(** ** From the cells of the table to the values of the rows *)

Lemma dict_set_elem_inv {V} (k : option text) (v : V) d kv :
  kv ∈ dict_set k v d -> kv = (k, v) \/ kv ∈ d.
Proof.
  induction d as [|[k0 v0] d IH]; simpl.
  - intros ->%list_elem_of_singleton. by left.
  - destruct (decide (k0 = k)) as [->|_].
    + intros [->|?]%elem_of_cons; [by left|]. right. by apply list_elem_of_further.
    + intros [->|?]%elem_of_cons; [right; apply list_elem_of_here|].
      destruct IH as [?|?]; [done|by left|]. right. by apply list_elem_of_further.
Qed.

Lemma foldl_dict_set_elem_inv {A} (f : A -> option text) (g : A -> pyval) l d kv :
  kv ∈ foldl (fun d a => dict_set (f a) (g a) d) d l ->
  kv ∈ d \/ exists a, a ∈ l /\ kv = (f a, g a).
Proof.
  revert d. induction l as [|a l IH]; intros d; simpl; [by left|].
  intros [[->|?]%dict_set_elem_inv|(a' & Ha' & ->)]%IH.
  - right. exists a. split; [apply list_elem_of_here|done].
  - by left.
  - right. exists a'. split; [by apply list_elem_of_further|done].
Qed.

Lemma DictReader_row_values fieldnames record k v :
  length record <= length fieldnames ->
  (k, v) ∈ DictReader_row fieldnames record ->
  v = VNone \/ exists c, c ∈ record /\ v = VStr c.
Proof.
  intros Hlen. rewrite DictReader_row_short by done.
  intros [[Hin|((h & c) & Hin & Heq)]%foldl_dict_set_elem_inv
         |(h & _ & Heq)]%foldl_dict_set_elem_inv.
  - by apply elem_of_nil in Hin.
  - right. exists c. simpl in Heq. injection Heq as -> ->. split; [|done].
    by apply elem_of_zip_r in Hin.
  - left. by injection Heq.
Qed.

Lemma read_rows_brace table rows :
  read_rows table = Ok rows ->
  Forall (Forall (fun c : text => "{"%char ∉ c)) (data_records table) ->
  Forall (fun r : row => forall k v, r !! k = Some v -> brace_free v) rows.
Proof.
  intros Hrows%read_rows_inv Hcells. apply Forall_forall. intros r Hr.
  apply list_elem_of_lookup in Hr as [i Hi].
  destruct (Forall2_lookup_r _ _ _ _ _ Hrows Hi) as (record & Hrec & Hlen & Hd).
  assert (Forall (fun c : text => "{"%char ∉ c) record) as Hrecord.
  { apply (proj1 (Forall_forall _ _) Hcells). by eapply list_elem_of_lookup_2. }
  apply strip_dict_inv in Hd as (items & Hitems & ->).
  intros k v Hk.
  apply foldl_insert_lookup in Hk as [Hin|Hk]; [|by rewrite lookup_empty in Hk].
  apply list_elem_of_lookup in Hin as [j Hj].
  destruct (Forall2_lookup_r _ _ _ _ _ Hitems Hj) as ([k0 v0] & Hkv & Hs).
  apply list_elem_of_lookup_2 in Hkv.
  apply (DictReader_row_values _ _ _ _ Hlen) in Hkv as [->|(c & Hc & ->)];
    unfold strip_item in Hs; simpl in Hs; destruct k0; simplify_eq.
  - constructor.
  - rewrite or_nil. apply strip_brace, brace_free_not_in.
    by apply (proj1 (Forall_forall _ _) Hrecord).
Qed.

(** X18.  When no cell of the records holds an opening brace, the page
    is the template with the content of each section put in as it is:
    none of the four replacements of [main] changes text that an earlier
    one has put in. *)
Theorem X18_page_without_braces (HERE : text) (table : list (list text))
    (rows : list row) (out : option text) (so se : text) :
  read_rows table = Ok rows ->
  Forall (Forall (fun c : text => "{"%char ∉ c)) (data_records table) ->
  out_file (main HERE (World (Some table) out so se)).1 =
    Some (page (section_items "journal" rows) (section_items "conference" rows)
               (section_items "working" rows) (section_items "other" rows)) /\
  Forall (fun k => "{"%char ∉ section_items k rows) section_keys /\
  Forall (fun r => "{"%char ∉ article r) rows.
Proof.
  intros Hrows Hcells.
  pose proof (read_rows_brace _ _ Hrows Hcells) as Hb.
  split_and!.
  - rewrite (main_rows HERE table rows out so se Hrows). simpl.
    by rewrite page_of_brace_free.
  - apply Forall_forall. intros k _. by apply brace_free_not_in, section_items_brace.
  - eapply Forall_impl; [exact Hb|]. intros r Hr. by apply brace_free_not_in, article_brace.
Qed.

Lemma X18_page_without_braces_witness :
  out_file (main "/site" (World (Some example_table) None [] [])).1 =
    Some (page (section_items "journal" example_rows)
               (section_items "conference" example_rows)
               (section_items "working" example_rows)
               (section_items "other" example_rows)) /\
  Forall (fun k => "{"%char ∉ section_items k example_rows) section_keys /\
  Forall (fun r => "{"%char ∉ article r) example_rows.
Proof.
  apply (X18_page_without_braces "/site" example_table example_rows None [] []).
  - reflexivity.
  - apply (bool_decide_unpack _). vm_compute. exact I.
Defined.

(** X19.  A placeholder of the template written in a record is not
    inert: escaping leaves it as it is, and a replacement that [main]
    makes later fills it.  The title [{{OTHER_ITEMS}}] of a record is
    replaced in the shown fragment by the content of the last section. *)
Theorem X19_placeholder_in_record (r : row) (other : text) :
  getd r "title" [] = ("{{OTHER_ITEMS}}" : text) ->
  esc "{{OTHER_ITEMS}}" = ("{{OTHER_ITEMS}}" : text) /\
  exists pre post : text,
    ("{"%char ∉ pre) /\
    article r = pre ++ "{{OTHER_ITEMS}}" ++ post /\
    shown_conference (article r) other = pre ++ other ++ shown_conference post other.
Proof.
  intros Htitle. split; [reflexivity|].
  unfold article. rewrite Htitle.
  change (esc (lit "{{OTHER_ITEMS}}")) with (lit "{{OTHER_ITEMS}}").
  eexists _, _. split_and!; [|reflexivity|].
  - apply brace_free_not_in. brace_lit.
  - unfold shown_conference.
    change (lit "{{OTHER_ITEMS}}") with ("{"%char :: lit "{OTHER_ITEMS}}").
    rewrite replace_skip by (apply brace_free_not_in; brace_lit).
    by rewrite replace_match.
Qed.

Lemma X19_placeholder_in_record_witness :
  esc "{{OTHER_ITEMS}}" = ("{{OTHER_ITEMS}}" : text) /\
  exists pre post : text,
    ("{"%char ∉ pre) /\
    article {[ ("title" : text) := ("{{OTHER_ITEMS}}" : text) ]}
      = pre ++ "{{OTHER_ITEMS}}" ++ post /\
    shown_conference (article {[ ("title" : text) := ("{{OTHER_ITEMS}}" : text) ]}) "X"
      = pre ++ "X" ++ shown_conference post "X".
Proof.
  apply (X19_placeholder_in_record {[ ("title" : text) := ("{{OTHER_ITEMS}}" : text) ]} "X").
  reflexivity.
Defined.

(** ** Emphasis and line feeds

    The group [(.+?)] of the four patterns does not take a line feed, so a
    marker and its partner on another line are no match. *)

Section Lines.

Variable m : ascii.
Hypothesis m_nl : m <> nl.

Lemma lazy_group_line closes (x rest : text) :
  (forall c s, closes c s = true -> head s = Some m) ->
  m ∉ x -> Re.lazy_group closes (x ++ nl :: rest) = None.
Proof.
  intros Hcl. induction x as [|c x IH]; intros Hx; simpl.
  - reflexivity.
  - apply not_elem_of_cons in Hx as [Hc Hx].
    destruct (Ascii.eqb c nl); [done|].
    destruct (closes c (x ++ nl :: rest)) eqn:E.
    + apply Hcl in E. destruct x as [|d x]; simplify_eq/=.
      exfalso. apply Hx. left.
    + by rewrite IH.
Qed.

Lemma closes_double_head c s : Re.closes_double m c s = true -> head s = Some m.
Proof.
  destruct s as [|a [|b s]]; simpl; [done..|].
  intros [->%Ascii.eqb_eq _]%andb_true_iff. done.
Qed.

Lemma closes_single_head c s : Re.closes_single m c s = true -> head s = Some m.
Proof.
  unfold Re.closes_single. destruct s as [|a s]; simpl.
  - by rewrite andb_false_r.
  - intros [_ [->%Ascii.eqb_eq _]%andb_true_iff]%andb_true_iff. done.
Qed.

Lemma single_marker_end prev : Re.single_marker m prev [m] = None.
Proof. unfold Re.single_marker. by destruct (_ && _). Qed.

Lemma single_marker_after prev (s : text) : Re.single_marker m (Some m) (prev :: s) = None.
Proof.
  unfold Re.single_marker. rewrite Ascii.eqb_refl. simpl.
  by rewrite andb_false_r.
Qed.

Lemma single_marker_before prev (s : text) : Re.single_marker m prev (m :: m :: s) = None.
Proof.
  unfold Re.single_marker. rewrite !Ascii.eqb_refl. simpl.
  by rewrite andb_false_r.
Qed.

Lemma sub_single_line repl (x y : text) :
  m ∉ x -> m ∉ y ->
  Re.sub (Re.single_marker m) repl ([m] ++ x ++ nl :: y ++ [m])
    = [m] ++ x ++ nl :: y ++ [m].
Proof.
  intros Hx Hy. unfold Re.sub.
  change ([m] ++ x ++ nl :: y ++ [m]) with (m :: (x ++ nl :: y ++ [m])).
  rewrite sub_cons_nomatch.
  2:{ unfold Re.single_marker. destruct (_ && _); [|done].
      rewrite lazy_group_line; [done|apply closes_single_head|done]. }
  f_equal.
  replace (x ++ nl :: y ++ [m]) with ((x ++ nl :: y) ++ [m])
    by (by rewrite <- app_assoc).
  rewrite (sub_skip _ _ m (single_marker_pattern m)).
  2:{ rewrite elem_of_app, elem_of_cons. intros [?|[?|?]]; done. }
  f_equal. by rewrite sub_cons_nomatch by apply single_marker_end.
Qed.

Lemma sub_double_line repl (x y : text) :
  m ∉ x -> m ∉ y ->
  Re.sub (Re.double_marker m) repl ([m; m] ++ x ++ nl :: y ++ [m; m])
    = [m; m] ++ x ++ nl :: y ++ [m; m].
Proof.
  intros Hx Hy. unfold Re.sub.
  change ([m; m] ++ x ++ nl :: y ++ [m; m]) with (m :: m :: (x ++ nl :: y ++ [m; m])).
  rewrite sub_cons_nomatch.
  2:{ unfold Re.double_marker. destruct (_ && _); [|done].
      rewrite lazy_group_line; [done|apply closes_double_head|done]. }
  f_equal. rewrite sub_cons_nomatch.
  2:{ unfold Re.double_marker.
      destruct (x ++ nl :: y ++ [m; m]) as [|b rest] eqn:Ex; [done|].
      assert (b <> m) as Hb.
      { destruct x as [|c x]; injection Ex as <- _; [done|].
        intros ->. apply Hx. left. }
      rewrite Ascii.eqb_refl. destruct (Ascii.eqb b m) eqn:E; [|done].
      by apply Ascii.eqb_eq in E. }
  f_equal.
  replace (x ++ nl :: y ++ [m; m]) with ((x ++ nl :: y) ++ [m; m])
    by (by rewrite <- app_assoc).
  rewrite (sub_skip _ _ m (double_marker_pattern m)).
  2:{ rewrite elem_of_app, elem_of_cons. intros [?|[?|?]]; done. }
  f_equal.
  rewrite sub_cons_nomatch.
  2:{ unfold Re.double_marker. by destruct (_ && _). }
  by rewrite sub_cons_nomatch.
Qed.

Lemma sub_single_on_double repl (z : text) :
  m ∉ z ->
  Re.sub (Re.single_marker m) repl ([m; m] ++ z ++ [m; m]) = [m; m] ++ z ++ [m; m].
Proof.
  intros Hz. unfold Re.sub.
  change ([m; m] ++ z ++ [m; m]) with (m :: m :: (z ++ [m; m])).
  rewrite sub_cons_nomatch by apply single_marker_before.
  rewrite sub_cons_nomatch by apply single_marker_after.
  rewrite (sub_skip _ _ m (single_marker_pattern m)) by done.
  rewrite sub_cons_nomatch by apply single_marker_before.
  by rewrite sub_cons_nomatch by apply single_marker_after.
Qed.

End Lines.

(** X20.  Emphasis does not reach over a line break: when a line feed
    stands between a marker and its partner, [fmt] leaves the markers in
    the text and writes no tag.  This holds for the single and the double
    star and underscore. *)
Theorem X20_fmt_no_emphasis_over_lines (x y : text) :
  plain_text x -> plain_text y ->
  fmt ("*" ++ x ++ nl :: y ++ "*") = "*" ++ x ++ nl :: y ++ "*" /\
  fmt ("_" ++ x ++ nl :: y ++ "_") = "_" ++ x ++ nl :: y ++ "_" /\
  fmt ("**" ++ x ++ nl :: y ++ "**") = "**" ++ x ++ nl :: y ++ "**" /\
  fmt ("__" ++ x ++ nl :: y ++ "__") = "__" ++ x ++ nl :: y ++ "__".
Proof.
  intros Hx Hy.
  assert (forall mk, mk ∈ ("*_&<>`'" : text) -> mk <> nl -> mk ∉ x ++ nl :: y) as Hz.
  { intros mk Hmk Hnl. rewrite elem_of_app, elem_of_cons.
    intros [H|[H|H]]; [by apply (plain_text_not x mk Hx Hmk)|done|
                       by apply (plain_text_not y mk Hy Hmk)]. }
  assert (star ∉ x) as Hsx by (apply plain_text_not; [done|compute_done]).
  assert (star ∉ y) as Hsy by (apply plain_text_not; [done|compute_done]).
  assert (underscore ∉ x) as Hux by (apply plain_text_not; [done|compute_done]).
  assert (underscore ∉ y) as Huy by (apply plain_text_not; [done|compute_done]).
  assert ("&"%char ∉ x ++ nl :: y) as Hamp by (apply Hz; [compute_done|done]).
  assert (star ∉ x ++ nl :: y) as Hs by (apply Hz; [compute_done|done]).
  assert (underscore ∉ x ++ nl :: y) as Hu by (apply Hz; [compute_done|done]).
  assert (forall a b : text,
            Forall (fun c => c ∉ ("&<>`'" : text)) a ->
            Forall (fun c => c ∉ ("&<>`'" : text)) b ->
            esc (Py.or_ (a ++ x ++ nl :: y ++ b) []) = a ++ x ++ nl :: y ++ b) as Hesc.
  { intros a b Ha Hb. rewrite or_nil.
    replace (x ++ nl :: y ++ b) with (x ++ [nl] ++ y ++ b) by done.
    rewrite !esc_app, (plain_text_esc x Hx), (plain_text_esc y Hy).
    by rewrite (esc_plain a), (esc_plain b). }
  assert (forall (mk : ascii) (a b : text),
            mk ∉ a -> mk ∉ b -> mk ∉ x ++ nl :: y -> mk ∉ a ++ x ++ nl :: y ++ b) as Hnot.
  { intros mk a b Ha Hb Hm.
    replace (a ++ x ++ nl :: y ++ b) with (a ++ (x ++ nl :: y) ++ b)
      by (by rewrite <- !app_assoc).
    by apply not_in_app3. }
  unfold fmt. split_and!.
  - rewrite Hesc by compute_done.
    change (lit "*") with [star].
    replace (x ++ nl :: y ++ [star]) with ((x ++ nl :: y) ++ [star])
      by (by rewrite <- app_assoc).
    rewrite (sub_double_on_single star) by (done || by destruct x).
    unfold Re.sub at 3. rewrite (sub_absent _ _ underscore (double_marker_pattern _))
      by (apply not_in_app3; [compute_done|done|compute_done]).
    replace ((x ++ nl :: y) ++ [star]) with (x ++ nl :: y ++ [star])
      by (by rewrite <- app_assoc).
    rewrite (sub_single_line star) by done.
    unfold Re.sub at 1. rewrite (sub_absent _ _ underscore (single_marker_pattern _))
      by (apply Hnot; [compute_done|compute_done|done]).
    apply whitelist_absent. apply Hnot; [compute_done|compute_done|done].
  - rewrite Hesc by compute_done.
    change (lit "_") with [underscore].
    unfold Re.sub at 4. rewrite (sub_absent _ _ star (double_marker_pattern _))
      by (apply Hnot; [compute_done|compute_done|done]).
    replace (x ++ nl :: y ++ [underscore]) with ((x ++ nl :: y) ++ [underscore])
      by (by rewrite <- app_assoc).
    rewrite (sub_double_on_single underscore) by (done || by destruct x).
    unfold Re.sub at 2. rewrite (sub_absent _ _ star (single_marker_pattern _))
      by (apply not_in_app3; [compute_done|done|compute_done]).
    replace ((x ++ nl :: y) ++ [underscore]) with (x ++ nl :: y ++ [underscore])
      by (by rewrite <- app_assoc).
    rewrite (sub_single_line underscore) by done.
    apply whitelist_absent. apply Hnot; [compute_done|compute_done|done].
  - rewrite Hesc by compute_done.
    change (lit "**") with [star; star].
    rewrite (sub_double_line star) by done.
    unfold Re.sub at 3. rewrite (sub_absent _ _ underscore (double_marker_pattern _))
      by (apply Hnot; [compute_done|compute_done|done]).
    replace (x ++ nl :: y ++ [star; star]) with ((x ++ nl :: y) ++ [star; star])
      by (by rewrite <- app_assoc).
    rewrite (sub_single_on_double star) by done.
    unfold Re.sub at 1. rewrite (sub_absent _ _ underscore (single_marker_pattern _))
      by (apply not_in_app3; [compute_done|done|compute_done]).
    apply whitelist_absent. apply not_in_app3; [compute_done|done|compute_done].
  - rewrite Hesc by compute_done.
    change (lit "__") with [underscore; underscore].
    unfold Re.sub at 4. rewrite (sub_absent _ _ star (double_marker_pattern _))
      by (apply Hnot; [compute_done|compute_done|done]).
    rewrite (sub_double_line underscore) by done.
    unfold Re.sub at 2. rewrite (sub_absent _ _ star (single_marker_pattern _))
      by (apply Hnot; [compute_done|compute_done|done]).
    replace (x ++ nl :: y ++ [underscore; underscore])
      with ((x ++ nl :: y) ++ [underscore; underscore])
      by (by rewrite <- app_assoc).
    rewrite (sub_single_on_double underscore) by done.
    apply whitelist_absent. apply not_in_app3; [compute_done|done|compute_done].
Qed.

Lemma X20_fmt_no_emphasis_over_lines_witness :
  fmt ("*" ++ "a" ++ nl :: "b" ++ "*") = "*" ++ "a" ++ nl :: "b" ++ "*" /\
  fmt ("_" ++ "a" ++ nl :: "b" ++ "_") = "_" ++ "a" ++ nl :: "b" ++ "_" /\
  fmt ("**" ++ "a" ++ nl :: "b" ++ "**") = "**" ++ "a" ++ nl :: "b" ++ "**" /\
  fmt ("__" ++ "a" ++ nl :: "b" ++ "__") = "__" ++ "a" ++ nl :: "b" ++ "__".
Proof.
  apply (X20_fmt_no_emphasis_over_lines "a" "b");
    unfold plain_text; apply (bool_decide_unpack _); vm_compute; exact I.
Defined.

(** ** Line ends of the abstract *)

Lemma abstract_html_insert (r : row) (s : text) :
  abstract_html (<[("abstract" : text) := s]> r) =
    let abstract := Py.strip (Py.replace [cr; nl] [nl] s) in
    if Py.truthy abstract then
      "
        <details class=`abstract`>
          <summary><svg class=`chev` viewBox=`0 0 24 24` fill=`none` stroke=`currentColor` stroke-width=`2` stroke-linecap=`round` stroke-linejoin=`round`><path d=`M9 18l6-6-6-6`/></svg> Show abstract</summary>
          <div class=`abs-body` itemprop=`description`>" ++ fmt abstract ++ "</div>
        </details>"
    else [].
Proof.
  unfold abstract_html, get_or. rewrite lookup_insert_eq. by rewrite or_nil.
Qed.

Lemma replace_crlf_of_lf (s : text) :
  cr ∉ s -> Py.replace [cr; nl] [nl] (Py.replace [nl] [cr; nl] s) = s.
Proof.
  induction s as [|c s IH]; intros Hs; [done|].
  apply not_elem_of_cons in Hs as [Hc Hs].
  rewrite replace_char_flat_map. simpl. rewrite <- replace_char_flat_map.
  destruct (decide (c = nl)) as [->|Hnl].
  - rewrite (replace_match [cr; nl] [nl]) by done. simpl. by rewrite IH.
  - simpl. rewrite replace_nomatch; [by rewrite IH|done|].
    apply startswith_head_ne. congruence.
Qed.

(** X21.  The abstract does not depend on the kind of line end: a
    carriage return followed by a line feed is read as a line feed.  A text
    of any number of lines without carriage return and the same text with
    a carriage return before each line feed give the same abstract; and
    the text without carriage return is taken as it is. *)
Theorem X21_abstract_line_ends (r : row) (s : text) :
  cr ∉ s ->
  Py.replace [cr; nl] [nl] (Py.replace [nl] [cr; nl] s) = s /\
  Py.replace [cr; nl] [nl] s = s /\
  abstract_html (<[("abstract" : text) := Py.replace [nl] [cr; nl] s]> r) =
    abstract_html (<[("abstract" : text) := s]> r).
Proof.
  intros Hs.
  pose proof (replace_crlf_of_lf s Hs) as H1.
  assert (Py.replace [cr; nl] [nl] s = s) as H2 by by apply replace_absent.
  split_and!; [done..|].
  rewrite !abstract_html_insert. cbv zeta. by rewrite H1, H2.
Qed.

Lemma X21_abstract_line_ends_witness :
  Py.replace [cr; nl] [nl] (Py.replace [nl] [cr; nl] ("one" ++ [nl] ++ "two" ++ [nl] ++ "three"))
    = "one" ++ [nl] ++ "two" ++ [nl] ++ "three" /\
  Py.replace [cr; nl] [nl] ("one" ++ [nl] ++ "two" ++ [nl] ++ "three")
    = "one" ++ [nl] ++ "two" ++ [nl] ++ "three" /\
  abstract_html (<[("abstract" : text) :=
                     Py.replace [nl] [cr; nl] ("one" ++ [nl] ++ "two" ++ [nl] ++ "three")]> ∅) =
    abstract_html (<[("abstract" : text) := "one" ++ [nl] ++ "two" ++ [nl] ++ "three"]> ∅).
Proof.
  apply (X21_abstract_line_ends ∅ ("one" ++ [nl] ++ "two" ++ [nl] ++ "three")).
  compute_done.
Defined.
